(** * NanoPy SDK: ABI codec, contract layer and transaction signer

    A shallow embedding of [src/contract.ts] with its token helper,
    [dist/wallet.js] and the compiled [utils.js] of the NanoPy TypeScript
    SDK, with the types of [src/types.ts]; the properties the
    specification states about them; and further properties of the code.

    Conventions of the embedding.

    - A JavaScript string is a [string]: a sequence of UTF-16 code units
      restricted to U+0000..U+00FF, one [ascii] per code unit.  Every string
      the SDK builds itself (hex words, selectors, messages) lies in that
      range; [TextDecoder], [toUpperCase] and [String.fromCharCode] are
      the operations that can leave it.
    - A JavaScript Number is a [Num]: [NaN] or an integer.  The integer is
      exact, which agrees with IEEE doubles on the safe integers; where the
      SDK does arithmetic on Numbers whose result is observed, the model
      checks the safe range.  A [BigInt] is a [Z].
    - A [Uint8Array] is a [list byte].
    - A function that can throw returns a [Completion]: [Normal] with its
      value, [Throw] with the exception, or [Unmodelled] when the run leaves
      the fragment described above. *)

From Stdlib Require Import ZArith List Ascii String Strings.Byte Lia Bool.
From stdpp Require Import base option gmap strings.
Import ListNotations.

Local Open Scope Z_scope.

(** ** Completions *)

(** The exceptions the modelled code can raise.  [Error msg] is
    [throw new Error(msg)] in the SDK itself or in js-sha3; the other three
    are raised by the JavaScript engine and their messages are engine
    specific. *)
Inductive JsError : Type :=
| Error (message : string)
| TypeError
| SyntaxError
| RangeError.

Inductive Completion (A : Type) : Type :=
| Normal (a : A)
| Throw (e : JsError)
| Unmodelled.

Arguments Normal {A} a.
Arguments Throw {A} e.
Arguments Unmodelled {A}.

Definition bindC {A B : Type} (c : Completion A) (k : A -> Completion B)
  : Completion B :=
  match c with
  | Normal a => k a
  | Throw e => Throw e
  | Unmodelled => Unmodelled
  end.

Notation "'let*' x ':=' c 'in' k" := (bindC c (fun x => k))
  (at level 10, x pattern, c at level 100, k at level 200).

(** ** JavaScript strings *)

Module Js.

Definition code (c : ascii) : Z := Z.of_N (N_of_ascii c).
Definition chr (z : Z) : ascii := ascii_of_N (Z.to_N z).

Definition len (s : string) : Z := Z.of_nat (String.length s).

Fixpoint take (n : nat) (s : string) : string :=
  match n, s with
  | S n', String c s' => String c (take n' s')
  | _, _ => EmptyString
  end.

Fixpoint drop (n : nat) (s : string) : string :=
  match n, s with
  | S n', String _ s' => drop n' s'
  | _, _ => s
  end.

Fixpoint replicate (n : nat) (c : ascii) : string :=
  match n with
  | O => EmptyString
  | S n' => String c (replicate n' c)
  end.

(** Numbers: [NaN] or an integer. *)
Inductive Num : Type :=
| NaN
| Int (z : Z).

Definition num_add (a b : Num) : Num :=
  match a, b with
  | Int x, Int y => Int (x + y)
  | _, _ => NaN
  end.

Definition num_mul (a b : Num) : Num :=
  match a, b with
  | Int x, Int y => Int (x * y)
  | _, _ => NaN
  end.

(** [String.prototype.slice]: a negative index counts from the end, [NaN] is
    0, and both ends are clamped to the string. *)
Definition rel_index (length : Z) (i : Num) : Z :=
  match i with
  | NaN => 0
  | Int z => if z <? 0 then Z.max (length + z) 0 else Z.min z length
  end.

Definition slice (s : string) (start stop : Num) : string :=
  let from := rel_index (len s) start in
  let to := rel_index (len s) stop in
  take (Z.to_nat (to - from)) (drop (Z.to_nat from) s).

(** [s.slice(start)] *)
Definition slice_from (s : string) (start : Num) : string :=
  slice s start (Int (len s)).

Definition startsWith (s p : string) : bool := String.prefix p s.

(** [s.padStart(n, '0')] and [s.padEnd(n, '0')] with a one-character filler. *)
Definition padStart (s : string) (n : Z) (c : ascii) : string :=
  replicate (Z.to_nat (n - len s)) c +:+ s.

Definition padEnd (s : string) (n : Z) (c : ascii) : string :=
  s +:+ replicate (Z.to_nat (n - len s)) c.

(** [s.replace(p, '')] with a string pattern: the first occurrence of [p]
    is removed. *)
Fixpoint remove_first (p s : string) : string :=
  if String.prefix p s then drop (String.length p) s
  else match s with
       | EmptyString => EmptyString
       | String c s' => String c (remove_first p s')
       end.

(** [toLowerCase] on U+0000..U+00FF: A-Z, and the Latin-1 capitals
    U+00C0..U+00DE except the multiplication sign U+00D7. *)
Definition lower_char (c : ascii) : ascii :=
  let n := code c in
  if (65 <=? n) && (n <=? 90) then chr (n + 32)
  else if (192 <=? n) && (n <=? 222) && negb (n =? 215) then chr (n + 32)
  else c.

Fixpoint toLowerCase (s : string) : string :=
  match s with
  | EmptyString => EmptyString
  | String c s' => String (lower_char c) (toLowerCase s')
  end.

(** White space and line terminators of ECMAScript within U+0000..U+00FF. *)
Definition is_space (c : ascii) : bool :=
  let n := code c in
  ((9 <=? n) && (n <=? 13)) || (n =? 32) || (n =? 160).

Fixpoint trimStart (s : string) : string :=
  match s with
  | EmptyString => EmptyString
  | String c s' => if is_space c then trimStart s' else s
  end.

Fixpoint trimEnd (s : string) : string :=
  match s with
  | EmptyString => EmptyString
  | String c s' =>
      match trimEnd s' with
      | EmptyString => if is_space c then EmptyString else String c EmptyString
      | t => String c t
      end
  end.

Definition trim (s : string) : string := trimEnd (trimStart s).

(** The value of a character as a digit, 0..35. *)
Definition digit_value (c : ascii) : option Z :=
  let n := code c in
  if (48 <=? n) && (n <=? 57) then Some (n - 48)
  else if (97 <=? n) && (n <=? 122) then Some (n - 87)
  else if (65 <=? n) && (n <=? 90) then Some (n - 55)
  else None.

Definition digit_in (radix : Z) (c : ascii) : option Z :=
  match digit_value c with
  | Some d => if d <? radix then Some d else None
  | None => None
  end.

(** The longest prefix of [s] made of digits of [radix], read onto [acc];
    the flag tells whether a digit was read. *)
Fixpoint read_digits (radix : Z) (s : string) (seen : bool) (acc : Z)
  : bool * Z :=
  match s with
  | EmptyString => (seen, acc)
  | String c s' =>
      match digit_in radix c with
      | Some d => read_digits radix s' true (acc * radix + d)
      | None => (seen, acc)
      end
  end.

(** All of [s] as digits of [radix]; [None] when a character is not one. *)
Fixpoint all_digits (radix : Z) (s : string) (acc : Z) : option Z :=
  match s with
  | EmptyString => Some acc
  | String c s' =>
      match digit_in radix c with
      | Some d => all_digits radix s' (acc * radix + d)
      | None => None
      end
  end.

Definition digits_value (radix : Z) (s : string) : option Z :=
  match s with
  | EmptyString => None
  | _ => all_digits radix s 0
  end.

(** [parseInt(s, radix)]; [radix = 0] stands for an absent radix.  The SDK
    calls it with 16 and with no radix. *)
Definition parseInt (s : string) (radix : Z) : Num :=
  let t := trimStart s in
  let '(sign, t) :=
    match t with
    | String c r =>
        if Ascii.eqb c "-" then (-1, r)
        else if Ascii.eqb c "+" then (1, r)
        else (1, t)
    | EmptyString => (1, t)
    end in
  if negb (radix =? 0) && ((radix <? 2) || (36 <? radix)) then NaN
  else
    let strip := (radix =? 0) || (radix =? 16) in
    let radix := if radix =? 0 then 10 else radix in
    let '(radix, t) :=
      if strip && (String.prefix "0x" t || String.prefix "0X" t)
      then (16, drop 2 t) else (radix, t) in
    match read_digits radix t false 0 with
    | (true, v) => Int (sign * v)
    | (false, _) => NaN
    end.

(** [BigInt(s)] for a string [s] (StringToBigInt): surrounding white space is
    dropped; the empty string is 0; a decimal literal may carry a sign; a
    0x, 0o or 0b literal may not; anything else is a SyntaxError. *)
Definition StringToBigInt (s : string) : option Z :=
  let t := trim s in
  match t with
  | EmptyString => Some 0
  | String c r =>
      if Ascii.eqb c "-" then option_map Z.opp (digits_value 10 r)
      else if Ascii.eqb c "+" then digits_value 10 r
      else if String.prefix "0x" t || String.prefix "0X" t
      then digits_value 16 (drop 2 t)
      else if String.prefix "0o" t || String.prefix "0O" t
      then digits_value 8 (drop 2 t)
      else if String.prefix "0b" t || String.prefix "0B" t
      then digits_value 2 (drop 2 t)
      else digits_value 10 t
  end.

(** The digit characters of [toString(radix)]: lower case. *)
Definition digit_char (d : Z) : ascii :=
  if d <? 10 then chr (48 + d) else chr (87 + d).

Fixpoint digits_of (radix : Z) (fuel : nat) (n : Z) (acc : string) : string :=
  match fuel with
  | O => acc
  | S fuel' =>
      let acc' := String (digit_char (n mod radix)) acc in
      if n / radix =? 0 then acc' else digits_of radix fuel' (n / radix) acc'
  end.

(** [n.toString(radix)] for an integer [n] (Number or BigInt). *)
Definition toString (n : Z) (radix : Z) : string :=
  let m := Z.abs n in
  let d := digits_of radix (S (Z.to_nat (Z.log2 m))) m EmptyString in
  if n <? 0 then String "-" d else d.

(** [s[i]]: the character at [i], if there is one. *)
Fixpoint char_at (s : string) (i : nat) : option ascii :=
  match s, i with
  | EmptyString, _ => None
  | String c _, O => Some c
  | String _ s', S i' => char_at s' i'
  end.

(** [toUpperCase] on U+0000..U+00FF: a-z, and the Latin-1 small letters
    U+00E0..U+00FE except the division sign U+00F7, go to their capitals;
    the sharp s U+00DF becomes [SS]; the capitals of the micro sign U+00B5
    and of U+00FF lie above U+00FF: [None]. *)
Definition upper_char (c : ascii) : option string :=
  let n := code c in
  if (97 <=? n) && (n <=? 122) then Some (String (chr (n - 32)) EmptyString)
  else if (224 <=? n) && (n <=? 254) && negb (n =? 247)
  then Some (String (chr (n - 32)) EmptyString)
  else if n =? 223 then Some "SS"
  else if (n =? 181) || (n =? 255) then None
  else Some (String c EmptyString).

(** [s.split(sep)] with a one-character separator: never empty. *)
Fixpoint split (sep : ascii) (s : string) : list string :=
  match s with
  | EmptyString => [EmptyString]
  | String c s' =>
      if Ascii.eqb c sep then EmptyString :: split sep s'
      else match split sep s' with
           | part :: parts => String c part :: parts
           | [] => [String c EmptyString]
           end
  end.

(** [s.replace(/0+$/, '')]: the zeros at the end are dropped. *)
Fixpoint strip_trailing_zeros (s : string) : string :=
  match s with
  | EmptyString => EmptyString
  | String c s' =>
      match strip_trailing_zeros s' with
      | EmptyString => if Ascii.eqb c "0" then EmptyString
                       else String c EmptyString
      | t => String c t
      end
  end.

End Js.

(** ** Bytes *)

Definition byte_val (b : byte) : Z := Z.of_N (Byte.to_N b).

(** Storing a Number into a [Uint8Array]: [NaN] is stored as 0, an integer
    modulo 256. *)
Definition byte_of_Z (z : Z) : byte :=
  default x00 (Byte.of_N (Z.to_N (z mod 256))).

Definition to_uint8 (n : Js.Num) : byte :=
  match n with
  | Js.NaN => x00
  | Js.Int z => byte_of_Z z
  end.

(** ** Text encoding

    [new TextEncoder().encode(s)]: UTF-8.  A code unit below U+0080 is one
    byte, a code unit in U+0080..U+00FF two. *)
Fixpoint utf8_encode (s : string) : list byte :=
  match s with
  | EmptyString => []
  | String c s' =>
      let n := Js.code c in
      if n <? 128 then byte_of_Z n :: utf8_encode s'
      else byte_of_Z (192 + n / 64) :: byte_of_Z (128 + n mod 64)
             :: utf8_encode s'
  end.

(** [new TextDecoder().decode(bytes)] where the text stays within
    U+0000..U+00FF: bytes below 0x80, and the two-byte sequences led by 0xC2
    and 0xC3.  Any other byte decodes to a code unit the strings here do
    not have (U+FFFD for a malformed sequence, or a code point above
    U+00FF), or is a byte-order mark: [None]. *)
Fixpoint utf8_decode (bytes : list byte) : option string :=
  match bytes with
  | [] => Some EmptyString
  | b :: bs =>
      let n := byte_val b in
      if n <? 128 then option_map (String (Js.chr n)) (utf8_decode bs)
      else if (n =? 194) || (n =? 195) then
        match bs with
        | b' :: bs' =>
            let m := byte_val b' in
            if (128 <=? m) && (m <? 192)
            then option_map (String (Js.chr ((n - 192) * 64 + (m - 128))))
                            (utf8_decode bs')
            else None
        | [] => None
        end
      else None
  end.

(** [bytes.map(b => b.toString(16).padStart(2,'0')).join('')]: two hex digits
    a byte. *)
Fixpoint hex_of_bytes (bytes : list byte) : string :=
  match bytes with
  | [] => EmptyString
  | b :: bs => Js.padStart (Js.toString (byte_val b) 16) 2 "0" +:+ hex_of_bytes bs
  end.

(** ** Keccak-256

    [keccak256] of the js-sha3 package, an external primitive of the SDK:
    the Keccak sponge with rate 1088 and capacity 512 over Keccak-f[1600],
    with the original Keccak padding (first padding byte 0x01, last 0x80),
    returning 64 lower-case hex digits.  A string argument is hashed as its
    UTF-8 bytes.  Lanes are 64-bit integers held in [Z]. *)

Module Keccak.

Definition lane_mask : Z := 2 ^ 64 - 1.

Definition rotl (x n : Z) : Z :=
  Z.land (Z.lor (Z.shiftl x n) (Z.shiftr x (64 - n))) lane_mask.

Definition round_constants : list Z :=
  [ 0x0000000000000001; 0x0000000000008082; 0x800000000000808A;
    0x8000000080008000; 0x000000000000808B; 0x0000000080000001;
    0x8000000080008081; 0x8000000000008009; 0x000000000000008A;
    0x0000000000000088; 0x0000000080008009; 0x000000008000000A;
    0x000000008000808B; 0x800000000000008B; 0x8000000000008089;
    0x8000000000008003; 0x8000000000008002; 0x8000000000000080;
    0x000000000000800A; 0x800000008000000A; 0x8000000080008081;
    0x8000000000008080; 0x0000000080000001; 0x8000000080008008 ].

(** Rotation offsets, lane [x + 5 * y] at position [x + 5 * y]. *)
Definition rotation_offsets : list Z :=
  [  0;  1; 62; 28; 27;
    36; 44;  6; 55; 20;
     3; 10; 43; 25; 39;
    41; 45; 15; 21;  8;
    18;  2; 61; 56; 14 ].

Definition lane (state : list Z) (x y : nat) : Z :=
  nth (x mod 5 + 5 * (y mod 5)) state 0.

Definition coordinates : list (nat * nat) :=
  flat_map (fun y => map (fun x => (x, y)) (seq 0 5)) (seq 0 5).

Definition theta (a : list Z) : list Z :=
  let c x :=
    Z.lxor (lane a x 0)
      (Z.lxor (lane a x 1)
         (Z.lxor (lane a x 2) (Z.lxor (lane a x 3) (lane a x 4)))) in
  let d x := Z.lxor (c (x + 4)%nat) (rotl (c (x + 1)%nat) 1) in
  map (fun '(x, y) => Z.lxor (lane a x y) (d x)) coordinates.

(** rho and pi: [b[y, 2x + 3y] = rotl a[x, y] r[x, y]], read backwards:
    the lane that lands on [(x, y)] comes from [(x + 3y, x)]. *)
Definition rho_pi (a : list Z) : list Z :=
  map (fun '(x, y) =>
         let x' := ((x + 3 * y) mod 5)%nat in
         let y' := x in
         rotl (lane a x' y') (nth (x' + 5 * y') rotation_offsets 0))
      coordinates.

Definition chi (b : list Z) : list Z :=
  map (fun '(x, y) =>
         Z.lxor (lane b x y)
           (Z.land (Z.lxor (lane b (x + 1) y) lane_mask) (lane b (x + 2) y)))
      coordinates.

Definition iota (rc : Z) (a : list Z) : list Z :=
  match a with
  | [] => []
  | a0 :: rest => Z.lxor a0 rc :: rest
  end.

Definition keccak_round (a : list Z) (rc : Z) : list Z :=
  iota rc (chi (rho_pi (theta a))).

Definition keccak_f (a : list Z) : list Z :=
  fold_left keccak_round round_constants a.

(** The rate in bytes. *)
Definition rate : nat := 136.

(** Little-endian lanes of a block and bytes of a lane. *)
Fixpoint lane_of_bytes (bytes : list byte) : Z :=
  match bytes with
  | [] => 0
  | b :: bs => byte_val b + 256 * lane_of_bytes bs
  end.

Fixpoint lanes_of_block (n : nat) (block : list byte) : list Z :=
  match n with
  | O => []
  | S n' => lane_of_bytes (firstn 8 block) :: lanes_of_block n' (skipn 8 block)
  end.

Definition bytes_of_lane (l : Z) : list byte :=
  map (fun i => byte_of_Z (Z.shiftr l (8 * Z.of_nat i))) (seq 0 8).

Fixpoint xor_lanes (state block : list Z) : list Z :=
  match state, block with
  | s :: state', b :: block' => Z.lxor s b :: xor_lanes state' block'
  | _, _ => state
  end.

Definition absorb (state : list Z) (block : list byte) : list Z :=
  keccak_f (xor_lanes state (lanes_of_block 17 block)).

(** Padding: 0x01, zeros, and 0x80 on the last byte of the block. *)
Definition pad (message : list byte) : list byte :=
  let free := (rate - length message mod rate)%nat in
  if (free =? 1)%nat then message ++ [byte_of_Z 0x81]
  else message ++ [byte_of_Z 0x01] ++ repeat x00 (free - 2)
         ++ [byte_of_Z 0x80].

Fixpoint absorb_all (blocks : nat) (state : list Z) (input : list byte)
  : list Z :=
  match blocks with
  | O => state
  | S blocks' =>
      absorb_all blocks' (absorb state (firstn rate input)) (skipn rate input)
  end.

Definition digest (message : list byte) : list byte :=
  let padded := pad message in
  let state :=
    absorb_all (length padded / rate) (repeat 0 25) padded in
  flat_map bytes_of_lane (firstn 4 state).

(** [keccak256(bytes)] and [keccak256(string)] *)
Definition keccak256_bytes (message : list byte) : string :=
  hex_of_bytes (digest message).

Definition keccak256 (message : string) : string :=
  keccak256_bytes (utf8_encode message).

End Keccak.

(** ** JavaScript values *)

(** The values the codec receives and returns.  [VNumber] holds an
    integer-valued Number. *)
Inductive Value : Type :=
| VUndefined
| VNull
| VBool (b : bool)
| VNumber (n : Z)
| VBigInt (n : Z)
| VString (s : string).

Definition safe_integer (n : Z) : bool :=
  (- (2 ^ 53) <? n) && (n <? 2 ^ 53).

(** [ToBoolean] *)
Definition truthy (v : Value) : bool :=
  match v with
  | VUndefined | VNull => false
  | VBool b => b
  | VNumber n | VBigInt n => negb (n =? 0)
  | VString s => negb (String.eqb s "")
  end.

(** [BigInt(value)] *)
Definition BigInt (v : Value) : Completion Z :=
  match v with
  | VUndefined | VNull => Throw TypeError
  | VBool b => Normal (if b then 1 else 0)
  | VNumber n | VBigInt n => Normal n
  | VString s =>
      match Js.StringToBigInt s with
      | Some n => Normal n
      | None => Throw SyntaxError
      end
  end.

(** A method of [String.prototype] called on [value], as in
    [value.toLowerCase()] and [value.startsWith('0x')]: a TypeError unless
    [value] is a string. *)
Definition string_receiver (v : Value) : Completion string :=
  match v with
  | VString s => Normal s
  | _ => Throw TypeError
  end.

(** The string [TextEncoder.encode] receives for [value]: [undefined] takes
    the parameter's default, the empty string; other values are converted
    with [ToString].  A Number prints in decimal on the safe integers. *)
Definition encoder_input (v : Value) : Completion string :=
  match v with
  | VUndefined => Normal EmptyString
  | VNull => Normal "null"
  | VBool b => Normal (if b then "true" else "false")
  | VNumber n =>
      if safe_integer n then Normal (Js.toString n 10) else Unmodelled
  | VBigInt n => Normal (Js.toString n 10)
  | VString s => Normal s
  end.

(** [String(value)]; a Number prints in decimal on the safe integers. *)
Definition ToString (v : Value) : Completion string :=
  match v with
  | VUndefined => Normal "undefined"
  | VNull => Normal "null"
  | VBool b => Normal (if b then "true" else "false")
  | VNumber n =>
      if safe_integer n then Normal (Js.toString n 10) else Unmodelled
  | VBigInt n => Normal (Js.toString n 10)
  | VString s => Normal s
  end.

(** ** The hex codec of [utils.js] *)

Module Utils.
Import Js.

(** [bytesToHex] *)
Definition bytesToHex (bytes : list byte) : string :=
  "0x" +:+ hex_of_bytes bytes.

(** [hexToBytes]: the array has [cleanHex.length / 2] cells (a fractional
    length is truncated), and cell [i] is
    [parseInt(cleanHex.slice(2i, 2i+2), 16)]. *)
Definition hexToBytes (hex : string) : list byte :=
  let cleanHex := if startsWith hex "0x" then slice_from hex (Int 2) else hex in
  map (fun i : nat =>
         let i := Z.of_nat i in
         to_uint8 (parseInt (slice cleanHex (Int (i * 2)) (Int (i * 2 + 2))) 16))
      (seq 0 (Z.to_nat (len cleanHex / 2))).

(** [hexToNumber] and [numberToHex].  [parseInt] returns a Number: the
    integer read is the result on the safe integers; beyond them the code
    returns the nearest double, which the model leaves out. *)
Definition hexToNumber (hex : string) : Completion Num :=
  match parseInt hex 16 with
  | Int n => if safe_integer n then Normal (Int n) else Unmodelled
  | NaN => Normal NaN
  end.
Definition numberToHex (num : Z) : string := "0x" +:+ toString num 16.

(** [functionSelector(signature)] and [eventTopic(signature)] *)
Definition functionSelector (signature : string) : string :=
  let hash := Keccak.keccak256 signature in
  "0x" +:+ slice hash (Int 0) (Int 8).

Definition eventTopic (signature : string) : string :=
  "0x" +:+ Keccak.keccak256 signature.

(** [WEI_PER_NPY], 10^18 *)
Definition WEI_PER_NPY : Z := 1000000000000000000.

(** [toWei(npy)]: the text of [npy] is cut at its dots, the second piece
    is padded or cut to 18 digits, and the two are read as one BigInt. *)
Definition toWei (npy : Value) : Completion Z :=
  let* str := ToString npy in
  let parts := split "." str in
  let whole := hd EmptyString parts in
  let fraction := nth 1 parts EmptyString in
  let paddedFraction := slice (padEnd fraction 18 "0") (Int 0) (Int 18) in
  BigInt (VString (whole +:+ paddedFraction)).

(** [fromWei(wei)]; BigInt division truncates and the remainder takes the
    sign of the dividend. *)
Definition fromWei (wei : Value) : Completion string :=
  let* weiBigInt := BigInt wei in
  let whole := Z.quot weiBigInt WEI_PER_NPY in
  let fraction := Z.rem weiBigInt WEI_PER_NPY in
  if fraction =? 0 then Normal (toString whole 10)
  else
    let fractionStr := padStart (toString fraction 10) 18 "0" in
    let trimmed := strip_trailing_zeros fractionStr in
    Normal (toString whole 10 +:+ "." +:+ trimmed).

(** [hexToBigInt(hex)] *)
Definition hexToBigInt (hex : string) : Completion Z :=
  let cleanHex := if startsWith hex "0x" then hex else "0x" +:+ hex in
  BigInt (VString cleanHex).

(** [padHex(hex, bytes)] *)
Definition padHex (hex : string) (bytes : Z) : string :=
  let cleanHex := if startsWith hex "0x" then slice_from hex (Int 2) else hex in
  "0x" +:+ padStart cleanHex (bytes * 2) "0".

(** [keccak(data)] on a string of hex digits or on bytes. *)
Definition keccak (data : string + list byte) : string :=
  match data with
  | inl text =>
      let cleanData :=
        if startsWith text "0x" then slice_from text (Int 2) else text in
      "0x" +:+ Keccak.keccak256_bytes (hexToBytes cleanData)
  | inr bytes => "0x" +:+ Keccak.keccak256_bytes bytes
  end.

(** The character class [[0-9a-fA-F]] all along [s]. *)
Fixpoint hex_digits (s : string) : bool :=
  match s with
  | EmptyString => true
  | String c s' =>
      match digit_in 16 c with
      | Some _ => hex_digits s'
      | None => false
      end
  end.

(** [isAddress(address)]: the pattern [/^0x[0-9a-fA-F]{40}$/]. *)
Definition isAddress (address : string) : bool :=
  startsWith address "0x" && (len address =? 42)
  && hex_digits (drop 2 address).

(** The loop of [toChecksumAddress] from index [i] on, [n] rounds:
    [addr[i]] goes to upper case when [parseInt(hash[i], 16) >= 8]. *)
Fixpoint checksum_from (addr hash : string) (i n : nat) (result : string)
  : Completion string :=
  match n with
  | O => Normal result
  | S n' =>
      let digit :=
        match char_at hash i with
        | Some h => parseInt (String h EmptyString) 16
        | None => NaN
        end in
      let upper :=
        match digit with
        | Int d => 8 <=? d
        | NaN => false
        end in
      match char_at addr i with
      | None =>
          if upper then Throw TypeError
          else checksum_from addr hash (S i) n' (result +:+ "undefined")
      | Some c =>
          if upper then
            match upper_char c with
            | Some u => checksum_from addr hash (S i) n' (result +:+ u)
            | None => Unmodelled
            end
          else checksum_from addr hash (S i) n'
                 (result +:+ String c EmptyString)
      end
  end.

(** [toChecksumAddress(address)] *)
Definition toChecksumAddress (address : string) : Completion string :=
  if negb (isAddress address) then Throw (Error "Invalid address")
  else
    let addr := slice_from (toLowerCase address) (Int 2) in
    let hash := Keccak.keccak256 addr in
    checksum_from addr hash 0 40 "0x".

(** [isChecksumAddress(address)]; the [catch] turns an exception into
    [false]. *)
Definition isChecksumAddress (address : string) : Completion bool :=
  if negb (isAddress address) then Normal false
  else match toChecksumAddress address with
       | Normal checksummed => Normal (String.eqb address checksummed)
       | Throw _ => Normal false
       | Unmodelled => Unmodelled
       end.

(** [stringToHex(str)]: two hex digits for a code unit below 256. *)
Fixpoint stringToHex_from (str : string) : string :=
  match str with
  | EmptyString => EmptyString
  | String c str' =>
      padStart (toString (code c) 16) 2 "0" +:+ stringToHex_from str'
  end.

Definition stringToHex (str : string) : string :=
  "0x" +:+ stringToHex_from str.

(** The loop of [hexToString]: a cell that reads as 0 ends the string; a
    cell that is no number gives [String.fromCharCode(NaN)], the character
    0; a negative one gives a code unit above U+00FF. *)
Fixpoint hexToString_from (cleanHex : string) : Completion string :=
  let step (cell rest : string) (continue : Completion string) :=
    match parseInt cell 16 with
    | Int 0 => Normal EmptyString
    | Int code =>
        if code <? 0 then Unmodelled
        else let* str := continue in Normal (String (chr code) str)
    | NaN => let* str := continue in Normal (String (chr 0) str)
    end in
  match cleanHex with
  | EmptyString => Normal EmptyString
  | String a EmptyString => step (String a EmptyString) EmptyString
                                 (Normal EmptyString)
  | String a (String b rest) =>
      step (String a (String b EmptyString)) rest (hexToString_from rest)
  end.

(** [hexToString(hex)] *)
Definition hexToString (hex : string) : Completion string :=
  let cleanHex := if startsWith hex "0x" then slice_from hex (Int 2) else hex in
  hexToString_from cleanHex.

(** [shortenAddress(address, chars)] *)
Definition shortenAddress (address : string) (chars : Z) : string :=
  if String.eqb address "" then EmptyString
  else slice address (Int 0) (Int (chars + 2)) +:+ "..."
         +:+ slice_from address (Int (- chars)).

End Utils.

(** ** The types of [types.ts] *)

(** [ABIParameter]; an absent [indexed] is falsy. *)
Record ABIParameter : Type := {
  p_name : string;
  p_type : string;
  p_indexed : option bool
}.

Definition is_indexed (p : ABIParameter) : bool :=
  match p_indexed p with
  | Some b => b
  | None => false
  end.

Inductive ABIKind : Type :=
| KFunction
| KConstructor
| KEvent
| KFallback
| KReceive.

Definition ABIKind_eqb (a b : ABIKind) : bool :=
  match a, b with
  | KFunction, KFunction | KConstructor, KConstructor | KEvent, KEvent
  | KFallback, KFallback | KReceive, KReceive => true
  | _, _ => false
  end.

(** [ABIFunction]: an entry of the ABI. *)
Record ABIFunction : Type := {
  f_type : ABIKind;
  f_name : option string;
  f_inputs : option (list ABIParameter);
  f_outputs : option (list ABIParameter)
}.

Definition ABI : Type := list ABIFunction.

(** [Log], with the fields the decoder reads and the block position. *)
Record Log : Type := {
  log_address : string;
  log_topics : list string;
  log_data : string;
  log_blockNumber : Z;
  log_transactionHash : string;
  log_logIndex : Z
}.

(** [CallOptions] *)
Record CallOptions : Type := {
  opt_from : option string;
  opt_value : option Value;
  opt_gasLimit : option Value;
  opt_gasPrice : option Value
}.

(** [TransactionRequest] *)
Record TransactionRequest : Type := {
  tx_to : option string;
  tx_nonce : option Z;
  tx_value : option Value;
  tx_data : option string;
  tx_gasLimit : option Value;
  tx_gasPrice : option Value;
  tx_chainId : option Z
}.

(** [TransactionReceipt], with the fields a caller of [send] inspects. *)
Record TransactionReceipt : Type := {
  receipt_transactionHash : string;
  receipt_blockNumber : Z;
  receipt_status : Z
}.

(** [WalletData]: the three fields of a [Wallet]. *)
Record WalletData : Type := {
  wallet_address : string;
  wallet_privateKey : string;
  wallet_publicKey : string
}.

(** [x || fallback] on an optional value. *)
Definition or_else (x : option Value) (fallback : Value) : Value :=
  match x with
  | Some v => if truthy v then v else fallback
  | None => fallback
  end.

(** ** The RPC client

    The contract layer reaches the node only through its client.  A run
    carries the history of the requests issued so far; the client answers a
    request from the history and the request, or rejects it. *)

Inductive RpcRequest : Type :=
| EthCall (to data : string) (from value : option string)
| EstimateGas (to data : string) (from value : option string)
| GetLogs (address : string) (topics : list (option string))
          (fromBlock toBlock : option Value)
| SendTransaction (wallet : WalletData) (tx : TransactionRequest).

Definition History : Type := list RpcRequest.

Record Client : Type := {
  rpc_ethCall : History -> RpcRequest -> Completion string;
  rpc_estimateGas : History -> RpcRequest -> Completion string;
  rpc_getLogs : History -> RpcRequest -> Completion (list Log);
  client_sendTransaction : History -> RpcRequest -> Completion TransactionReceipt
}.

(** An asynchronous method: from the history to its completion and the
    history it leaves. *)
Definition Rpc (A : Type) : Type := History -> Completion A * History.

Definition ret {A : Type} (c : Completion A) : Rpc A := fun h => (c, h).

Definition bindR {A B : Type} (m : Rpc A) (k : A -> Rpc B) : Rpc B :=
  fun h =>
    match m h with
    | (Normal a, h') => k a h'
    | (Throw e, h') => (Throw e, h')
    | (Unmodelled, h') => (Unmodelled, h')
    end.

(** [await client.method(request)] *)
Definition request {A : Type}
  (answer : History -> RpcRequest -> Completion A) (r : RpcRequest) : Rpc A :=
  fun h => (answer h r, h ++ [r]).

Notation "'await' x ':=' m 'in' k" := (bindR m (fun x => k))
  (at level 10, x pattern, m at level 100, k at level 200).

(** ** The ABI parameter codec of [contract.ts] *)

Module Contract.
Import Js Utils.

(** [while (dataHex.length % 64 !== 0) dataHex += '0']: zeros are appended
    up to the next multiple of 64 characters. *)
Definition pad_to_word (dataHex : string) : string :=
  dataHex +:+ replicate (Z.to_nat ((64 - len dataHex mod 64) mod 64)) "0".

(** [(hex.length / 2).toString(16)]: half an odd length prints with the
    hexadecimal fraction [.8]. *)
Definition half_toString16 (n : Z) : string :=
  if n mod 2 =? 0 then toString (n / 2) 16
  else toString (n / 2) 16 +:+ ".8".

Definition unsupported (type : string) : JsError :=
  Error ("Unsupported type: " +:+ type).

(** [Contract.encodeParameter(type, value)] *)
Definition encodeParameter (type : string) (value : Value)
  : Completion string :=
  if String.eqb type "address" then
    let* v := string_receiver value in
    let addr := remove_first "0x" (toLowerCase v) in
    Normal ("0x" +:+ padStart addr 64 "0")
  else if startsWith type "uint" then
    let* num := BigInt value in
    Normal ("0x" +:+ padStart (toString num 16) 64 "0")
  else if startsWith type "int" then
    let* num := BigInt value in
    let num := if num <? 0 then Z.shiftl 1 256 + num else num in
    Normal ("0x" +:+ padStart (toString num 16) 64 "0")
  else if String.eqb type "bool" then
    Normal ("0x" +:+ padStart (if truthy value then "1" else "0") 64 "0")
  else if String.eqb type "bytes32" then
    let* v := string_receiver value in
    let hex := if startsWith v "0x" then slice_from v (Int 2) else v in
    Normal ("0x" +:+ padEnd hex 64 "0")
  else if String.eqb type "string" then
    let* text := encoder_input value in
    let bytes := utf8_encode text in
    let length := Z.of_nat (List.length bytes) in
    let lengthHex := padStart (toString length 16) 64 "0" in
    let dataHex := pad_to_word (slice_from (bytesToHex bytes) (Int 2)) in
    Normal ("0x" +:+ lengthHex +:+ dataHex)
  else if String.eqb type "bytes" then
    let* v := string_receiver value in
    let hex := if startsWith v "0x" then slice_from v (Int 2) else v in
    let lengthHex := padStart (half_toString16 (len hex)) 64 "0" in
    let dataHex := pad_to_word hex in
    Normal ("0x" +:+ lengthHex +:+ dataHex)
  else Throw (unsupported type).

(** [BigInt('0x' + chunk)] *)
Definition BigInt_of_word (chunk : string) : Completion Z :=
  BigInt (VString ("0x" +:+ chunk)).

(** The width an [int] type name declares:
    [parseInt(type.replace('int', '') || '256')]. *)
Definition int_bits (type : string) : Num :=
  let suffix := remove_first "int" type in
  parseInt (if String.eqb suffix "" then "256" else suffix) 0.

(** BigInt shifts by more than [shift_limit] bits are left out: engines
    bound the size of a BigInt and throw a RangeError beyond a limit of
    their own. *)
Definition shift_limit : Z := 65536.

(** [Contract.decodeParameter(type, data, offset)], returning the pair
    [[value, offset + 64]].  [offset] is an integer Number; the sum is exact
    for the offsets below [2^53 - 64], which reach past the end of every
    string. *)
Definition decodeParameter (type : string) (data : string) (offset : Z)
  : Completion (Value * Z) :=
  let chunk := slice data (Int offset) (Int (offset + 64)) in
  if String.eqb type "address" then
    Normal (VString ("0x" +:+ slice_from chunk (Int 24)), offset + 64)
  else if startsWith type "uint" then
    let* num := BigInt_of_word chunk in
    Normal (VBigInt num, offset + 64)
  else if startsWith type "int" then
    let* num := BigInt_of_word chunk in
    match int_bits type with
    | NaN => Throw RangeError
    | Int bits =>
        if shift_limit <? bits then Unmodelled
        else
          let max := Z.shiftl 1 (bits - 1) in
          let num := if max <=? num then num - Z.shiftl 1 bits else num in
          Normal (VBigInt num, offset + 64)
    end
  else if String.eqb type "bool" then
    Normal (VBool (String.eqb (slice_from chunk (Int (-1))) "1"), offset + 64)
  else if String.eqb type "bytes32" then
    Normal (VString ("0x" +:+ chunk), offset + 64)
  else if String.eqb type "string" then
    let dataOffset := num_mul (parseInt chunk 16) (Int 2) in
    let length :=
      parseInt (slice data dataOffset (num_add dataOffset (Int 64))) 16 in
    let strData :=
      slice data (num_add dataOffset (Int 64))
            (num_add (num_add dataOffset (Int 64)) (num_mul length (Int 2))) in
    let bytes := hexToBytes strData in
    match utf8_decode bytes with
    | Some text => Normal (VString text, offset + 64)
    | None => Unmodelled
    end
  else Throw (unsupported type).

(** [Contract.encodeArguments(inputs, args)]; [args[i]] is [undefined]
    past the end of [args]. *)
Fixpoint encodeArguments (inputs : list ABIParameter) (args : list Value)
  : Completion string :=
  match inputs with
  | [] => Normal EmptyString
  | input :: inputs' =>
      let arg := hd VUndefined args in
      let* word := encodeParameter (p_type input) arg in
      let* result := encodeArguments inputs' (tl args) in
      Normal (slice_from word (Int 2) +:+ result)
  end.

(** The loop of [decodeArguments] from [offset] on. *)
Fixpoint decode_from (outputs : list ABIParameter) (cleanData : string)
  (offset : Z) : Completion (list Value) :=
  match outputs with
  | [] => Normal []
  | output :: outputs' =>
      let* (value, newOffset) :=
        decodeParameter (p_type output) cleanData offset in
      let* results := decode_from outputs' cleanData newOffset in
      Normal (value :: results)
  end.

(** [Contract.decodeArguments(outputs, data)] *)
Definition decodeArguments (outputs : list ABIParameter) (data : string)
  : Completion (list Value) :=
  let cleanData := if startsWith data "0x" then slice_from data (Int 2) else data in
  decode_from outputs cleanData 0.

(** [array.join(',')] *)
Fixpoint join (sep : string) (parts : list string) : string :=
  match parts with
  | [] => EmptyString
  | [p] => p
  | p :: parts' => p +:+ sep +:+ join sep parts'
  end.

(** The signature both [functionSelector] and the [EventDecoder]
    constructor build:
    [`${name}(${(inputs || []).map(i => i.type).join(',')})`]; an absent
    name prints as [undefined]. *)
Definition signature (name : option string) (inputs : option (list ABIParameter))
  : string :=
  default "undefined" name +:+ "("
    +:+ join "," (map p_type (default [] inputs)) +:+ ")".

(** [functionSelector(abiItem)] *)
Definition functionSelector (abiItem : ABIFunction) : string :=
  let signature := signature (f_name abiItem) (f_inputs abiItem) in
  "0x" +:+ slice (Keccak.keccak256 signature) (Int 0) (Int 8).

(** [encodeCall(abiItem, args)] *)
Definition encodeCall (abiItem : ABIFunction) (args : list Value)
  : Completion string :=
  let selector := functionSelector abiItem in
  let* encodedArgs := encodeArguments (default [] (f_inputs abiItem)) args in
  Normal (selector +:+ encodedArgs).

(** What [decodeResult] returns: [null], one decoded value, or the array
    of the decoded values. *)
Inductive Result : Type :=
| RNull
| RValue (v : Value)
| RArray (vs : list Value).

(** [decodeResult(abiItem, data)] *)
Definition decodeResult (abiItem : ABIFunction) (data : string)
  : Completion Result :=
  match f_outputs abiItem with
  | None | Some [] => Normal RNull
  | Some outputs =>
      let* decoded := decodeArguments outputs data in
      match outputs with
      | [_] => Normal (RValue (hd VUndefined decoded))
      | _ => Normal (RArray decoded)
      end
  end.

(** *** Plain objects used as maps

    [args[name] = value] on an object literal: an own property is set,
    except that the key [__proto__] reaches the accessor of
    [Object.prototype], which ignores a primitive value. *)
Definition set_property (o : gmap string Value) (key : string) (v : Value)
  : gmap string Value :=
  if String.eqb key "__proto__" then o else <[key := v]> o.

(** The properties every plain object inherits from [Object.prototype]. *)
Definition object_prototype_names : list string :=
  [ "constructor"; "__proto__"; "hasOwnProperty"; "isPrototypeOf";
    "propertyIsEnumerable"; "toLocaleString"; "toString"; "valueOf";
    "__defineGetter__"; "__defineSetter__"; "__lookupGetter__";
    "__lookupSetter__" ].

Definition inherited (key : string) : bool :=
  existsb (String.eqb key) object_prototype_names.

(** [o[key]] compared with [undefined]: [Some v] when it is the value [v],
    [None] when it is [undefined].  An inherited property is a function or
    an object, which [Value] does not hold. *)
Definition get_property (o : gmap string Value) (key : string)
  : Completion (option Value) :=
  match o !! key with
  | Some VUndefined => Normal None
  | Some v => Normal (Some v)
  | None => if inherited key then Unmodelled else Normal None
  end.

(** *** [class EventDecoder] *)

Module EventDecoder.

Record t : Type := {
  name : option string;
  topic : string;
  inputs : list ABIParameter
}.

(** [new EventDecoder(abiItem)] *)
Definition new (abiItem : ABIFunction) : t :=
  let inputs := default [] (f_inputs abiItem) in
  let signature := signature (f_name abiItem) (Some inputs) in
  {| name := f_name abiItem;
     topic := "0x" +:+ Keccak.keccak256 signature;
     inputs := inputs |}.

(** [DecodedLog] *)
Record DecodedLog : Type := {
  event : option string;
  args : gmap string Value;
  log : Log
}.

(** The loop over the indexed inputs: an input takes the topic at
    [topicIndex] when there is one, and then [topicIndex] advances. *)
Fixpoint decode_indexed (indexedInputs : list ABIParameter)
  (topics : list string) (topicIndex : nat) (args : gmap string Value)
  : Completion (gmap string Value) :=
  match indexedInputs with
  | [] => Normal args
  | input :: rest =>
      match topics !! topicIndex with
      | Some topic =>
          let* (value, _) :=
            decodeParameter (p_type input) (slice_from topic (Int 2)) 0 in
          decode_indexed rest topics (S topicIndex)
            (set_property args (p_name input) value)
      | None => decode_indexed rest topics topicIndex args
      end
  end.

(** [nonIndexedInputs.forEach((input, i) => args[input.name] = decoded[i])] *)
Fixpoint assign_decoded (nonIndexedInputs : list ABIParameter)
  (decoded : list Value) (args : gmap string Value) : gmap string Value :=
  match nonIndexedInputs with
  | [] => args
  | input :: rest =>
      assign_decoded rest (tl decoded)
        (set_property args (p_name input) (hd VUndefined decoded))
  end.

(** [decode(log)] *)
Definition decode (this : t) (l : Log) : Completion DecodedLog :=
  let indexedInputs := List.filter is_indexed (inputs this) in
  let nonIndexedInputs :=
    List.filter (fun i => negb (is_indexed i)) (inputs this) in
  let* args := decode_indexed indexedInputs (log_topics l) 1 ∅ in
  let* decoded := decodeArguments nonIndexedInputs (log_data l) in
  let args := assign_decoded nonIndexedInputs decoded args in
  Normal {| event := name this; args := args; log := l |}.

End EventDecoder.

(** *** [class Contract] *)

Record Instance : Type := {
  address : string;
  abi : ABI;
  client : Client
}.

(** [abi.find(i => i.type === kind && i.name === name)] *)
Definition find_entry (kind : ABIKind) (abi : ABI) (name : string)
  : option ABIFunction :=
  List.find
    (fun i =>
       ABIKind_eqb (f_type i) kind
       && match f_name i with
          | Some n => String.eqb n name
          | None => false
          end)
    abi.

(** [this.events], as the constructor fills it: the decoder of every event
    entry with a non-empty name, a later entry replacing an earlier one of
    the same name. *)
Definition events (abi : ABI) : gmap string EventDecoder.t :=
  fold_left
    (fun m item =>
       match f_type item, f_name item with
       | KEvent, Some n =>
           if String.eqb n "" then m else <[n := EventDecoder.new item]> m
       | _, _ => m
       end)
    abi ∅.

(** [this.events[eventName]] and its use as a decoder.  An event entry
    named [__proto__] replaces the prototype of [this.events], and a name
    of [Object.prototype] reads an inherited function: both are left out.
    Otherwise a missing decoder makes [decoder.topic] a TypeError. *)
Definition events_lookup (abi : ABI) (eventName : string)
  : Completion EventDecoder.t :=
  if existsb
       (fun item =>
          ABIKind_eqb (f_type item) KEvent
          && match f_name item with
             | Some n => String.eqb n "__proto__"
             | None => false
             end)
       abi
  then Unmodelled
  else match events abi !! eventName with
       | Some decoder => Normal decoder
       | None => if inherited eventName then Unmodelled else Throw TypeError
       end.

(** [options.value ? numberToHex(BigInt(options.value)) : otherwise] *)
Definition value_hex (options : CallOptions) (otherwise : option string)
  : Completion (option string) :=
  match opt_value options with
  | Some v =>
      if truthy v
      then let* n := BigInt v in Normal (Some (numberToHex n))
      else Normal otherwise
  | None => Normal otherwise
  end.

Definition method_not_found (method : string) : JsError :=
  Error ("Method " +:+ method +:+ " not found in ABI").

Definition event_not_found (eventName : string) : JsError :=
  Error ("Event " +:+ eventName +:+ " not found in ABI").

(** [call(method, args, options)] *)
Definition call (this : Instance) (method : string) (args : list Value)
  (options : CallOptions) : Rpc Result :=
  match find_entry KFunction (abi this) method with
  | None => ret (Throw (method_not_found method))
  | Some abiItem =>
      await data := ret (encodeCall abiItem args) in
      await value := ret (value_hex options None) in
      await result :=
        request (rpc_ethCall (client this))
                (EthCall (address this) data (opt_from options) value) in
      ret (decodeResult abiItem result)
  end.

(** [send(wallet, method, args, options)] *)
Definition send (this : Instance) (wallet : WalletData) (method : string)
  (args : list Value) (options : CallOptions) : Rpc TransactionReceipt :=
  match find_entry KFunction (abi this) method with
  | None => ret (Throw (method_not_found method))
  | Some abiItem =>
      await data := ret (encodeCall abiItem args) in
      await value := ret (value_hex options (Some "0x0")) in
      let tx :=
        {| tx_to := Some (address this);
           tx_nonce := None;
           tx_value := option_map VString value;
           tx_data := Some data;
           tx_gasLimit :=
             Some (or_else (opt_gasLimit options) (VString "0x100000"));
           tx_gasPrice := opt_gasPrice options;
           tx_chainId := None |} in
      request (client_sendTransaction (client this))
              (SendTransaction wallet tx)
  end.

(** [estimateGas(method, args, options)]; the gas is a Number, exact on the
    safe integers. *)
Definition estimateGas (this : Instance) (method : string)
  (args : list Value) (options : CallOptions) : Rpc Num :=
  match find_entry KFunction (abi this) method with
  | None => ret (Throw (method_not_found method))
  | Some abiItem =>
      await data := ret (encodeCall abiItem args) in
      await value := ret (value_hex options None) in
      await gasHex :=
        request (rpc_estimateGas (client this))
                (EstimateGas (address this) data (opt_from options) value) in
      ret (hexToNumber gasHex)
  end.

(** The options of [getPastEvents]. *)
Record PastEventsOptions : Type := {
  fromBlock : option Value;
  toBlock : option Value;
  filter : option (gmap string Value)
}.

(** The topics [getPastEvents] pushes for the indexed inputs: the encoded
    filter value, or [null]. *)
Fixpoint filter_topics (indexedInputs : list ABIParameter)
  (filter : gmap string Value) : Completion (list (option string)) :=
  match indexedInputs with
  | [] => Normal []
  | input :: rest =>
      let* wanted := get_property filter (p_name input) in
      let* topic :=
        match wanted with
        | Some v => let* word := encodeParameter (p_type input) v in
                    Normal (Some word)
        | None => Normal None
        end in
      let* topics := filter_topics rest filter in
      Normal (topic :: topics)
  end.

(** [logs.map(log => decoder.decode(log))] *)
Fixpoint decode_logs (decoder : EventDecoder.t) (logs : list Log)
  : Completion (list EventDecoder.DecodedLog) :=
  match logs with
  | [] => Normal []
  | l :: logs' =>
      let* d := EventDecoder.decode decoder l in
      let* ds := decode_logs decoder logs' in
      Normal (d :: ds)
  end.

(** [getPastEvents(eventName, options)] *)
Definition getPastEvents (this : Instance) (eventName : string)
  (options : PastEventsOptions) : Rpc (list EventDecoder.DecodedLog) :=
  match find_entry KEvent (abi this) eventName with
  | None => ret (Throw (event_not_found eventName))
  | Some eventAbi =>
      await decoder := ret (events_lookup (abi this) eventName) in
      await filters :=
        ret match filter options, f_inputs eventAbi with
            | Some f, Some inputs =>
                filter_topics (List.filter is_indexed inputs) f
            | _, _ => Normal []
            end in
      let topics := Some (EventDecoder.topic decoder) :: filters in
      await logs :=
        request (rpc_getLogs (client this))
                (GetLogs (address this) topics
                         (fromBlock options) (toBlock options)) in
      ret (decode_logs decoder logs)
  end.

(** *** [class ContractMethod] *)

Module ContractMethod.

Record t : Type := {
  contract : Instance;
  abiItem : ABIFunction
}.

(** [new ContractMethod(contract, abiItem)] *)
Definition new (contract : Instance) (abiItem : ABIFunction) : t :=
  {| contract := contract; abiItem := abiItem |}.

(** The options of a call that passes none: [{}]. *)
Definition no_options : CallOptions :=
  {| opt_from := None; opt_value := None;
     opt_gasLimit := None; opt_gasPrice := None |}.

(** [encodeABI(...args)] *)
Definition encodeABI (this : t) (args : list Value) : Completion string :=
  encodeCall (abiItem this) args.

(** [call(...args)], [send(wallet, options, ...args)] and
    [estimateGas(...args)] pass the name of the entry on.  The constructor
    of [Contract] wraps named entries only; a wrapper of an entry without a
    name passes [undefined], which is left out. *)
Definition call (this : t) (args : list Value) : Rpc Result :=
  match f_name (abiItem this) with
  | Some name => Contract.call (contract this) name args no_options
  | None => ret Unmodelled
  end.

Definition send (this : t) (wallet : WalletData) (options : CallOptions)
  (args : list Value) : Rpc TransactionReceipt :=
  match f_name (abiItem this) with
  | Some name => Contract.send (contract this) wallet name args options
  | None => ret Unmodelled
  end.

Definition estimateGas (this : t) (args : list Value) : Rpc Num :=
  match f_name (abiItem this) with
  | Some name => Contract.estimateGas (contract this) name args no_options
  | None => ret Unmodelled
  end.

End ContractMethod.

(** The own properties of [this.methods], as the constructor fills it: the
    wrapper of every function entry with a non-empty name, a later entry
    replacing an earlier one of the same name.  An entry named [__proto__]
    sets the prototype of the object and adds no property. *)
Definition methods (this : Instance) : gmap string ContractMethod.t :=
  fold_left
    (fun m item =>
       match f_type item, f_name item with
       | KFunction, Some n =>
           if String.eqb n "" || String.eqb n "__proto__" then m
           else <[n := ContractMethod.new this item]> m
       | _, _ => m
       end)
    (abi this) ∅.

End Contract.

(** ** The token helper of [contract.ts] *)

Module ERC20.
Import Js Utils Contract.

Definition parameter (type name : string) : ABIParameter :=
  {| p_name := name; p_type := type; p_indexed := None |}.

Definition indexed_parameter (type name : string) (indexed : bool)
  : ABIParameter :=
  {| p_name := name; p_type := type; p_indexed := Some indexed |}.

Definition function (name : string) (inputs outputs : list ABIParameter)
  : ABIFunction :=
  {| f_type := KFunction; f_name := Some name;
     f_inputs := Some inputs; f_outputs := Some outputs |}.

Definition event (name : string) (inputs : list ABIParameter) : ABIFunction :=
  {| f_type := KEvent; f_name := Some name;
     f_inputs := Some inputs; f_outputs := None |}.

(** [ERC20_ABI] *)
Definition ERC20_ABI : ABI :=
  [ function "name" [] [parameter "string" ""];
    function "symbol" [] [parameter "string" ""];
    function "decimals" [] [parameter "uint8" ""];
    function "totalSupply" [] [parameter "uint256" ""];
    function "balanceOf" [parameter "address" "account"]
             [parameter "uint256" ""];
    function "allowance"
             [parameter "address" "owner"; parameter "address" "spender"]
             [parameter "uint256" ""];
    function "transfer"
             [parameter "address" "to"; parameter "uint256" "amount"]
             [parameter "bool" ""];
    function "approve"
             [parameter "address" "spender"; parameter "uint256" "amount"]
             [parameter "bool" ""];
    function "transferFrom"
             [parameter "address" "from"; parameter "address" "to";
              parameter "uint256" "amount"]
             [parameter "bool" ""];
    event "Transfer"
          [indexed_parameter "address" "from" true;
           indexed_parameter "address" "to" true;
           indexed_parameter "uint256" "value" false];
    event "Approval"
          [indexed_parameter "address" "owner" true;
           indexed_parameter "address" "spender" true;
           indexed_parameter "uint256" "value" false] ].

(** A token object: the address, the client and the cache [_decimals] the
    methods below read and write. *)
Record t : Type := {
  address : string;
  client : Client;
  _decimals : option Z
}.

(** [this.contract], as the constructor builds it. *)
Definition contract (this : t) : Instance :=
  {| Contract.address := address this;
     Contract.abi := ERC20_ABI;
     Contract.client := client this |}.

(** [new ERC20(address, client)] *)
Definition new (address : string) (client : Client) : t :=
  {| address := address; client := client; _decimals := None |}.

(** A method of the token: it may write the cache and talk to the node. *)
Definition Method (A : Type) : Type :=
  t -> History -> Completion A * t * History.

Definition lift {A : Type} (m : Rpc A) : Method A :=
  fun this h => let (c, h') := m h in (c, this, h').

Definition pure {A : Type} (c : Completion A) : Method A :=
  fun this h => (c, this, h).

Definition bindM {A B : Type} (m : Method A) (k : A -> Method B) : Method B :=
  fun this h =>
    match m this h with
    | (Normal a, this', h') => k a this' h'
    | (Throw e, this', h') => (Throw e, this', h')
    | (Unmodelled, this', h') => (Unmodelled, this', h')
    end.

(** The options a call without options gets: [{}]. *)
Definition default_options : CallOptions :=
  {| opt_from := None; opt_value := None;
     opt_gasLimit := None; opt_gasPrice := None |}.

(** [decimals()]: the cache answers unless it is empty or 0; [Number(dec)]
    of the decoded BigInt is exact on the safe integers. *)
Definition decimals : Method Z :=
  fun this h =>
    let cached :=
      match _decimals this with
      | Some d => negb (d =? 0)
      | None => false
      end in
    if cached then (Normal (default 0 (_decimals this)), this, h)
    else
      match call (contract this) "decimals" [] default_options h with
      | (Normal (RValue (VBigInt dec)), h') =>
          if safe_integer dec
          then (Normal dec,
                {| address := address this; client := client this;
                   _decimals := Some dec |}, h')
          else (Unmodelled, this, h')
      | (Normal _, h') => (Unmodelled, this, h')
      | (Throw e, h') => (Throw e, this, h')
      | (Unmodelled, h') => (Unmodelled, this, h')
      end.

(** [decimals || this._decimals || 18] *)
Definition decimals_or_default (this : t) (decimals : option Z) : Z :=
  let truthy_number (x : option Z) :=
    match x with
    | Some n => if n =? 0 then None else Some n
    | None => None
    end in
  match truthy_number decimals with
  | Some n => n
  | None => default 18 (truthy_number (_decimals this))
  end.

(** [parseAmount(amount, decimals)] *)
Definition parseAmount (this : t) (amount : Value) (decimals : option Z)
  : Completion Z :=
  match amount with
  | VBigInt units => Normal units
  | _ =>
      let dec := decimals_or_default this decimals in
      let* text := string_receiver amount in
      let parts := split "." text in
      let whole := hd EmptyString parts in
      let fraction := nth 1 parts EmptyString in
      let paddedFraction :=
        slice (padEnd fraction dec "0") (Int 0) (Int dec) in
      BigInt (VString (whole +:+ paddedFraction))
  end.

(** [formatAmount(amount, decimals)].  [10 ** dec] is a Number: a fraction
    below 0, which [BigInt] refuses, and the exact power of ten up to
    10^22. *)
Definition formatAmount (this : t) (amount : Z) (decimals : option Z)
  : Completion string :=
  let dec := decimals_or_default this decimals in
  if dec <? 0 then Throw RangeError
  else if 22 <? dec then Unmodelled
  else
    let divisor := 10 ^ dec in
    let whole := Z.quot amount divisor in
    let fraction := Z.rem amount divisor in
    if fraction =? 0 then Normal (toString whole 10)
    else
      let fractionStr := padStart (toString fraction 10) dec "0" in
      let trimmed := strip_trailing_zeros fractionStr in
      Normal (toString whole 10 +:+ "." +:+ trimmed).

(** [transfer(wallet, to, amount)] *)
Definition transfer (wallet : WalletData) (to : string) (amount : Value)
  : Method TransactionReceipt :=
  bindM decimals (fun decimals =>
  fun this =>
    bindM (pure (parseAmount this amount (Some decimals))) (fun amountWei =>
    lift (send (contract this) wallet "transfer"
               [VString to; VBigInt amountWei] default_options)) this).

(** [approve(wallet, spender, amount)]; the amount ['max'] stands for
    2^256 - 1. *)
Definition approve (wallet : WalletData) (spender : string) (amount : Value)
  : Method TransactionReceipt :=
  bindM decimals (fun decimals =>
  fun this =>
    let amountWei :=
      match amount with
      | VString "max" =>
          BigInt (VString
            "0xffffffffffffffffffffffffffffffffffffffffffffffffffffffffffffffff")
      | _ => parseAmount this amount (Some decimals)
      end in
    bindM (pure amountWei) (fun amountWei =>
    lift (send (contract this) wallet "approve"
               [VString spender; VBigInt amountWei] default_options)) this).

(** [transferFrom(wallet, from, to, amount)] *)
Definition transferFrom (wallet : WalletData) (from to : string)
  (amount : Value) : Method TransactionReceipt :=
  bindM decimals (fun decimals =>
  fun this =>
    bindM (pure (parseAmount this amount (Some decimals))) (fun amountWei =>
    lift (send (contract this) wallet "transferFrom"
               [VString from; VString to; VBigInt amountWei]
               default_options)) this).

End ERC20.

(** ** RLP

    [encode] of the rlp package, an external primitive of the SDK, on the
    inputs the wallet gives it: byte arrays, Numbers and arrays of those.
    A Number is encoded as its shortest big-endian bytes, zero as the empty
    byte string; what the package does with a negative Number differs
    between its versions and is left out. *)

Module Rlp.
Import Js Utils.

#[warnings="-register-all"]
Inductive Input : Type :=
| Bytes (bytes : list byte)
| Number (n : Z)
| List (items : list Input).

(** An integer in hex, padded to an even number of digits. *)
Definition numberToHex (n : Z) : string :=
  let hex := toString n 16 in
  if len hex mod 2 =? 0 then hex else "0" +:+ hex.

Definition toBytes (n : Z) : list byte :=
  if n =? 0 then [] else hexToBytes (numberToHex n).

(** The header of a payload of [length] bytes. *)
Definition encodeLength (length offset : Z) : list byte :=
  if length <? 56 then [byte_of_Z (length + offset)]
  else
    let hexLength := numberToHex length in
    let lLength := len hexLength / 2 in
    let firstByte := numberToHex (offset + 55 + lLength) in
    hexToBytes (firstByte +:+ hexLength).

Definition encode_bytes (bytes : list byte) : list byte :=
  match bytes with
  | [b] => if byte_val b <? 128 then [b]
           else encodeLength 1 128 ++ bytes
  | _ => encodeLength (Z.of_nat (length bytes)) 128 ++ bytes
  end.

Fixpoint encode (input : Input) : Completion (list byte) :=
  match input with
  | Bytes bytes => Normal (encode_bytes bytes)
  | Number n =>
      if n <? 0 then Unmodelled else Normal (encode_bytes (toBytes n))
  | List items =>
      let fix encode_items (items : list Input) : Completion (list byte) :=
        match items with
        | [] => Normal []
        | item :: items' =>
            let* head := encode item in
            let* tail := encode_items items' in
            Normal (head ++ tail)
        end in
      let* output := encode_items items in
      Normal (encodeLength (Z.of_nat (length output)) 192 ++ output)
  end.

End Rlp.

(** ** The wallet of [wallet.js] *)

Module Wallet.
Import Js Utils.

(** What [sign] accepts: a string or a byte array. *)
Inductive Message : Type :=
| Text (s : string)
| Raw (bytes : list byte).

(** The literal ["\x19Ethereum Signed Message:\n"]. *)
Definition message_prefix : string :=
  String (chr 25) ("Ethereum Signed Message:" +:+ String (chr 10) EmptyString).

(** [toRlpNumber(value)]; both arms of the test on the [0x] prefix are
    [BigInt(value)]. *)
Definition toRlpNumber (value : Value) : Completion (list byte) :=
  let* num :=
    match value with
    | VString s => if startsWith s "0x" then BigInt value else BigInt value
    | _ => BigInt value
    end in
  if num =? 0 then Normal []
  else
    let hex := toString num 16 in
    let paddedHex := if negb (len hex mod 2 =? 0) then "0" +:+ hex else hex in
    Normal (hexToBytes paddedHex).

(** [x || fallback] on an optional Number. *)
Definition number_or (x : option Z) (fallback : Z) : Z :=
  match x with
  | Some n => if n =? 0 then fallback else n
  | None => fallback
  end.

(** [x ? hexToBytes(x) : new Uint8Array(0)] on an optional string. *)
Definition bytes_or_empty (x : option string) : list byte :=
  match x with
  | Some s => if String.eqb s "" then [] else hexToBytes s
  | None => []
  end.

(** *** Typed data

    A member [{name, type}] of a struct type, and [types], a plain object
    from type names to their members: its own properties, in the order of
    [Object.keys]. *)
Record TypedField : Type := {
  field_name : string;
  field_type : string
}.

Definition TypedTypes : Type := list (string * list TypedField).

(** [types[typeName] || []].  A name [types] does not own but inherits
    from [Object.prototype] reads a function or an object, which is truthy
    and on which [map] and iteration are TypeErrors. *)
Definition type_fields (types : TypedTypes) (typeName : string)
  : Completion (list TypedField) :=
  match List.find (fun entry => String.eqb (fst entry) typeName) types with
  | Some (_, fields) => Normal fields
  | None => if Contract.inherited typeName then Throw TypeError else Normal []
  end.

(** [encodeType(typeName, types)] *)
Definition encodeType (typeName : string) (types : TypedTypes)
  : Completion string :=
  let* fields := type_fields types typeName in
  Normal (typeName +:+ "("
            +:+ Contract.join ","
                  (map (fun f => field_type f +:+ " " +:+ field_name f) fields)
            +:+ ")").

(** [keccak256(value)] of js-sha3 on a value: a string is hashed, another
    primitive is refused. *)
Definition keccak256_value (value : Value) : Completion string :=
  match value with
  | VString text => Normal (Keccak.keccak256 text)
  | _ => Throw (Error "input is invalid type")
  end.

(** The loop of [hashStruct] over the members. *)
Fixpoint hash_fields (typeFields : list TypedField) (data : gmap string Value)
  (encoded : string) : Completion string :=
  match typeFields with
  | [] => Normal encoded
  | field :: rest =>
      let* value := Contract.get_property data (field_name field) in
      match value with
      | None => hash_fields rest data encoded
      | Some value =>
          if String.eqb (field_type field) "string" then
            let* hash := keccak256_value value in
            hash_fields rest data (encoded +:+ hash)
          else if String.eqb (field_type field) "uint256"
                  || String.eqb (field_type field) "uint" then
            let* num := BigInt value in
            hash_fields rest data
              (encoded +:+ padStart (toString num 16) 64 "0")
          else if String.eqb (field_type field) "address" then
            let* text := string_receiver value in
            hash_fields rest data
              (encoded +:+ padStart (slice_from text (Int 2)) 64 "0")
          else hash_fields rest data encoded
      end
  end.

(** [hashStruct(typeName, data, types)] *)
Definition hashStruct (typeName : string) (data : gmap string Value)
  (types : TypedTypes) : Completion string :=
  let* typeString := encodeType typeName types in
  let typeHash := Keccak.keccak256 typeString in
  let* typeFields := type_fields types typeName in
  let* encoded := hash_fields typeFields data typeHash in
  Normal ("0x" +:+ Keccak.keccak256_bytes (hexToBytes encoded)).

(** The members [signTypedData] gives the domain. *)
Definition domain_types : TypedTypes :=
  [ ("EIP712Domain",
     [ {| field_name := "name"; field_type := "string" |};
       {| field_name := "version"; field_type := "string" |};
       {| field_name := "chainId"; field_type := "uint256" |};
       {| field_name := "verifyingContract"; field_type := "address" |} ]) ].

(** [Object.keys(types).find(t => t !== 'EIP712Domain') || ''] *)
Definition primary_type (types : TypedTypes) : string :=
  match
    List.find (fun entry => negb (String.eqb (fst entry) "EIP712Domain")) types
  with
  | Some (typeName, _) => typeName
  | None => EmptyString
  end.

Section Keys.

(** [secp256k1.publicKeyCreate(privateKey, false)], an external primitive:
    the 65 bytes of the uncompressed key, or an exception. *)
Variable publicKeyCreate : list byte -> Completion (list byte).

(** [derivePublicKey(privateKeyHex)] *)
Definition derivePublicKey (privateKeyHex : string) : Completion string :=
  let privateKeyBytes := hexToBytes privateKeyHex in
  let* publicKeyBytes := publicKeyCreate privateKeyBytes in
  Normal (bytesToHex (skipn 1 publicKeyBytes)).

(** [deriveAddress(publicKey)] *)
Definition deriveAddress (publicKey : string) : Completion string :=
  let pubKeyBytes :=
    hexToBytes (if startsWith publicKey "0x"
                then slice_from publicKey (Int 2) else publicKey) in
  let hash := Keccak.keccak256_bytes pubKeyBytes in
  let address := "0x" +:+ slice_from hash (Int (-40)) in
  toChecksumAddress address.

(** [new Wallet(privateKey)] with a key; without one, or with the empty
    string, the key is drawn at random. *)
Definition new (privateKey : option string) : Completion WalletData :=
  match privateKey with
  | None => Unmodelled
  | Some key =>
      if String.eqb key "" then Unmodelled
      else
        let cleanKey :=
          if startsWith key "0x" then slice_from key (Int 2) else key in
        let* publicKey := derivePublicKey cleanKey in
        let* address := deriveAddress publicKey in
        Normal {| wallet_address := address;
                  wallet_privateKey := "0x" +:+ cleanKey;
                  wallet_publicKey := publicKey |}
  end.

End Keys.

Section Signer.

(** [secp256k1.ecdsaSign(hash, privateKey)], an external primitive: the
    64-byte signature and the recovery id, or an exception. *)
Variable ecdsaSign : list byte -> list byte -> Completion (list byte * Z).

(** [sign(message)] *)
Definition sign (this : WalletData) (message : Message) : Completion string :=
  let messageBytes :=
    match message with
    | Text s => utf8_encode s
    | Raw bytes => bytes
    end in
  let prefix :=
    message_prefix +:+ toString (Z.of_nat (length messageBytes)) 10 in
  let prefixBytes := utf8_encode prefix in
  let fullMessage := prefixBytes ++ messageBytes in
  let hash := hexToBytes (Keccak.keccak256_bytes fullMessage) in
  let privateKeyBytes :=
    hexToBytes (slice_from (wallet_privateKey this) (Int 2)) in
  let* (signature, recid) := ecdsaSign hash privateKeyBytes in
  let r := bytesToHex (firstn 32 signature) in
  let s := bytesToHex (firstn 32 (skipn 32 signature)) in
  let v := padStart (toString (recid + 27) 16) 2 "0" in
  Normal (r +:+ slice_from s (Int 2) +:+ v).

(** [signTypedData(domain, types, value)]; the literal ['\x19\x01'] and
    the two hashes without their prefixes are hashed as one string. *)
Definition signTypedData (this : WalletData) (domain : gmap string Value)
  (types : TypedTypes) (value : gmap string Value) : Completion string :=
  let* domainHash := hashStruct "EIP712Domain" domain domain_types in
  let primaryType := primary_type types in
  let* messageHash := hashStruct primaryType value types in
  let hash :=
    hexToBytes
      (Keccak.keccak256
         (String (chr 25) (String (chr 1) EmptyString)
            +:+ slice_from domainHash (Int 2)
            +:+ slice_from messageHash (Int 2))) in
  let privateKeyBytes :=
    hexToBytes (slice_from (wallet_privateKey this) (Int 2)) in
  let* (signature, recid) := ecdsaSign hash privateKeyBytes in
  let r := bytesToHex (firstn 32 signature) in
  let s := bytesToHex (firstn 32 (skipn 32 signature)) in
  let v := padStart (toString (recid + 27) 16) 2 "0" in
  Normal (r +:+ slice_from s (Int 2) +:+ v).

(** [signTransaction(tx)].  [v] is computed on Numbers, exactly on the
    safe integers. *)
Definition signTransaction (this : WalletData) (tx : TransactionRequest)
  : Completion string :=
  let chainId := number_or (tx_chainId tx) 1337 in
  let* nonce := toRlpNumber (VNumber (number_or (tx_nonce tx) 0)) in
  let* gasPrice :=
    toRlpNumber (or_else (tx_gasPrice tx) (VString "0x3B9ACA00")) in
  let* gasLimit := toRlpNumber (or_else (tx_gasLimit tx) (VNumber 21000)) in
  let to := bytes_or_empty (tx_to tx) in
  let* value := toRlpNumber (or_else (tx_value tx) (VNumber 0)) in
  let data := bytes_or_empty (tx_data tx) in
  let rawTx :=
    Rlp.List [ Rlp.Bytes nonce; Rlp.Bytes gasPrice; Rlp.Bytes gasLimit;
               Rlp.Bytes to; Rlp.Bytes value; Rlp.Bytes data;
               Rlp.Number chainId; Rlp.Number 0; Rlp.Number 0 ] in
  let* encoded := Rlp.encode rawTx in
  let hash := hexToBytes (Keccak.keccak256_bytes encoded) in
  let privateKeyBytes :=
    hexToBytes (slice_from (wallet_privateKey this) (Int 2)) in
  let* (signature, recid) := ecdsaSign hash privateKeyBytes in
  let r := firstn 32 signature in
  let s := firstn 32 (skipn 32 signature) in
  let v := recid + chainId * 2 + 35 in
  if negb (safe_integer (chainId * 2) && safe_integer v) then Unmodelled
  else
    let signedTx :=
      Rlp.List [ Rlp.Bytes nonce; Rlp.Bytes gasPrice; Rlp.Bytes gasLimit;
                 Rlp.Bytes to; Rlp.Bytes value; Rlp.Bytes data;
                 Rlp.Number v; Rlp.Bytes r; Rlp.Bytes s ] in
    let* signedEncoded := Rlp.encode signedTx in
    Normal (bytesToHex signedEncoded).

End Signer.

End Wallet.

(** * Vocabulary of the statements *)

Section Vocabulary.
Import Js Utils Contract.

(** What [digits_of] builds in front of its accumulator: a numeral of [n]
    with no leading zero. *)
Record numeral_of (radix : Z) (n : Z) (d : string) : Prop := {
  numeral_value : forall acc,
    all_digits radix d acc = Some (acc * radix ^ len d + n);
  numeral_nonempty : 1 <= len d;
  numeral_upper : n < radix ^ len d;
  numeral_lower : 0 < n -> radix ^ (len d - 1) <= n
}.

(** Strings of digits of [radix], and strings without white space. *)
Fixpoint digits_only (radix : Z) (s : string) : bool :=
  match s with
  | EmptyString => true
  | String c s' =>
      match digit_in radix c with
      | Some _ => digits_only radix s'
      | None => false
      end
  end.

Fixpoint no_space (s : string) : bool :=
  match s with
  | EmptyString => true
  | String c s' => negb (is_space c) && no_space s'
  end.

(** The 64-digit word of a number below [2^256]. *)
Definition word_of (n : Z) : string := padStart (toString n 16) 64 "0".

(** Big-endian value of a byte string. *)
Definition be_value (bytes : list byte) : Z :=
  fold_left (fun acc b => acc * 256 + byte_val b) bytes 0.

(** The two-character cells [hexToBytes] reads. *)
Fixpoint hex_cells (s : string) : list byte :=
  match s with
  | String a (String b r) =>
      to_uint8 (parseInt (String a (String b EmptyString)) 16) :: hex_cells r
  | _ => []
  end.

(** The type strings [encodeParameter] has a branch for, and those
    [decodeParameter] has one for: the same but [bytes]. *)
Definition encodable (type : string) : bool :=
  String.eqb type "address" || startsWith type "uint" || startsWith type "int"
  || String.eqb type "bool" || String.eqb type "bytes32"
  || String.eqb type "string" || String.eqb type "bytes".

Definition decodable (type : string) : bool :=
  String.eqb type "address" || startsWith type "uint" || startsWith type "int"
  || String.eqb type "bool" || String.eqb type "bytes32"
  || String.eqb type "string".

(** [w] is the 32-byte big-endian word of [n]: 64 hex digits spelling [n],
    that is 32 bytes whose big-endian value is [n]. *)
Definition big_endian_word (w : string) (n : Z) : Prop :=
  len w = 64 /\ digits_value 16 w = Some n
  /\ length (hexToBytes w) = 32%nat /\ be_value (hexToBytes w) = n.

(** [Contract.decodeParameter(T, Contract.encodeParameter(T, v).slice(2), 0)] *)
Definition round_trip (type : string) (value : Value)
  : Completion (Value * Z) :=
  let* encoded := encodeParameter type value in
  decodeParameter type (slice_from encoded (Int 2)) 0.

(** Strings of the digits 0-9 and a-f. *)
Fixpoint lower_hex (s : string) : bool :=
  match s with
  | EmptyString => true
  | String c s' =>
      (((48 <=? code c) && (code c <=? 57))
       || ((97 <=? code c) && (code c <=? 102)))
      && lower_hex s'
  end.

(** The supported set in the specification's words: [address], [uintN],
    [intN], [bool], [bytes32], [string], [bytes], with [N] a decimal
    numeral (or absent). *)
Definition sized_type (name type : string) : bool :=
  startsWith type name && digits_only 10 (drop (String.length name) type).

Definition abi_supported (type : string) : bool :=
  String.eqb type "address" || sized_type "uint" type || sized_type "int" type
  || String.eqb type "bool" || String.eqb type "bytes32"
  || String.eqb type "string" || String.eqb type "bytes".

(** [data] without its [0x] prefix, as [decodeArguments] reads it. *)
Definition strip_0x (data : string) : string :=
  if startsWith data "0x" then slice_from data (Int 2) else data.

(** The values of [outputs] read in declaration order, the one at
    position [index] from the word that starts at character
    [64 * index] of [data]. *)
Fixpoint positional (outputs : list ABIParameter) (data : string) (index : Z)
  : Completion (list Value) :=
  match outputs with
  | [] => Normal []
  | output :: outputs' =>
      let* (value, _) := decodeParameter (p_type output) data (64 * index) in
      let* values := positional outputs' data (index + 1) in
      Normal (value :: values)
  end.

(** The indexed inputs read in order, the one at [position] from the
    topic at [position] when the log has one. *)
Fixpoint indexed_positional (indexedInputs : list ABIParameter)
  (topics : list string) (position : nat) (args : gmap string Value)
  : Completion (gmap string Value) :=
  match indexedInputs with
  | [] => Normal args
  | input :: rest =>
      match topics !! position with
      | Some topic =>
          let* (value, _) :=
            decodeParameter (p_type input) (slice_from topic (Int 2)) 0 in
          indexed_positional rest topics (S position)
            (set_property args (p_name input) value)
      | None => indexed_positional rest topics (S position) args
      end
  end.

(** The [Transfer] entry of the ERC20 ABI. *)
Definition transfer_event : ABIFunction :=
  {| f_type := KEvent;
     f_name := Some "Transfer";
     f_inputs :=
       Some [ {| p_name := "from"; p_type := "address"; p_indexed := Some true |};
              {| p_name := "to"; p_type := "address"; p_indexed := Some true |};
              {| p_name := "value"; p_type := "uint256";
                 p_indexed := Some false |} ];
     f_outputs := None |}.

(** The [transfer] entry of the ERC20 ABI. *)
Definition transfer_function : ABIFunction :=
  {| f_type := KFunction;
     f_name := Some "transfer";
     f_inputs :=
       Some [ {| p_name := "to"; p_type := "address"; p_indexed := None |};
              {| p_name := "amount"; p_type := "uint256"; p_indexed := None |} ];
     f_outputs :=
       Some [ {| p_name := ""; p_type := "bool"; p_indexed := None |} ] |}.

(** A transfer of 100 between two accounts. *)
Definition transfer_log : Log :=
  {| log_address := "0x00000000000000000000000000000000000000aa";
     log_topics :=
       [ Utils.eventTopic "Transfer(address,address,uint256)";
         "0x0000000000000000000000005aaeb6053f3e94c9b9a09f33669435e7ef1beaed";
         "0x000000000000000000000000fb6916095ca1df60bb79ce92ce3ea74c37c5d359" ];
     log_data :=
       "0x0000000000000000000000000000000000000000000000000000000000000064";
     log_blockNumber := 1;
     log_transactionHash := "0x00";
     log_logIndex := 0 |}.

(** A contract over the two ERC20 entries above, and a client whose node
    answers every request with empty data. *)
Definition silent_client : Client :=
  {| rpc_ethCall := fun _ _ => Normal "0x";
     rpc_estimateGas := fun _ _ => Normal "0x5208";
     rpc_getLogs := fun _ _ => Normal [];
     client_sendTransaction :=
       fun _ _ =>
         Normal {| receipt_transactionHash := "0x00";
                   receipt_blockNumber := 0;
                   receipt_status := 1 |} |}.

Definition erc20 (c : Client) : Instance :=
  {| address := "0x00000000000000000000000000000000000000aa";
     abi := [transfer_function; transfer_event];
     client := c |}.

Definition no_options : CallOptions :=
  {| opt_from := None; opt_value := None;
     opt_gasLimit := None; opt_gasPrice := None |}.

Definition no_filter : PastEventsOptions :=
  {| fromBlock := None; toBlock := None; filter := None |}.

(** A stand-in for the signing primitive that always returns the same
    signature and the recovery id 1, and a wallet for it to sign with. *)
Definition fixed_signer (hash key : list byte) : Completion (list byte * Z) :=
  Normal (repeat (byte_of_Z 0x11) 32 ++ repeat (byte_of_Z 0x22) 32, 1).

Definition test_wallet : WalletData :=
  {| wallet_address := "0x5aAeb6053F3E94C9b9A09f33669435E7Ef1BeAed";
     wallet_privateKey :=
       "0x0000000000000000000000000000000000000000000000000000000000000001";
     wallet_publicKey := "0x" |}.

(** The 65 bytes of a personal signature: [r], [s] and [recid + 27]. *)
Definition signature_bytes (signature : list byte) (recid : Z) : list byte :=
  firstn 32 signature ++ skipn 32 signature ++ [byte_of_Z (recid + 27)].










(** The values of the one-word types that the codec returns unchanged:
    lower-case addresses, unsigned integers below [2^256], signed integers
    of their declared width that are not negative or are of type [int256],
    booleans and prefixed strings of 64 hex digits. *)
Inductive static_value : string -> Value -> Prop :=
| static_address h :
    len h = 40 -> lower_hex h = true ->
    static_value "address" (VString ("0x" +:+ h))
| static_uint type v :
    startsWith type "uint" = true -> 0 <= v < 2 ^ 256 ->
    static_value type (VBigInt v)
| static_int type bits v :
    startsWith type "int" = true -> int_bits type = Int bits ->
    1 <= bits <= 256 ->
    0 <= v < 2 ^ (bits - 1) \/ (bits = 256 /\ - 2 ^ 255 <= v < 0) ->
    static_value type (VBigInt v)
| static_bool b : static_value "bool" (VBool b)
| static_bytes32 h :
    len h = 64 -> digits_only 16 h = true ->
    static_value "bytes32" (VString ("0x" +:+ h)).

(** The account a request is addressed to. *)
Definition request_target (r : RpcRequest) : option string :=
  match r with
  | EthCall to _ _ _ => Some to
  | EstimateGas to _ _ _ => Some to
  | GetLogs address _ _ _ => Some address
  | SendTransaction _ tx => tx_to tx
  end.

(** What a method that ran from the history [h] left behind: the history
    followed by at most one request, addressed to [target]; a result only
    after a request; and no request unless the calldata was [encoded]. *)
Definition at_most_one_request {A : Type} (target : string) (h : History)
  (run : Completion A * History) (encoded : bool) : Prop :=
  exists requests,
    snd run = h ++ requests
    /\ (length requests <= 1)%nat
    /\ Forall (fun r => request_target r = Some target) requests
    /\ (forall a, fst run = Normal a -> length requests = 1%nat)
    /\ (encoded = false -> requests = []).

(** Whether [method] is a function of the ABI whose arguments [args] can
    be encoded. *)
Definition encodes (abi : ABI) (method : string) (args : list Value) : bool :=
  match find_entry KFunction abi method with
  | Some abiItem =>
      match encodeCall abiItem args with
      | Normal _ => true
      | _ => false
      end
  | None => false
  end.

(** [tx] with the fields that hold a falsy value (0, [0n], the empty
    string, [false], [null], [undefined]) left out. *)
Definition without_falsy (tx : TransactionRequest) : TransactionRequest :=
  let value_field (x : option Value) :=
    match x with
    | Some v => if truthy v then Some v else None
    | None => None
    end in
  let number_field (x : option Z) :=
    match x with
    | Some n => if n =? 0 then None else Some n
    | None => None
    end in
  let string_field (x : option string) :=
    match x with
    | Some s => if String.eqb s "" then None else Some s
    | None => None
    end in
  {| tx_to := string_field (tx_to tx);
     tx_nonce := number_field (tx_nonce tx);
     tx_value := value_field (tx_value tx);
     tx_data := string_field (tx_data tx);
     tx_gasLimit := value_field (tx_gasLimit tx);
     tx_gasPrice := value_field (tx_gasPrice tx);
     tx_chainId := number_field (tx_chainId tx) |}.

(** A client whose node answers every call with the word of [d]. *)
Definition token_client (d : Z) : Client :=
  {| rpc_ethCall := fun _ _ => Normal ("0x" +:+ word_of d);
     rpc_estimateGas := rpc_estimateGas silent_client;
     rpc_getLogs := rpc_getLogs silent_client;
     client_sendTransaction := client_sendTransaction silent_client |}.

(** Whether [item] is a function entry of the name [name]. *)
Definition function_named (name : string) (item : ABIFunction) : bool :=
  ABIKind_eqb (f_type item) KFunction
  && match f_name item with
     | Some n => String.eqb n name
     | None => false
     end.

(** Two functions of one name, the second with one more parameter. *)
Definition overloaded_functions : ABI :=
  [ {| f_type := KFunction; f_name := Some "set";
       f_inputs :=
         Some [ {| p_name := "key"; p_type := "uint256"; p_indexed := None |} ];
       f_outputs := None |};
    {| f_type := KFunction; f_name := Some "set";
       f_inputs :=
         Some [ {| p_name := "key"; p_type := "uint256"; p_indexed := None |};
                {| p_name := "value"; p_type := "uint256"; p_indexed := None |} ];
       f_outputs := None |} ].

(** Whether [item] is an event entry of the name [name]. *)
Definition event_named (name : string) (item : ABIFunction) : bool :=
  ABIKind_eqb (f_type item) KEvent
  && match f_name item with
     | Some n => String.eqb n name
     | None => false
     end.

(** Two events of one name, the second with one more parameter. *)
Definition overloaded_events : ABI :=
  [ {| f_type := KEvent; f_name := Some "Set";
       f_inputs :=
         Some [ {| p_name := "key"; p_type := "uint256"; p_indexed := Some true |} ];
       f_outputs := None |};
    {| f_type := KEvent; f_name := Some "Set";
       f_inputs :=
         Some [ {| p_name := "key"; p_type := "uint256"; p_indexed := Some true |};
                {| p_name := "value"; p_type := "uint256";
                   p_indexed := Some false |} ];
       f_outputs := None |} ].

(** The member types [hashStruct] has a branch for. *)
Definition hashed_type (type : string) : bool :=
  String.eqb type "string" || String.eqb type "uint256"
  || String.eqb type "uint" || String.eqb type "address".

(** A struct with a member of a type [hashStruct] has no branch for. *)
Definition mail_types : Wallet.TypedTypes :=
  [ ("Mail",
     [ {| Wallet.field_name := "to"; Wallet.field_type := "address" |};
       {| Wallet.field_name := "urgent"; Wallet.field_type := "bool" |} ]) ].

(** The result of a call whose outputs hold [values]: nothing, the one
    value, or all of them. *)
Definition result_of (values : list Value) : Result :=
  match values with
  | [] => RNull
  | [value] => RValue value
  | _ => RArray values
  end.

(** The [balanceOf] entry of the ERC20 ABI, and a contract that has it. *)
Definition balanceOf_function : ABIFunction :=
  {| f_type := KFunction;
     f_name := Some "balanceOf";
     f_inputs :=
       Some [ {| p_name := "account"; p_type := "address"; p_indexed := None |} ];
     f_outputs :=
       Some [ {| p_name := ""; p_type := "uint256"; p_indexed := None |} ] |}.

Definition token_contract (c : Client) : Instance :=
  {| address := "0x00000000000000000000000000000000000000aa";
     abi := [balanceOf_function];
     client := c |}.

(** A stand-in for the key derivation primitive that always returns the
    same uncompressed public key. *)
Definition fixed_public_key (privateKey : list byte) : Completion (list byte) :=
  Normal (byte_of_Z 4 :: repeat (byte_of_Z 0x33) 64).

(** [s] up to its first character of code 0. *)
Fixpoint until_nul (s : string) : string :=
  match s with
  | EmptyString => EmptyString
  | String c s' => if code c =? 0 then EmptyString else String c (until_nul s')
  end.

End Vocabulary.

(** * Properties *)

Example parseInt_hex : Js.parseInt "ff" 16 = Js.Int 255.
Proof. reflexivity. Qed.

Example parseInt_type_suffix : Js.parseInt "256" 0 = Js.Int 256.
Proof. reflexivity. Qed.

Example toString_hex : Js.toString 1000000000 16 = "3b9aca00".
Proof. reflexivity. Qed.

Example slice_negative : Js.slice_from "abcdef" (Js.Int (-1)) = "f".
Proof. reflexivity. Qed.

Example encode_uint256_zero :
  Contract.encodeParameter "uint256" (VBigInt 0)
  = Normal ("0x" +:+ Js.replicate 64 "0").
Proof. reflexivity. Qed.

Example encode_int8_minus_one :
  Contract.encodeParameter "int8" (VBigInt (-1))
  = Normal ("0x" +:+ Js.replicate 64 "f").
Proof. vm_compute. reflexivity. Qed.

Example encode_string_abc :
  Contract.encodeParameter "string" (VString "abc")
  = Normal ("0x" +:+ Js.replicate 63 "0" +:+ "3" +:+ "616263"
              +:+ Js.replicate 58 "0").
Proof. vm_compute. reflexivity. Qed.

(** ** Strings *)

Section StringFacts.
Import Js.

Lemma len_nonneg s : 0 <= len s.
Proof. unfold len. lia. Qed.

Lemma len_String c s : len (String c s) = 1 + len s.
Proof. unfold len. cbn [String.length]. lia. Qed.

Lemma append_nil_l s : EmptyString +:+ s = s.
Proof. reflexivity. Qed.

Lemma append_cons c a b : String c a +:+ b = String c (a +:+ b).
Proof. reflexivity. Qed.

Lemma len_append a b : len (a +:+ b) = len a + len b.
Proof.
  induction a as [|c a IH].
  - rewrite append_nil_l. unfold len. cbn. lia.
  - rewrite append_cons, !len_String, IH. lia.
Qed.

Lemma length_replicate n c : String.length (replicate n c) = n.
Proof. induction n as [|n IH]; cbn; congruence. Qed.

Lemma len_replicate n c : len (replicate n c) = Z.of_nat n.
Proof. unfold len. now rewrite length_replicate. Qed.

Lemma append_empty_r s : s +:+ EmptyString = s.
Proof.
  induction s as [|c s IH]; [reflexivity |].
  rewrite append_cons. congruence.
Qed.

Lemma append_assoc a b c : (a +:+ b) +:+ c = a +:+ (b +:+ c).
Proof.
  induction a as [|x a IH]; [reflexivity |].
  rewrite !append_cons. congruence.
Qed.

Lemma take_all n s : (String.length s <= n)%nat -> take n s = s.
Proof.
  revert n. induction s as [|c s IH]; intros [|n] H; cbn in *; try lia;
    try reflexivity.
  f_equal. apply IH. lia.
Qed.

Lemma drop_zero s : drop 0 s = s.
Proof. now destruct s. Qed.

Lemma drop_append a b : drop (String.length a) (a +:+ b) = b.
Proof.
  induction a as [|c a IH]; [apply drop_zero |].
  rewrite append_cons. exact IH.
Qed.

Lemma take_append a b : take (String.length a) (a +:+ b) = a.
Proof.
  induction a as [|c a IH]; [now destruct b |].
  rewrite append_cons. cbn. congruence.
Qed.

Lemma prefix_cons c p d s :
  String.prefix (String c p) (String d s)
  = if ascii_dec c d then String.prefix p s else false.
Proof. reflexivity. Qed.

Lemma prefix_append p s : String.prefix p (p +:+ s) = true.
Proof.
  induction p as [|c p IH]; [now destruct s |].
  rewrite append_cons. cbn.
  destruct (ascii_dec c c); [exact IH | congruence].
Qed.

Lemma prefix_split p s :
  String.prefix p s = true -> s = p +:+ drop (String.length p) s.
Proof.
  revert s. induction p as [|c p IH]; intros s H.
  - now rewrite append_nil_l, drop_zero.
  - destruct s as [|d s]; cbn in H; [discriminate |].
    destruct (ascii_dec c d) as [->|]; [| discriminate].
    rewrite append_cons. cbn. f_equal. now apply IH.
Qed.

(** The whole of a string is the slice from 0 to its length or beyond. *)
Lemma slice_whole s n : len s <= n -> slice s (Int 0) (Int n) = s.
Proof.
  intros H. unfold slice, rel_index.
  change (0 <? 0) with false. cbn iota.
  pose proof (len_nonneg s).
  destruct (Z.ltb_spec n 0); [lia |].
  rewrite (Z.min_l 0) by lia.
  rewrite (Z.min_r n) by lia. cbn [Z.to_nat]. rewrite drop_zero.
  apply take_all. unfold len. lia.
Qed.

(** Dropping a prefix with [slice(k)]. *)
Lemma slice_from_append a b :
  slice_from (a +:+ b) (Int (len a)) = b.
Proof.
  unfold slice_from, slice, rel_index.
  pose proof (len_nonneg a). pose proof (len_nonneg b).
  rewrite len_append.
  destruct (Z.ltb_spec (len a) 0); [lia |].
  destruct (Z.ltb_spec (len a + len b) 0); [lia |].
  rewrite !Z.min_l by lia.
  replace (Z.to_nat (len a)) with (String.length a)
    by (unfold len; now rewrite Nat2Z.id).
  rewrite drop_append.
  apply take_all. unfold len. lia.
Qed.

Lemma slice_from_0x s : slice_from ("0x" +:+ s) (Int 2) = s.
Proof. exact (slice_from_append "0x" s). Qed.

End StringFacts.

(** ** Numerals *)

Section NumeralFacts.
Import Js.

Lemma below_36 (P : Z -> Prop) :
  Forall (fun n => P (Z.of_nat n)) (seq 0 36) ->
  forall d, 0 <= d < 36 -> P d.
Proof.
  intros HP d Hd. rewrite List.Forall_forall in HP.
  rewrite <- (Z2Nat.id d) by lia. apply HP, in_seq. lia.
Qed.

Lemma digit_value_digit_char d :
  0 <= d < 36 -> digit_value (digit_char d) = Some d.
Proof. revert d. apply below_36. repeat constructor. Qed.

Lemma digit_in_digit_char radix d :
  0 <= d < radix -> radix <= 36 -> digit_in radix (digit_char d) = Some d.
Proof.
  intros Hd Hr. unfold digit_in.
  rewrite digit_value_digit_char by lia.
  destruct (Z.ltb_spec d radix); [reflexivity | lia].
Qed.

Lemma all_digits_append radix a b acc :
  all_digits radix (a +:+ b) acc
  = match all_digits radix a acc with
    | Some v => all_digits radix b v
    | None => None
    end.
Proof.
  revert acc. induction a as [|c a IH]; intros acc; [reflexivity |].
  rewrite append_cons. cbn [all_digits].
  destruct (digit_in radix c); [apply IH | reflexivity].
Qed.

Lemma digits_of_spec radix fuel n acc :
  2 <= radix <= 36 -> 0 <= n < radix ^ Z.of_nat fuel -> fuel <> O ->
  exists d, digits_of radix fuel n acc = d +:+ acc /\ numeral_of radix n d.
Proof.
  intros Hr. revert n acc.
  induction fuel as [|fuel IH]; intros n acc Hn Hfuel; [congruence |].
  - cbn [digits_of].
    assert (Hmod : 0 <= n mod radix < radix) by (apply Z.mod_pos_bound; lia).
    assert (Hdiv : n = radix * (n / radix) + n mod radix)
      by (apply Z.div_mod; lia).
    assert (Hq : 0 <= n / radix) by (apply Z.div_pos; lia).
    destruct (Z.eqb_spec (n / radix) 0) as [E|E].
    + exists (String (digit_char (n mod radix)) EmptyString).
      split; [reflexivity |].
      assert (Hsmall : n = n mod radix) by lia.
      split; rewrite ?len_String; change (len EmptyString) with 0;
        cbn [Z.add Z.sub Z.pos_sub].
      * intros a. cbn [all_digits].
        rewrite digit_in_digit_char by lia.
        rewrite Z.pow_1_r. f_equal. lia.
      * lia.
      * rewrite Z.pow_1_r. lia.
      * intros. change (radix ^ (1 - 1)) with 1. lia.
    + destruct (IH (n / radix)
                   (String (digit_char (n mod radix)) acc)) as (d & Hd & Hnum).
      { split; [lia |].
        rewrite Nat2Z.inj_succ, Z.pow_succ_r in Hn by lia.
        apply Z.div_lt_upper_bound; lia. }
      { intros ->. rewrite Nat2Z.inj_succ, Z.pow_succ_r in Hn by lia.
        change (radix ^ Z.of_nat 0) with 1 in Hn.
        assert (n / radix < 1) by (apply Z.div_lt_upper_bound; lia). lia. }
      destruct Hnum as [Hv Hne Hup Hlo].
      exists (d +:+ String (digit_char (n mod radix)) EmptyString).
      split.
      { rewrite Hd, append_assoc. reflexivity. }
      assert (Hlen : len (d +:+ String (digit_char (n mod radix)) EmptyString)
                     = len d + 1).
      { rewrite len_append, len_String. change (len EmptyString) with 0. lia. }
      split; rewrite Hlen.
      * intros a. rewrite all_digits_append, Hv. cbn [all_digits].
        rewrite digit_in_digit_char by lia.
        rewrite Z.pow_add_r, Z.pow_1_r by lia. f_equal. lia.
      * lia.
      * rewrite Z.pow_add_r, Z.pow_1_r by lia. nia.
      * intros _. replace (len d + 1 - 1) with (len d - 1 + 1) by lia.
        rewrite Z.pow_add_r, Z.pow_1_r by lia.
        assert (0 < n / radix) by lia. specialize (Hlo H). nia.
Qed.

(** [n.toString(radix)] of a non-negative [n] is its numeral. *)
Lemma toString_numeral radix n :
  2 <= radix <= 36 -> 0 <= n -> numeral_of radix n (toString n radix).
Proof.
  intros Hr Hn. unfold toString.
  destruct (Z.ltb_spec n 0); [lia |].
  rewrite Z.abs_eq by lia.
  destruct (digits_of_spec radix (S (Z.to_nat (Z.log2 n))) n EmptyString Hr)
    as (d & Hd & Hnum); [| congruence |].
  - split; [lia |].
    rewrite Nat2Z.inj_succ, Z2Nat.id by apply Z.log2_nonneg.
    destruct (Z.eq_dec n 0) as [->|].
    + apply Z.pow_pos_nonneg; [lia | cbn; lia].
    + apply Z.lt_le_trans with (2 ^ Z.succ (Z.log2 n)).
      * apply Z.log2_spec. lia.
      * apply Z.pow_le_mono_l. pose proof (Z.log2_nonneg n). lia.
  - rewrite Hd, append_empty_r. exact Hnum.
Qed.

Lemma toString_len radix n k :
  2 <= radix <= 36 -> 0 <= n < radix ^ k -> 1 <= k ->
  len (toString n radix) <= k.
Proof.
  intros Hr Hn Hk.
  destruct (toString_numeral radix n Hr (proj1 Hn)) as [_ Hne _ Hlo].
  destruct (Z.eq_dec n 0) as [->|Hnz].
  - change (toString 0 radix) with (String (digit_char (0 mod radix)) EmptyString).
    rewrite len_String. change (len EmptyString) with 0. lia.
  - apply Z.lt_succ_r, Z.lt_sub_lt_add_r.
    apply (Z.pow_lt_mono_r_iff radix); [lia | lia |].
    specialize (Hlo ltac:(lia)). lia.
Qed.

End NumeralFacts.

(** ** Hex words *)

Section WordFacts.
Import Js.

Lemma all_digits_digits_only radix s acc v :
  all_digits radix s acc = Some v -> digits_only radix s = true.
Proof.
  revert acc. induction s as [|c s IH]; intros acc H; [reflexivity |].
  cbn in *. destruct (digit_in radix c); [eauto | discriminate].
Qed.

Lemma digit_value_no_space c d : digit_value c = Some d -> is_space c = false.
Proof.
  unfold digit_value, is_space. intros H.
  destruct (Z.leb_spec 48 (code c)), (Z.leb_spec (code c) 57),
    (Z.leb_spec 97 (code c)), (Z.leb_spec (code c) 122),
    (Z.leb_spec 65 (code c)), (Z.leb_spec (code c) 90);
    cbn in H; try discriminate;
    destruct (Z.leb_spec 9 (code c)), (Z.leb_spec (code c) 13),
      (Z.eqb_spec (code c) 32), (Z.eqb_spec (code c) 160);
    cbn; try reflexivity; lia.
Qed.

Lemma digits_only_no_space radix s :
  digits_only radix s = true -> no_space s = true.
Proof.
  induction s as [|c s IH]; intros H; [reflexivity |].
  cbn in *. unfold digit_in in H.
  destruct (digit_value c) as [d|] eqn:E; [| discriminate].
  rewrite (digit_value_no_space c d E). cbn.
  destruct (d <? radix); [auto | discriminate].
Qed.

Lemma trimEnd_no_space s : no_space s = true -> trimEnd s = s.
Proof.
  induction s as [|c s IH]; intros H; [reflexivity |].
  cbn in H. apply andb_prop in H as [Hc Hs].
  cbn [trimEnd]. rewrite (IH Hs).
  destruct s; [| reflexivity].
  apply negb_true_iff in Hc. now rewrite Hc.
Qed.

Lemma trim_no_space s : no_space s = true -> trim s = s.
Proof.
  intros H. unfold trim.
  assert (trimStart s = s) as ->.
  { destruct s as [|c s]; [reflexivity |].
    cbn in *. apply andb_prop in H as [Hc _].
    apply negb_true_iff in Hc. now rewrite Hc. }
  now apply trimEnd_no_space.
Qed.

(** [BigInt('0x' + w)] reads a non-empty string of hex digits as the number
    they spell. *)
Lemma BigInt_of_word_value w v :
  w <> EmptyString -> all_digits 16 w 0 = Some v ->
  Contract.BigInt_of_word w = Normal v.
Proof.
  intros Hne Hv. unfold Contract.BigInt_of_word, BigInt, StringToBigInt.
  rewrite trim_no_space.
  - change ("0x" +:+ w) with (String "0" (String "x" w)).
    cbn. unfold digits_value. destruct w; [congruence |]. now rewrite Hv.
  - change ("0x" +:+ w) with (String "0" (String "x" w)).
    cbn. eapply digits_only_no_space, all_digits_digits_only, Hv.
Qed.

Lemma all_digits_zeros radix k s :
  0 < radix ->
  all_digits radix (replicate k "0" +:+ s) 0 = all_digits radix s 0.
Proof.
  intros Hr. induction k as [|k IH]; [reflexivity |].
  cbn [replicate]. rewrite append_cons. cbn [all_digits].
  assert (digit_in radix "0" = Some 0) as ->.
  { unfold digit_in. change (digit_value "0") with (Some 0). cbv beta iota.
    destruct (Z.ltb_spec 0 radix); [reflexivity | lia]. }
  exact IH.
Qed.

Lemma len_padStart s n c : len (padStart s n c) = Z.max n (len s).
Proof.
  unfold padStart. rewrite len_append, len_replicate.
  pose proof (len_nonneg s). lia.
Qed.

Lemma word_of_len n : 0 <= n < 2 ^ 256 -> len (word_of n) = 64.
Proof.
  intros Hn. unfold word_of. rewrite len_padStart.
  assert (len (toString n 16) <= 64).
  { apply toString_len; [lia | | lia]. change (16 ^ 64) with (2 ^ 256). lia. }
  lia.
Qed.

Lemma word_of_value n : 0 <= n -> all_digits 16 (word_of n) 0 = Some n.
Proof.
  intros Hn. unfold word_of, padStart.
  rewrite all_digits_zeros by lia.
  destruct (toString_numeral 16 n ltac:(lia) Hn) as [Hv _ _ _].
  rewrite Hv. f_equal.
Qed.

Lemma word_of_nonempty n : 0 <= n < 2 ^ 256 -> word_of n <> EmptyString.
Proof.
  intros Hn E. pose proof (word_of_len n Hn) as H. now rewrite E in H.
Qed.

(** Reading a word back: [BigInt('0x' + data.slice(0, 64))]. *)
Lemma BigInt_of_word_of n :
  0 <= n < 2 ^ 256 ->
  Contract.BigInt_of_word (slice (word_of n) (Int 0) (Int (0 + 64))) = Normal n.
Proof.
  intros Hn. rewrite slice_whole by (rewrite word_of_len; lia).
  apply BigInt_of_word_value; [now apply word_of_nonempty |].
  apply word_of_value. lia.
Qed.

End WordFacts.

(** ** Bytes of a hex string *)

Section HexBytes.
Import Js Utils.

Lemma byte_val_bound b : 0 <= byte_val b < 256.
Proof.
  unfold byte_val. pose proof (Byte.to_N_bounded b). lia.
Qed.

Lemma byte_val_of_Z z : byte_val (byte_of_Z z) = z mod 256.
Proof.
  unfold byte_val, byte_of_Z.
  assert (Hm : 0 <= z mod 256 < 256) by (apply Z.mod_pos_bound; lia).
  destruct (Byte.of_N (Z.to_N (z mod 256))) as [b|] eqn:E.
  - cbn. apply Byte.to_of_N in E. rewrite E. lia.
  - apply Byte.of_N_None_iff in E. lia.
Qed.

Lemma string_ind2 (P : string -> Prop) :
  P EmptyString -> (forall c, P (String c EmptyString)) ->
  (forall a b r, P r -> P (String a (String b r))) ->
  forall s, P s.
Proof.
  intros H0 H1 H2.
  fix IH 1. intros [|a [|b r]]; [exact H0 | apply H1 | apply H2, IH].
Qed.

Lemma slice_shift2 a b r i j :
  0 <= i -> 0 <= j ->
  slice (String a (String b r)) (Int (i + 2)) (Int (j + 2))
  = slice r (Int i) (Int j).
Proof.
  intros Hi Hj. unfold slice, rel_index. rewrite !len_String.
  pose proof (len_nonneg r).
  destruct (Z.ltb_spec (i + 2) 0), (Z.ltb_spec (j + 2) 0),
    (Z.ltb_spec i 0), (Z.ltb_spec j 0); try lia.
  replace (Z.min (i + 2) (1 + (1 + len r))) with (Z.min i (len r) + 2) by lia.
  replace (Z.min (j + 2) (1 + (1 + len r))) with (Z.min j (len r) + 2) by lia.
  replace (Z.min j (len r) + 2 - (Z.min i (len r) + 2))
    with (Z.min j (len r) - Z.min i (len r)) by lia.
  replace (Z.to_nat (Z.min i (len r) + 2))
    with (S (S (Z.to_nat (Z.min i (len r))))) by lia.
  reflexivity.
Qed.

Lemma slice_first2 a b r :
  slice (String a (String b r)) (Int 0) (Int 2) = String a (String b EmptyString).
Proof.
  unfold slice, rel_index. rewrite !len_String. pose proof (len_nonneg r).
  change (0 <? 0) with false. change (2 <? 0) with false. cbv iota.
  rewrite (Z.min_l 0), (Z.min_l 2) by lia. reflexivity.
Qed.

Lemma cells_of_slices s :
  map (fun i : nat =>
         let i := Z.of_nat i in
         to_uint8 (parseInt (slice s (Int (i * 2)) (Int (i * 2 + 2))) 16))
      (seq 0 (Z.to_nat (len s / 2)))
  = hex_cells s.
Proof.
  induction s as [| c | a b r IH] using string_ind2; [reflexivity .. |].
  rewrite !len_String. pose proof (len_nonneg r).
  replace (1 + (1 + len r)) with (1 * 2 + len r) by lia.
  rewrite Z.div_add_l by lia.
  replace (Z.to_nat (1 + len r / 2)) with (S (Z.to_nat (len r / 2)))
    by (pose proof (Z.div_pos (len r) 2); lia).
  cbn [seq map hex_cells]. f_equal.
  - cbn [Z.of_nat Z.mul Z.add]. now rewrite slice_first2.
  - rewrite <- seq_shift, map_map, <- IH. apply map_ext. intros i.
    cbv zeta. rewrite Nat2Z.inj_succ.
    replace (Z.succ (Z.of_nat i) * 2) with (Z.of_nat i * 2 + 2) by lia.
    replace (Z.of_nat i * 2 + 2 + 2) with (Z.of_nat i * 2 + 2 + 2) by lia.
    now rewrite !slice_shift2 by lia.
Qed.

Lemma digit_in_16_bound c d : digit_in 16 c = Some d -> 0 <= d < 16.
Proof.
  unfold digit_in, digit_value. intros H.
  destruct (Z.leb_spec 48 (code c)), (Z.leb_spec (code c) 57),
    (Z.leb_spec 97 (code c)), (Z.leb_spec (code c) 122),
    (Z.leb_spec 65 (code c)), (Z.leb_spec (code c) 90); cbn in H;
    try discriminate;
    match type of H with
    | (if ?x <? 16 then _ else _) = _ =>
        destruct (Z.ltb_spec x 16); [| discriminate]
    end; injection H as <-; lia.
Qed.

Lemma digit_in_16_not c d x :
  digit_in 16 c = Some d -> digit_in 16 x = None -> Ascii.eqb c x = false.
Proof.
  intros Hc Hx. destruct (Ascii.eqb_spec c x) as [->|]; congruence.
Qed.

(** A cell of two hex digits is the byte they spell. *)
Lemma parseInt_cell a b da db :
  digit_in 16 a = Some da -> digit_in 16 b = Some db ->
  parseInt (String a (String b EmptyString)) 16 = Int (da * 16 + db).
Proof.
  intros Ha Hb. unfold parseInt.
  assert (Hsp : is_space a = false).
  { unfold digit_in in Ha. destruct (digit_value a) eqn:E; [| discriminate].
    eapply digit_value_no_space, E. }
  cbn [trimStart]. rewrite Hsp.
  rewrite (digit_in_16_not a da "-" Ha), (digit_in_16_not a da "+" Ha)
    by reflexivity.
  cbn [negb Z.eqb andb orb].
  assert (String.prefix "0x" (String a (String b EmptyString)) = false) as ->.
  { rewrite !prefix_cons. destruct (ascii_dec "0" a); [| reflexivity].
    destruct (ascii_dec "x" b) as [<-|]; [discriminate | reflexivity]. }
  assert (String.prefix "0X" (String a (String b EmptyString)) = false) as ->.
  { rewrite !prefix_cons. destruct (ascii_dec "0" a); [| reflexivity].
    destruct (ascii_dec "X" b) as [<-|]; [discriminate | reflexivity]. }
  change ((16 <? 2) || (36 <? 16)) with false.
  change ((16 =? 16)%positive) with true.
  cbn [orb andb read_digits]. rewrite Ha, Hb. f_equal. lia.
Qed.

Lemma be_value_acc bytes acc :
  fold_left (fun acc b => acc * 256 + byte_val b) bytes acc
  = acc * 256 ^ Z.of_nat (length bytes) + be_value bytes.
Proof.
  unfold be_value. revert acc.
  induction bytes as [|b bytes IH]; intros acc.
  - cbn. lia.
  - cbn [fold_left length]. rewrite IH, (IH (0 * 256 + byte_val b)).
    rewrite Nat2Z.inj_succ, Z.pow_succ_r by lia. lia.
Qed.

(** An even number of hex digits is read into the bytes they spell. *)
Lemma hex_cells_value s :
  len s mod 2 = 0 ->
  forall acc v, all_digits 16 s acc = Some v ->
  Z.of_nat (length (hex_cells s)) = len s / 2
  /\ v = acc * 256 ^ (len s / 2) + be_value (hex_cells s).
Proof.
  induction s as [| c | a b r IH] using string_ind2; intros Hlen acc v Hv.
  - cbn in Hv. injection Hv as <-. change (len EmptyString) with 0.
    change (0 / 2) with 0. cbn. lia.
  - exfalso. revert Hlen. clear. now vm_compute.
  - rewrite !len_String in *. pose proof (len_nonneg r).
    replace (1 + (1 + len r)) with (1 * 2 + len r) in * by lia.
    rewrite Z.div_add_l by lia.
    rewrite Z.add_comm, Z.mod_add in Hlen by lia.
    cbn [all_digits] in Hv.
    destruct (digit_in 16 a) as [da|] eqn:Ha; [| discriminate].
    destruct (digit_in 16 b) as [db|] eqn:Hb; [| discriminate].
    destruct (IH Hlen _ _ Hv) as [Hl Hval].
    cbn [hex_cells length]. rewrite (parseInt_cell a b da db Ha Hb).
    split; [lia |].
    unfold be_value. cbn [fold_left to_uint8]. rewrite be_value_acc.
    rewrite byte_val_of_Z.
    apply digit_in_16_bound in Ha, Hb.
    rewrite Z.mod_small by lia.
    rewrite Hl, Hval.
    rewrite Z.pow_add_r by (pose proof (Z.div_pos (len r) 2); lia).
    lia.
Qed.

End HexBytes.

Lemma hexToBytes_cells hex :
  Js.startsWith hex "0x" = false -> Utils.hexToBytes hex = hex_cells hex.
Proof.
  intros H. unfold Utils.hexToBytes. rewrite H. apply cells_of_slices.
Qed.

(** ** The type dispatch of the codec *)

Section Dispatch.
Import Js Contract.

Lemma uint_prefix type :
  startsWith type "uint" = true ->
  String.eqb type "address" = false.
Proof.
  intros H. apply prefix_split in H. rewrite H. reflexivity.
Qed.

Lemma int_prefix type :
  startsWith type "int" = true ->
  String.eqb type "address" = false /\ startsWith type "uint" = false.
Proof.
  intros H. apply prefix_split in H. rewrite H. split; reflexivity.
Qed.

Lemma encodeParameter_uint type value :
  startsWith type "uint" = true ->
  encodeParameter type value
  = let* num := BigInt value in Normal ("0x" +:+ word_of num).
Proof.
  intros H. unfold encodeParameter. now rewrite (uint_prefix type H), H.
Qed.

Lemma encodeParameter_int type value :
  startsWith type "int" = true ->
  encodeParameter type value
  = let* num := BigInt value in
    Normal ("0x" +:+ word_of (if num <? 0 then 2 ^ 256 + num else num)).
Proof.
  intros H. unfold encodeParameter.
  destruct (int_prefix type H) as [-> ->]. now rewrite H.
Qed.

Lemma decodeParameter_uint type data offset :
  startsWith type "uint" = true ->
  decodeParameter type data offset
  = let* num :=
      BigInt_of_word (slice data (Int offset) (Int (offset + 64))) in
    Normal (VBigInt num, offset + 64).
Proof.
  intros H. unfold decodeParameter. now rewrite (uint_prefix type H), H.
Qed.

Lemma decodeParameter_int type data offset :
  startsWith type "int" = true ->
  decodeParameter type data offset
  = let* num :=
      BigInt_of_word (slice data (Int offset) (Int (offset + 64))) in
    match int_bits type with
    | NaN => Throw RangeError
    | Int bits =>
        if shift_limit <? bits then Unmodelled
        else Normal
               (VBigInt (if Z.shiftl 1 (bits - 1) <=? num
                         then num - Z.shiftl 1 bits else num),
                offset + 64)
    end.
Proof.
  intros H. unfold decodeParameter.
  destruct (int_prefix type H) as [-> ->]. now rewrite H.
Qed.

(** Outside the branches both functions throw the error naming the type. *)
Lemma encodeParameter_unsupported type value :
  encodable type = false ->
  encodeParameter type value = Throw (Error ("Unsupported type: " +:+ type)).
Proof.
  unfold encodable, encodeParameter. intros H.
  repeat (apply orb_false_elim in H as [H ?]).
  now repeat match goal with E : _ = false |- _ => rewrite E; clear E end.
Qed.

Lemma decodeParameter_unsupported type data offset :
  decodable type = false ->
  decodeParameter type data offset
  = Throw (Error ("Unsupported type: " +:+ type)).
Proof.
  unfold decodable, decodeParameter. intros H.
  repeat (apply orb_false_elim in H as [H ?]).
  now repeat match goal with E : _ = false |- _ => rewrite E; clear E end.
Qed.

(** Inside them neither function throws that error. *)
Lemma encodeParameter_supported type value message :
  encodable type = true ->
  encodeParameter type value <> Throw (Error message).
Proof.
  unfold encodable, encodeParameter. intros H.
  destruct (String.eqb type "address").
  { destruct value; discriminate. }
  destruct (startsWith type "uint").
  { destruct value as [| | | | |s]; try discriminate.
    cbn. destruct (StringToBigInt s); discriminate. }
  destruct (startsWith type "int").
  { destruct value as [| | | | |s]; try discriminate.
    cbn. destruct (StringToBigInt s); discriminate. }
  destruct (String.eqb type "bool"); [discriminate |].
  destruct (String.eqb type "bytes32").
  { destruct value; discriminate. }
  destruct (String.eqb type "string").
  { destruct value as [| | | n | |]; try discriminate.
    cbn. destruct (safe_integer n); discriminate. }
  destruct (String.eqb type "bytes").
  { destruct value; discriminate. }
  discriminate.
Qed.

Lemma decodeParameter_supported type data offset message :
  decodable type = true ->
  decodeParameter type data offset <> Throw (Error message).
Proof.
  unfold decodable, decodeParameter. intros H.
  destruct (String.eqb type "address"); [discriminate |].
  destruct (startsWith type "uint").
  { unfold BigInt_of_word, BigInt.
    destruct (StringToBigInt _); discriminate. }
  destruct (startsWith type "int").
  { unfold BigInt_of_word, BigInt.
    destruct (StringToBigInt _); [| discriminate].
    cbn. destruct (int_bits type) as [|bits]; [discriminate |].
    destruct (shift_limit <? bits); discriminate. }
  destruct (String.eqb type "bool"); [discriminate |].
  destruct (String.eqb type "bytes32"); [discriminate |].
  destruct (String.eqb type "string").
  { destruct (utf8_decode _); discriminate. }
  discriminate.
Qed.

End Dispatch.

(** ** Integer words (C6) *)

Section IntegerWords.
Import Js Utils Contract.

Lemma digits_not_0x w :
  digits_only 16 w = true -> startsWith w "0x" = false.
Proof.
  unfold startsWith. destruct w as [|a [|b r]]; intros H.
  - reflexivity.
  - rewrite prefix_cons. now destruct (ascii_dec "0" a).
  - rewrite !prefix_cons.
    destruct (ascii_dec "0" a); [| reflexivity].
    destruct (ascii_dec "x" b) as [<-|]; [| reflexivity].
    cbn in H. destruct (digit_in 16 a); discriminate.
Qed.

Lemma word_of_big_endian n :
  0 <= n < 2 ^ 256 -> big_endian_word (word_of n) n.
Proof.
  intros Hn. pose proof (word_of_len n Hn) as Hlen.
  pose proof (word_of_value n (proj1 Hn)) as Hv.
  assert (Hcells : hexToBytes (word_of n) = hex_cells (word_of n)).
  { apply hexToBytes_cells, digits_not_0x.
    eapply all_digits_digits_only, Hv. }
  destruct (hex_cells_value (word_of n)) with (acc := 0) (v := n)
    as [Hl Hval]; [now rewrite Hlen | exact Hv |].
  rewrite Hlen in Hl, Hval. change (64 / 2) with 32 in Hl, Hval.
  repeat split.
  - exact Hlen.
  - unfold digits_value. destruct (word_of n) eqn:E; [| exact Hv].
    now apply word_of_nonempty in E.
  - rewrite Hcells. lia.
  - rewrite Hcells. lia.
Qed.

(** C6. Encoding the [uint256] value 0 gives the word of 64 zeros and
    encoding the [int8] value -1 the word of 64 [f]; a negative value [v]
    of an [int] type is encoded as the big-endian 256-bit word of
    [2^256 + v], and a value of a [uint] type as its big-endian word,
    zero-padded on the left to 32 bytes.  The value may be given in any
    form [BigInt] converts. *)
Theorem C6_integer_words :
  encodeParameter "uint256" (VBigInt 0) = Normal ("0x" +:+ replicate 64 "0")
  /\ encodeParameter "int8" (VBigInt (-1)) = Normal ("0x" +:+ replicate 64 "f")
  /\ (forall type value v,
        startsWith type "int" = true -> BigInt value = Normal v ->
        - 2 ^ 255 <= v < 0 ->
        exists w, encodeParameter type value = Normal ("0x" +:+ w)
                  /\ big_endian_word w (2 ^ 256 + v))
  /\ (forall type value v,
        startsWith type "uint" = true -> BigInt value = Normal v ->
        0 <= v < 2 ^ 256 ->
        exists w k, encodeParameter type value = Normal ("0x" +:+ w)
                    /\ w = replicate k "0" +:+ toString v 16
                    /\ big_endian_word w v).
Proof.
  split; [reflexivity |]. split; [vm_compute; reflexivity |]. split.
  - intros type value v Ht Hvalue Hv. exists (word_of (2 ^ 256 + v)). split.
    + rewrite encodeParameter_int, Hvalue by exact Ht. cbn [bindC].
      destruct (Z.ltb_spec v 0); [reflexivity | lia].
    + apply word_of_big_endian. lia.
  - intros type value v Ht Hvalue Hv.
    exists (word_of v), (Z.to_nat (64 - len (toString v 16))). split.
    + now rewrite encodeParameter_uint, Hvalue by exact Ht.
    + split; [reflexivity |]. now apply word_of_big_endian.
Qed.

(** The int16 value -2 as a BigInt and the uint64 value 1000 as a decimal
    string. *)
Lemma C6_integer_words_witness :
  (exists w, encodeParameter "int16" (VBigInt (-2)) = Normal ("0x" +:+ w)
             /\ big_endian_word w (2 ^ 256 + -2))
  /\ (exists w k, encodeParameter "uint64" (VString "1000") = Normal ("0x" +:+ w)
                  /\ w = replicate k "0" +:+ toString 1000 16
                  /\ big_endian_word w 1000).
Proof.
  split.
  - apply (proj1 (proj2 (proj2 C6_integer_words)) "int16" (VBigInt (-2)) (-2));
      [reflexivity | reflexivity | lia].
  - apply (proj2 (proj2 (proj2 C6_integer_words)) "uint64" (VString "1000") 1000);
      [reflexivity | reflexivity | lia].
Defined.

End IntegerWords.

(** ** Round trips of the codec (C1) and its error branch (C4) *)

Section RoundTrip.
Import Js Utils Contract.

Lemma toLowerCase_lower_hex s : lower_hex s = true -> toLowerCase s = s.
Proof.
  induction s as [|c s IH]; intros H; [reflexivity |].
  cbn in H. apply andb_prop in H as [Hc Hs].
  cbn [toLowerCase]. rewrite (IH Hs). f_equal.
  unfold lower_char.
  destruct (Z.leb_spec 65 (code c)), (Z.leb_spec (code c) 90),
    (Z.leb_spec 192 (code c)), (Z.leb_spec (code c) 222);
    cbn [andb]; try reflexivity;
    destruct (Z.leb_spec 48 (code c)), (Z.leb_spec (code c) 57),
      (Z.leb_spec 97 (code c)), (Z.leb_spec (code c) 102);
    cbn in Hc; try discriminate; lia.
Qed.

Lemma length_toLowerCase s : String.length (toLowerCase s) = String.length s.
Proof. induction s as [|c s IH]; cbn; congruence. Qed.

(** An address comes back in lower case. *)
Lemma round_trip_address_lowered h :
  len h = 40 ->
  round_trip "address" (VString ("0x" +:+ h))
  = Normal (VString ("0x" +:+ toLowerCase h), 64).
Proof.
  intros Hlen. unfold round_trip, encodeParameter.
  change (String.eqb "address" "address") with true. cbv iota.
  cbn [string_receiver bindC].
  change ("0x" +:+ h) with (String "0" (String "x" h)).
  cbn [toLowerCase].
  change (lower_char "0") with "0"%char. change (lower_char "x") with "x"%char.
  set (l := toLowerCase h).
  assert (Hl : len l = 40)
    by (unfold l, len in *; now rewrite length_toLowerCase).
  assert (remove_first "0x" (String "0" (String "x" l)) = l) as ->.
  { cbn [remove_first]. rewrite !prefix_cons.
    destruct (ascii_dec "0" "0"); [| congruence].
    destruct (ascii_dec "x" "x"); [| congruence].
    now destruct l. }
  assert (padStart l 64 "0" = replicate 24 "0" +:+ l) as ->.
  { unfold padStart. now rewrite Hl. }
  rewrite slice_from_0x. unfold decodeParameter.
  change (String.eqb "address" "address") with true. cbv iota.
  rewrite slice_whole
    by (rewrite len_append, len_replicate, Hl; cbn; lia).
  pose proof (slice_from_append (replicate 24 "0") l) as Hs.
  rewrite len_replicate in Hs. change (Z.of_nat 24) with 24 in Hs.
  now rewrite Hs.
Qed.

Lemma round_trip_address h :
  len h = 40 -> lower_hex h = true ->
  round_trip "address" (VString ("0x" +:+ h))
  = Normal (VString ("0x" +:+ h), 64).
Proof.
  intros Hlen Hlow.
  now rewrite round_trip_address_lowered, toLowerCase_lower_hex.
Qed.

Lemma round_trip_uint type v :
  startsWith type "uint" = true -> 0 <= v < 2 ^ 256 ->
  round_trip type (VBigInt v) = Normal (VBigInt v, 64).
Proof.
  intros Ht Hv. unfold round_trip.
  rewrite encodeParameter_uint by exact Ht. cbn [BigInt bindC].
  rewrite slice_from_0x, decodeParameter_uint by exact Ht.
  now rewrite BigInt_of_word_of.
Qed.

Lemma round_trip_int type bits v :
  startsWith type "int" = true -> int_bits type = Int bits ->
  1 <= bits <= 256 ->
  0 <= v < 2 ^ (bits - 1) \/ (bits = 256 /\ - 2 ^ 255 <= v < 0) ->
  round_trip type (VBigInt v) = Normal (VBigInt v, 64).
Proof.
  intros Ht Hbits Hb Hv. unfold round_trip.
  rewrite encodeParameter_int by exact Ht. cbn [BigInt bindC].
  rewrite slice_from_0x, decodeParameter_int by exact Ht.
  assert (Hpow : 2 ^ (bits - 1) <= 2 ^ 255)
    by (apply Z.pow_le_mono_r; lia).
  rewrite BigInt_of_word_of
    by (destruct (Z.ltb_spec v 0); lia).
  cbn [bindC]. rewrite Hbits.
  unfold shift_limit. destruct (Z.ltb_spec 65536 bits); [lia |].
  rewrite !Z.shiftl_1_l. do 2 f_equal.
  destruct Hv as [Hv | [-> Hv]].
  - destruct (Z.ltb_spec v 0); [lia |].
    destruct (Z.leb_spec (2 ^ (bits - 1)) v); [lia | reflexivity].
  - destruct (Z.ltb_spec v 0); [| lia].
    change (2 ^ (256 - 1)) with (2 ^ 255).
    assert (Hdouble : 2 ^ 256 = 2 * 2 ^ 255) by reflexivity.
    destruct (Z.leb_spec (2 ^ 255) (2 ^ 256 + v)); f_equal; lia.
Qed.

(** The widths of the standard names [int8], [int16], ..., [int256]. *)
Lemma int_bits_standard k :
  1 <= k <= 32 ->
  startsWith ("int" +:+ toString (8 * k) 10) "int" = true
  /\ int_bits ("int" +:+ toString (8 * k) 10) = Int (8 * k).
Proof.
  intros Hk.
  assert (H : Forall (fun n : nat =>
                        let k := Z.of_nat (S n) in
                        startsWith ("int" +:+ toString (8 * k) 10) "int" = true
                        /\ int_bits ("int" +:+ toString (8 * k) 10)
                           = Int (8 * k))
                     (seq 0 32))
    by (repeat constructor).
  rewrite List.Forall_forall in H.
  specialize (H (Z.to_nat (k - 1))). cbv zeta in H.
  replace (Z.of_nat (S (Z.to_nat (k - 1)))) with k in H by lia.
  apply H, in_seq. lia.
Qed.

Lemma round_trip_bool b :
  round_trip "bool" (VBool b) = Normal (VBool b, 64).
Proof. destruct b; vm_compute; reflexivity. Qed.

Lemma round_trip_bytes32 h :
  len h = 64 ->
  round_trip "bytes32" (VString ("0x" +:+ h))
  = Normal (VString ("0x" +:+ h), 64).
Proof.
  intros Hlen. unfold round_trip, encodeParameter.
  change (String.eqb "bytes32" "address") with false.
  change (startsWith "bytes32" "uint") with false.
  change (startsWith "bytes32" "int") with false.
  change (String.eqb "bytes32" "bool") with false.
  change (String.eqb "bytes32" "bytes32") with true. cbv iota.
  cbn [string_receiver bindC].
  unfold startsWith at 1. rewrite (prefix_append "0x" h), !slice_from_0x.
  assert (padEnd h 64 "0" = h) as ->.
  { unfold padEnd. rewrite Hlen. apply append_empty_r. }
  unfold decodeParameter.
  change (String.eqb "bytes32" "address") with false.
  change (startsWith "bytes32" "uint") with false.
  change (startsWith "bytes32" "int") with false.
  change (String.eqb "bytes32" "bool") with false.
  change (String.eqb "bytes32" "bytes32") with true. cbv iota.
  now rewrite slice_whole by lia.
Qed.

End RoundTrip.

Section CodecClaims.
Import Js Utils Contract.

(** C1, amended. The value comes back from
    [decodeParameter(T, encodeParameter(T, v).slice(2), 0)], paired with the
    next offset 64, for: an address written as [0x] and 40 lower-case hex
    digits (an address of 40 characters in any case comes back in lower
    case); a BigInt [0 <= v < 2^256] of a [uint] type; a BigInt of an
    [int] type of [bits] bits that is non-negative and below [2^(bits-1)],
    or any BigInt of the 256-bit range when [bits = 256], where [intN] has
    [N] bits for [N = 8, 16, ..., 256]; a boolean; a [bytes32] written as
    [0x] and 64 characters. *)
Theorem C1_round_trip :
  (forall h, len h = 40 ->
     round_trip "address" (VString ("0x" +:+ h))
     = Normal (VString ("0x" +:+ toLowerCase h), 64))
  /\ (forall h, len h = 40 -> lower_hex h = true ->
        round_trip "address" (VString ("0x" +:+ h))
        = Normal (VString ("0x" +:+ h), 64))
  /\ (forall type v, startsWith type "uint" = true -> 0 <= v < 2 ^ 256 ->
        round_trip type (VBigInt v) = Normal (VBigInt v, 64))
  /\ (forall type bits v,
        startsWith type "int" = true -> int_bits type = Int bits ->
        1 <= bits <= 256 ->
        0 <= v < 2 ^ (bits - 1) \/ (bits = 256 /\ - 2 ^ 255 <= v < 0) ->
        round_trip type (VBigInt v) = Normal (VBigInt v, 64))
  /\ (forall k, 1 <= k <= 32 ->
        startsWith ("int" +:+ toString (8 * k) 10) "int" = true
        /\ int_bits ("int" +:+ toString (8 * k) 10) = Int (8 * k))
  /\ (forall b, round_trip "bool" (VBool b) = Normal (VBool b, 64))
  /\ (forall h, len h = 64 ->
        round_trip "bytes32" (VString ("0x" +:+ h))
        = Normal (VString ("0x" +:+ h), 64)).
Proof.
  split; [exact round_trip_address_lowered |].
  split; [exact round_trip_address |].
  split; [exact round_trip_uint |].
  split; [exact round_trip_int |].
  split; [exact int_bits_standard |].
  split; [exact round_trip_bool | exact round_trip_bytes32].
Qed.

Lemma C1_round_trip_witness :
  round_trip "address" (VString "0x5aaeb6053f3e94c9b9a09f33669435e7ef1beaed")
  = Normal (VString "0x5aaeb6053f3e94c9b9a09f33669435e7ef1beaed", 64)
  /\ round_trip "uint256" (VBigInt 100) = Normal (VBigInt 100, 64)
  /\ round_trip "int8" (VBigInt 127) = Normal (VBigInt 127, 64)
  /\ round_trip "int256" (VBigInt (-1)) = Normal (VBigInt (-1), 64)
  /\ round_trip "bytes32"
       (VString
          "0x1234567890abcdef1234567890abcdef1234567890abcdef1234567890abcdef")
     = Normal
         (VString
            "0x1234567890abcdef1234567890abcdef1234567890abcdef1234567890abcdef",
          64).
Proof.
  destruct C1_round_trip as (_ & Haddr & Huint & Hint & _ & _ & Hbytes).
  split; [| split; [| split; [| split]]].
  - apply (Haddr "5aaeb6053f3e94c9b9a09f33669435e7ef1beaed"); reflexivity.
  - apply (Huint "uint256" 100); [reflexivity | lia].
  - apply (Hint "int8" 8 127); [reflexivity | reflexivity | lia |].
    left. cbn. lia.
  - apply (Hint "int256" 256 (-1)); [reflexivity | reflexivity | lia |].
    right. cbn. lia.
  - apply (Hbytes
             "1234567890abcdef1234567890abcdef1234567890abcdef1234567890abcdef").
    reflexivity.
Defined.

(** C1 as stated fails: a checksum-cased address comes back in lower case
    (the encoder lower-cases it); the [uint256] value 5 given as a Number
    comes back as a BigInt; the [int8] value -1 comes back as
    [2^256 - 257]; the string [abc] comes back as 29 NUL characters; and
    [bytes] has no decoder. *)
Lemma C1_round_trip_fails :
  round_trip "address" (VString "0x5aAeb6053F3E94C9b9A09f33669435E7Ef1BeAed")
  <> Normal (VString "0x5aAeb6053F3E94C9b9A09f33669435E7Ef1BeAed", 64)
  /\ round_trip "uint256" (VNumber 5) <> Normal (VNumber 5, 64)
  /\ round_trip "int8" (VBigInt (-1)) <> Normal (VBigInt (-1), 64)
  /\ round_trip "string" (VString "abc") <> Normal (VString "abc", 64)
  /\ round_trip "bytes" (VString "0x1234") <> Normal (VString "0x1234", 64).
Proof.
  repeat split; intros H; vm_compute in H; discriminate H.
Qed.

(** What those round trips return. *)
Example round_trip_checksum_address :
  round_trip "address" (VString "0x5aAeb6053F3E94C9b9A09f33669435E7Ef1BeAed")
  = Normal (VString "0x5aaeb6053f3e94c9b9a09f33669435e7ef1beaed", 64).
Proof. vm_compute. reflexivity. Qed.

Example round_trip_number :
  round_trip "uint256" (VNumber 5) = Normal (VBigInt 5, 64).
Proof. vm_compute. reflexivity. Qed.

Example round_trip_int8_minus_one :
  round_trip "int8" (VBigInt (-1)) = Normal (VBigInt (2 ^ 256 - 257), 64).
Proof. vm_compute. reflexivity. Qed.

Example round_trip_string_abc :
  round_trip "string" (VString "abc")
  = Normal (VString (replicate 29 (chr 0)), 64).
Proof. vm_compute. reflexivity. Qed.

Example round_trip_bytes :
  round_trip "bytes" (VString "0x1234")
  = Throw (Error "Unsupported type: bytes").
Proof. vm_compute. reflexivity. Qed.

Lemma abi_supported_encodable type :
  abi_supported type = true -> encodable type = true.
Proof.
  unfold abi_supported, encodable, sized_type. intros H.
  repeat (apply orb_prop in H as [H | H]);
    try apply andb_prop in H as [H _]; rewrite H;
    repeat (rewrite ?orb_true_r, ?orb_true_l); reflexivity.
Qed.

Lemma decodable_encodable type :
  decodable type = true -> encodable type = true.
Proof. unfold decodable, encodable. intros ->. reflexivity. Qed.

(** C4, amended. A type string that is none of [address], [bool],
    [bytes32], [string], [bytes] and starts with neither [uint] nor [int]
    makes both [encodeParameter] and [decodeParameter] throw
    [Error("Unsupported type: " + type)]; for every other type string
    [encodeParameter] does not throw that error, and neither does
    [decodeParameter] unless the type is [bytes].  The other type strings
    include all of [address], [uintN], [intN], [bool], [bytes32],
    [string] and [bytes]. *)
Theorem C4_unsupported_type :
  (forall type, encodable type = false ->
     (forall value,
        encodeParameter type value
        = Throw (Error ("Unsupported type: " +:+ type)))
     /\ (forall data offset,
           decodeParameter type data offset
           = Throw (Error ("Unsupported type: " +:+ type))))
  /\ (forall type, encodable type = true ->
        forall value message,
          encodeParameter type value <> Throw (Error message))
  /\ (forall type, encodable type = true -> type <> "bytes" ->
        forall data offset message,
          decodeParameter type data offset <> Throw (Error message))
  /\ (forall type, abi_supported type = true -> encodable type = true).
Proof.
  split; [| split; [| split]]; [| | | exact abi_supported_encodable].
  - intros type H. split.
    + intros value. now apply encodeParameter_unsupported.
    + intros data offset. apply decodeParameter_unsupported.
      destruct (decodable type) eqn:E; [| reflexivity].
      apply decodable_encodable in E. congruence.
  - intros type H value message. now apply encodeParameter_supported.
  - intros type H Hbytes data offset message.
    apply decodeParameter_supported.
    unfold encodable in H. unfold decodable.
    destruct (String.eqb_spec type "bytes") as [E|_]; [contradiction |].
    now rewrite orb_false_r in H.
Qed.

Lemma C4_unsupported_type_witness :
  (encodeParameter "tuple" (VBigInt 1) = Throw (Error "Unsupported type: tuple")
   /\ decodeParameter "tuple" (replicate 64 "0") 0
      = Throw (Error "Unsupported type: tuple"))
  /\ encodeParameter "bytes" (VString "0x1234") <> Throw (Error "Unsupported type: bytes")
  /\ decodeParameter "string" (replicate 64 "0") 0
     <> Throw (Error "Unsupported type: string").
Proof.
  destruct C4_unsupported_type as (Hout & Henc & Hdec & _).
  split; [| split].
  - destruct (Hout "tuple" eq_refl) as [He Hd].
    split; [apply He | apply Hd].
  - apply (Henc "bytes" eq_refl).
  - apply (Hdec "string" eq_refl). discriminate.
Defined.

(** C4 as stated fails: [uint256[]] is outside the supported set, yet
    neither function throws on it (the dispatch tests the prefix [uint]);
    and [bytes] is inside it, yet [decodeParameter] throws. *)
Lemma C4_unsupported_type_fails :
  (abi_supported "uint256[]" = false
   /\ encodeParameter "uint256[]" (VBigInt 7) = Normal ("0x" +:+ word_of 7)
   /\ decodeParameter "uint256[]" (word_of 7) 0 = Normal (VBigInt 7, 64))
  /\ (abi_supported "bytes" = true
      /\ decodeParameter "bytes" (word_of 2 +:+ padEnd "1234" 64 "0") 0
         = Throw (Error "Unsupported type: bytes")).
Proof. repeat split; vm_compute; reflexivity. Qed.

End CodecClaims.

(** ** Decoding argument lists (C10) *)

Section Arguments.
Import Js Utils Contract.

(** [decodeParameter] always advances the offset by one word. *)
Lemma decodeParameter_offset type data offset value newOffset :
  decodeParameter type data offset = Normal (value, newOffset) ->
  newOffset = offset + 64.
Proof.
  unfold decodeParameter. intros H.
  repeat match type of H with
    | (if ?c then _ else _) = _ => destruct c
    | (let* _ := ?c in _) = _ => destruct c; cbn [bindC] in H
    | match ?c with _ => _ end = _ => destruct c
    end;
    try discriminate; now injection H.
Qed.

Lemma decode_from_positional outputs data index :
  decode_from outputs data (64 * index) = positional outputs data index.
Proof.
  revert index. induction outputs as [|output outputs IH]; intros index;
    [reflexivity |].
  cbn [decode_from positional].
  destruct (decodeParameter (p_type output) data (64 * index))
    as [[value newOffset]| |] eqn:E; cbn [bindC]; try reflexivity.
  apply decodeParameter_offset in E. subst newOffset.
  replace (64 * index + 64) with (64 * (index + 1)) by lia.
  now rewrite IH.
Qed.

Lemma decodeArguments_positional outputs data :
  decodeArguments outputs data = positional outputs (strip_0x data) 0.
Proof.
  unfold decodeArguments. exact (decode_from_positional outputs _ 0).
Qed.

(** A successful positional read has one value per output, the one at
    place [i] decoded with the type of output [i] from word [i]. *)
Lemma positional_lookup outputs data index values :
  positional outputs data index = Normal values ->
  length values = length outputs
  /\ forall (i : nat) output,
       outputs !! i = Some output ->
       exists value,
         values !! i = Some value
         /\ decodeParameter (p_type output) data (64 * (index + Z.of_nat i))
            = Normal (value, 64 * (index + Z.of_nat i) + 64).
Proof.
  revert index values.
  induction outputs as [|output outputs IH]; intros index values H.
  - injection H as <-. split; [reflexivity |]. intros i o Hi. discriminate.
  - cbn [positional] in H.
    destruct (decodeParameter (p_type output) data (64 * index))
      as [[value newOffset]| |] eqn:E; cbn [bindC] in H; try discriminate.
    destruct (positional outputs data (index + 1)) as [rest| |] eqn:R;
      cbn [bindC] in H; try discriminate.
    injection H as <-. destruct (IH _ _ R) as [Hlen Hnth].
    split; [cbn; congruence |].
    intros [|i] o Hi.
    + injection Hi as <-. exists value. split; [reflexivity |].
      rewrite Z.add_0_r.
      pose proof (decodeParameter_offset _ _ _ _ _ E). now subst.
    + cbn in Hi. destruct (Hnth i o Hi) as (v & Hv & Hd).
      exists v. split; [exact Hv |].
      now replace (index + Z.of_nat (S i)) with (index + 1 + Z.of_nat i) by lia.
Qed.

(** C10. [decodeResult] returns [null] when the entry declares no
    outputs; with exactly one output it returns the decoded value itself,
    not an array; with two or more it returns the array of the values
    decoded in declaration order, one word each. *)
Theorem C10_decodeResult :
  (forall abiItem data,
     f_outputs abiItem = None \/ f_outputs abiItem = Some [] ->
     decodeResult abiItem data = Normal RNull)
  /\ (forall abiItem output data,
        f_outputs abiItem = Some [output] ->
        decodeResult abiItem data
        = let* (value, _) :=
            decodeParameter (p_type output) (strip_0x data) 0 in
          Normal (RValue value))
  /\ (forall abiItem outputs data,
        f_outputs abiItem = Some outputs -> (2 <= length outputs)%nat ->
        decodeResult abiItem data
        = let* values := positional outputs (strip_0x data) 0 in
          Normal (RArray values))
  /\ (forall outputs data values,
        positional outputs data 0 = Normal values ->
        length values = length outputs
        /\ forall (i : nat) output,
             outputs !! i = Some output ->
             exists value,
               values !! i = Some value
               /\ decodeParameter (p_type output) data (64 * Z.of_nat i)
                  = Normal (value, 64 * Z.of_nat i + 64)).
Proof.
  split; [| split; [| split]].
  - intros abiItem data [H | H]; unfold decodeResult; now rewrite H.
  - intros abiItem output data H. unfold decodeResult. rewrite H.
    rewrite decodeArguments_positional. cbn [positional].
    change (64 * 0) with 0.
    destruct (decodeParameter (p_type output) (strip_0x data) 0)
      as [[value newOffset]| |]; reflexivity.
  - intros abiItem outputs data H Hlen. unfold decodeResult. rewrite H.
    rewrite decodeArguments_positional.
    destruct outputs as [|o1 [|o2 outputs]]; cbn in Hlen; try lia.
    reflexivity.
  - intros outputs data values H.
    destruct (positional_lookup outputs data 0 values H) as [Hlen Hnth].
    split; [exact Hlen |]. intros i output Hi.
    destruct (Hnth i output Hi) as (v & Hv & Hd). exists v. now split.
Qed.

(** A [balanceOf]-like entry with one [uint256] output, a pair of outputs,
    and an entry without outputs. *)
Lemma C10_decodeResult_witness :
  decodeResult
    {| f_type := KFunction; f_name := Some "approve"; f_inputs := None;
       f_outputs := Some [] |} "0x"
  = Normal RNull
  /\ decodeResult
       {| f_type := KFunction; f_name := Some "balanceOf"; f_inputs := None;
          f_outputs :=
            Some [ {| p_name := ""; p_type := "uint256"; p_indexed := None |} ] |}
       ("0x" +:+ word_of 5)
     = Normal (RValue (VBigInt 5))
  /\ decodeResult
       {| f_type := KFunction; f_name := Some "pair"; f_inputs := None;
          f_outputs :=
            Some [ {| p_name := "a"; p_type := "uint256"; p_indexed := None |};
                   {| p_name := "b"; p_type := "bool"; p_indexed := None |} ] |}
       ("0x" +:+ word_of 5 +:+ word_of 1)
     = Normal (RArray [VBigInt 5; VBool true]).
Proof.
  destruct C10_decodeResult as (Hnone & Hone & Hmany & _).
  split; [| split].
  - apply Hnone. now right.
  - match goal with
    | |- decodeResult ?item ?data = _ => rewrite (Hone item _ data eq_refl)
    end.
    vm_compute. reflexivity.
  - match goal with
    | |- decodeResult ?item ?data = _ =>
        rewrite (Hmany item _ data eq_refl (le_n 2))
    end.
    vm_compute. reflexivity.
Defined.

End Arguments.

(** ** Decoding event logs (C9) *)

Section Events.
Import Js Utils Contract.

Lemma decode_indexed_exhausted indexedInputs topics topicIndex args :
  (length topics <= topicIndex)%nat ->
  EventDecoder.decode_indexed indexedInputs topics topicIndex args = Normal args.
Proof.
  intros H. induction indexedInputs as [|input rest IH]; [reflexivity |].
  cbn [EventDecoder.decode_indexed]. now rewrite lookup_ge_None_2.
Qed.

Lemma indexed_positional_exhausted indexedInputs topics position args :
  (length topics <= position)%nat ->
  indexed_positional indexedInputs topics position args = Normal args.
Proof.
  revert position. induction indexedInputs as [|input rest IH];
    intros position H; [reflexivity |].
  cbn [indexed_positional]. rewrite lookup_ge_None_2 by exact H.
  apply IH. lia.
Qed.

(** The running topic index of the loop is the position of the input. *)
Lemma decode_indexed_positional indexedInputs topics topicIndex args :
  EventDecoder.decode_indexed indexedInputs topics topicIndex args
  = indexed_positional indexedInputs topics topicIndex args.
Proof.
  revert topicIndex args.
  induction indexedInputs as [|input rest IH]; intros topicIndex args;
    [reflexivity |].
  cbn [EventDecoder.decode_indexed indexed_positional].
  destruct (topics !! topicIndex) as [topic|] eqn:E.
  - destruct (decodeParameter _ _ _) as [[value ?]| |]; cbn [bindC];
      [apply IH | reflexivity | reflexivity].
  - apply lookup_ge_None_1 in E.
    rewrite decode_indexed_exhausted, indexed_positional_exhausted by lia.
    reflexivity.
Qed.

Lemma decode_encoded type value encoded :
  encodeParameter type value = Normal encoded ->
  decodeParameter type (slice_from encoded (Int 2)) 0 = round_trip type value.
Proof. intros H. unfold round_trip. now rewrite H. Qed.

Lemma strip_0x_prefixed s : strip_0x ("0x" +:+ s) = s.
Proof.
  unfold strip_0x, startsWith.
  now rewrite (prefix_append "0x" s), slice_from_0x.
Qed.

Lemma decode_transfer sigHash from to value l paddedFrom paddedTo paddedValue :
  len from = 40 -> len to = 40 -> 0 <= value < 2 ^ 256 ->
  encodeParameter "address" (VString ("0x" +:+ from)) = Normal paddedFrom ->
  encodeParameter "address" (VString ("0x" +:+ to)) = Normal paddedTo ->
  encodeParameter "uint256" (VBigInt value) = Normal paddedValue ->
  log_topics l = [sigHash; paddedFrom; paddedTo] ->
  log_data l = paddedValue ->
  EventDecoder.decode (EventDecoder.new transfer_event) l
  = Normal
      {| EventDecoder.event := Some "Transfer";
         EventDecoder.args :=
           <["value" := VBigInt value]>
             (<["to" := VString ("0x" +:+ toLowerCase to)]>
                (<["from" := VString ("0x" +:+ toLowerCase from)]> ∅));
         EventDecoder.log := l |}.
Proof.
  intros Hfl Htl Hv Hfrom Hto Hvalue Htopics Hdata.
  unfold EventDecoder.decode.
  change (EventDecoder.inputs (EventDecoder.new transfer_event))
    with (default [] (f_inputs transfer_event)).
  change (EventDecoder.name (EventDecoder.new transfer_event))
    with (Some "Transfer").
  rewrite Htopics, Hdata.
  change (List.filter is_indexed (default [] (f_inputs transfer_event)))
    with [ {| p_name := "from"; p_type := "address"; p_indexed := Some true |};
           {| p_name := "to"; p_type := "address"; p_indexed := Some true |} ].
  change (List.filter (fun i => negb (is_indexed i))
            (default [] (f_inputs transfer_event)))
    with [ {| p_name := "value"; p_type := "uint256";
              p_indexed := Some false |} ].
  cbn [EventDecoder.decode_indexed lookup list_lookup p_type p_name].
  rewrite (decode_encoded _ _ _ Hfrom), (round_trip_address_lowered from Hfl).
  cbn [bindC].
  rewrite (decode_encoded _ _ _ Hto), (round_trip_address_lowered to Htl).
  cbn [bindC].
  rewrite encodeParameter_uint in Hvalue by reflexivity.
  cbn [BigInt bindC] in Hvalue. injection Hvalue as <-.
  rewrite decodeArguments_positional, strip_0x_prefixed.
  cbn [positional p_type]. change (64 * 0) with 0.
  rewrite decodeParameter_uint by reflexivity.
  rewrite (BigInt_of_word_of value Hv). cbn [bindC].
  reflexivity.
Qed.

(** C9. [EventDecoder.decode] reads the indexed inputs in order from the
    topics at positions 1, 2, ... (topic 0 is skipped), and the other
    inputs in order from the words of [log.data]; a [Transfer] log with
    topics [[sigHash, paddedFrom, paddedTo]] and data [paddedValue]
    decodes to the arguments [from], [to] and [value] that were encoded,
    the two addresses in the lower case their encoding has. *)
Theorem C9_event_decode :
  (forall (decoder : EventDecoder.t) (l : Log),
     let indexedInputs := List.filter is_indexed (EventDecoder.inputs decoder) in
     let nonIndexedInputs :=
       List.filter (fun i => negb (is_indexed i)) (EventDecoder.inputs decoder) in
     EventDecoder.decode decoder l
     = let* args := indexed_positional indexedInputs (log_topics l) 1 ∅ in
       let* decoded :=
         positional nonIndexedInputs (strip_0x (log_data l)) 0 in
       Normal
         {| EventDecoder.event := EventDecoder.name decoder;
            EventDecoder.args :=
              EventDecoder.assign_decoded nonIndexedInputs decoded args;
            EventDecoder.log := l |})
  /\ (forall sigHash from to value l paddedFrom paddedTo paddedValue,
        len from = 40 -> len to = 40 -> 0 <= value < 2 ^ 256 ->
        encodeParameter "address" (VString ("0x" +:+ from)) = Normal paddedFrom ->
        encodeParameter "address" (VString ("0x" +:+ to)) = Normal paddedTo ->
        encodeParameter "uint256" (VBigInt value) = Normal paddedValue ->
        log_topics l = [sigHash; paddedFrom; paddedTo] ->
        log_data l = paddedValue ->
        EventDecoder.decode (EventDecoder.new transfer_event) l
        = Normal
            {| EventDecoder.event := Some "Transfer";
               EventDecoder.args :=
                 <["value" := VBigInt value]>
                   (<["to" := VString ("0x" +:+ toLowerCase to)]>
                      (<["from" := VString ("0x" +:+ toLowerCase from)]> ∅));
               EventDecoder.log := l |}).
Proof.
  split.
  - intros decoder l. cbv zeta. unfold EventDecoder.decode.
    now rewrite decode_indexed_positional, decodeArguments_positional.
  - exact decode_transfer.
Qed.

(** The log of a transfer of 100, decoded from the checksum-cased sender
    and the lower-case recipient that were encoded into it. *)
Lemma C9_event_decode_witness :
  EventDecoder.decode (EventDecoder.new transfer_event) transfer_log
  = Normal
      {| EventDecoder.event := Some "Transfer";
         EventDecoder.args :=
           <["value" := VBigInt 100]>
             (<["to" := VString "0xfb6916095ca1df60bb79ce92ce3ea74c37c5d359"]>
                (<["from" :=
                     VString "0x5aaeb6053f3e94c9b9a09f33669435e7ef1beaed"]> ∅));
         EventDecoder.log := transfer_log |}.
Proof.
  apply (proj2 C9_event_decode
           (Utils.eventTopic "Transfer(address,address,uint256)")
           "5aAeb6053F3E94C9b9A09f33669435E7Ef1BeAed"
           "fb6916095ca1df60bb79ce92ce3ea74c37c5d359" 100 transfer_log
           "0x0000000000000000000000005aaeb6053f3e94c9b9a09f33669435e7ef1beaed"
           "0x000000000000000000000000fb6916095ca1df60bb79ce92ce3ea74c37c5d359"
           "0x0000000000000000000000000000000000000000000000000000000000000064");
    first [reflexivity | lia].
Defined.

End Events.

(** ** Selectors and topics (C3) *)

Section Selectors.
Import Js Utils Contract.

Lemma slice_prefix a b : slice (a +:+ b) (Int 0) (Int (len a)) = a.
Proof.
  unfold slice, rel_index. rewrite len_append.
  pose proof (len_nonneg a). pose proof (len_nonneg b).
  change (0 <? 0) with false. cbv iota.
  destruct (Z.ltb_spec (len a) 0); [lia |].
  rewrite (Z.min_l 0), (Z.min_l (len a)) by lia.
  cbn [Z.to_nat]. rewrite drop_zero, Z.sub_0_r.
  replace (Z.to_nat (len a)) with (String.length a)
    by (unfold len; now rewrite Nat2Z.id).
  apply take_append.
Qed.

Lemma len_hex_byte b : len (padStart (toString (byte_val b) 16) 2 "0") = 2.
Proof.
  rewrite len_padStart.
  assert (len (toString (byte_val b) 16) <= 2).
  { apply toString_len; [lia | | lia].
    pose proof (byte_val_bound b). change (16 ^ 2) with 256. lia. }
  lia.
Qed.

Lemma len_hex_of_bytes bytes :
  len (hex_of_bytes bytes) = 2 * Z.of_nat (length bytes).
Proof.
  induction bytes as [|b bytes IH]; [reflexivity |].
  cbn [hex_of_bytes length]. rewrite len_append, len_hex_byte, IH. lia.
Qed.

Lemma hex_of_bytes_app a b :
  hex_of_bytes (a ++ b) = hex_of_bytes a +:+ hex_of_bytes b.
Proof.
  induction a as [|x a IH]; [reflexivity |].
  cbn [app hex_of_bytes]. now rewrite IH, append_assoc.
Qed.

(** The first [2 * n] hex digits are the first [n] bytes. *)
Lemma hex_of_bytes_firstn (n : nat) bytes :
  (n <= length bytes)%nat ->
  slice (hex_of_bytes bytes) (Int 0) (Int (2 * Z.of_nat n))
  = hex_of_bytes (firstn n bytes).
Proof.
  intros H. rewrite <- (firstn_skipn n bytes) at 1.
  rewrite hex_of_bytes_app.
  replace (2 * Z.of_nat n) with (len (hex_of_bytes (firstn n bytes))).
  - apply slice_prefix.
  - rewrite len_hex_of_bytes, length_firstn. lia.
Qed.

Lemma length_keccak_round a rc : length (Keccak.keccak_round a rc) = 25%nat.
Proof.
  unfold Keccak.keccak_round, Keccak.iota, Keccak.chi.
  destruct (map _ Keccak.coordinates) as [|x l] eqn:E.
  - apply (f_equal (@length Z)) in E. rewrite length_map in E. discriminate E.
  - apply (f_equal (@length Z)) in E. rewrite length_map in E.
    cbn [length] in *. exact (eq_sym E).
Qed.

Lemma length_keccak_f a : length a = 25%nat -> length (Keccak.keccak_f a) = 25%nat.
Proof.
  unfold Keccak.keccak_f. generalize Keccak.round_constants. intros rcs.
  revert a. induction rcs as [|rc rcs IH]; intros a H; [exact H |].
  cbn [fold_left]. apply IH, length_keccak_round.
Qed.

Lemma length_xor_lanes state block :
  length (Keccak.xor_lanes state block) = length state.
Proof.
  revert block. induction state as [|s state IH]; intros [|b block];
    cbn; congruence.
Qed.

Lemma length_absorb_all blocks state input :
  length state = 25%nat ->
  length (Keccak.absorb_all blocks state input) = 25%nat.
Proof.
  revert state input. induction blocks as [|blocks IH]; intros state input H;
    [exact H |].
  cbn [Keccak.absorb_all]. apply IH. unfold Keccak.absorb.
  apply length_keccak_f. now rewrite length_xor_lanes.
Qed.

(** The digest has 32 bytes. *)
Lemma length_digest message : length (Keccak.digest message) = 32%nat.
Proof.
  unfold Keccak.digest.
  set (state := Keccak.absorb_all _ _ _).
  assert (H : length state = 25%nat)
    by (apply length_absorb_all, repeat_length).
  destruct state as [|l0 [|l1 [|l2 [|l3 rest]]]]; try discriminate H.
  reflexivity.
Qed.

Lemma selector_first_four_bytes sig :
  "0x" +:+ slice (Keccak.keccak256 sig) (Int 0) (Int 8)
  = bytesToHex (firstn 4 (Keccak.digest (utf8_encode sig))).
Proof.
  unfold Keccak.keccak256, Keccak.keccak256_bytes, bytesToHex. f_equal.
  apply (hex_of_bytes_firstn 4). rewrite length_digest. lia.
Qed.

Lemma no_space_append a b :
  no_space (a +:+ b) = no_space a && no_space b.
Proof.
  induction a as [|c a IH]; [reflexivity |].
  rewrite append_cons. cbn [no_space]. rewrite IH. apply andb_assoc.
Qed.

Lemma no_space_join types :
  Forall (fun t => no_space t = true) types -> no_space (join "," types) = true.
Proof.
  induction 1 as [|t types Ht _ IH]; [reflexivity |].
  cbn [join]. destruct types as [|t' types]; [exact Ht |].
  rewrite !no_space_append, Ht, IH. reflexivity.
Qed.

(** C3. The selector of an ABI entry is [0x] and the first 4 bytes (8 hex
    digits) of the Keccak-256 hash of [name(type,type,...)], built from the
    parameter types alone, comma-joined, with no parameter names and no
    spaces; [functionSelector("transfer(address,uint256)")] is
    [0xa9059cbb]; an event topic is the whole 32-byte hash of the same
    signature. *)
Theorem C3_selector_and_topic :
  (forall abiItem,
     let sig := signature (f_name abiItem) (f_inputs abiItem) in
     functionSelector abiItem
     = bytesToHex (firstn 4 (Keccak.digest (utf8_encode sig)))
     /\ len (functionSelector abiItem) = 10)
  /\ (forall abiItem,
        let sig := signature (f_name abiItem) (f_inputs abiItem) in
        EventDecoder.topic (EventDecoder.new abiItem)
        = bytesToHex (Keccak.digest (utf8_encode sig))
        /\ length (Keccak.digest (utf8_encode sig)) = 32%nat)
  /\ (forall name inputs,
        signature (Some name) (Some inputs)
        = name +:+ "(" +:+ join "," (map p_type inputs) +:+ ")")
  /\ (forall name inputs,
        no_space name = true ->
        Forall (fun p => no_space (p_type p) = true) inputs ->
        no_space (signature (Some name) (Some inputs)) = true)
  /\ Utils.functionSelector "transfer(address,uint256)" = "0xa9059cbb"
  /\ signature (f_name transfer_function) (f_inputs transfer_function)
     = "transfer(address,uint256)"
  /\ functionSelector transfer_function = "0xa9059cbb"
  /\ signature (f_name transfer_event) (f_inputs transfer_event)
     = "Transfer(address,address,uint256)"
  /\ EventDecoder.topic (EventDecoder.new transfer_event)
     = "0xddf252ad1be2c89b69c2b068fc378daa952ba7f163c4a11628f55a4df523b3ef".
Proof.
  split; [| split; [| split; [| split]]].
  - intros abiItem sig. unfold functionSelector. fold sig.
    rewrite selector_first_four_bytes. split; [reflexivity |].
    unfold bytesToHex.
    change ("0x" +:+ ?s) with (String "0" (String "x" s)).
    rewrite !len_String, len_hex_of_bytes, length_firstn, length_digest.
    reflexivity.
  - intros abiItem sig. split; [| apply length_digest].
    unfold EventDecoder.new, sig, signature. cbn [EventDecoder.topic].
    reflexivity.
  - reflexivity.
  - intros name inputs Hname Htypes. unfold signature.
    cbn [default from_option id].
    rewrite !no_space_append, Hname, no_space_join; [reflexivity |].
    induction Htypes; constructor; assumption.
  - repeat split; vm_compute; reflexivity.
Qed.

Lemma C3_selector_and_topic_witness :
  no_space (signature (Some "balanceOf")
              (Some [ {| p_name := "account"; p_type := "address";
                         p_indexed := None |} ]))
  = true.
Proof.
  apply (proj1 (proj2 (proj2 (proj2 C3_selector_and_topic)))).
  - reflexivity.
  - repeat constructor.
Defined.

End Selectors.

(** ** Names absent from the ABI (C5) *)

Section Lookup.
Import Js Utils Contract.

Lemma find_entry_absent kind abi name :
  Forall (fun item => f_type item = kind -> f_name item <> Some name) abi ->
  find_entry kind abi name = None.
Proof.
  unfold find_entry. induction 1 as [|item abi Hitem _ IH]; [reflexivity |].
  cbn [List.find]. rewrite IH.
  destruct (ABIKind_eqb (f_type item) kind) eqn:Ek; [| reflexivity].
  assert (f_type item = kind) as Hk
    by (destruct (f_type item), kind; (reflexivity || discriminate)).
  specialize (Hitem Hk).
  destruct (f_name item) as [n|]; [| reflexivity].
  destruct (String.eqb_spec n name) as [->|]; [congruence | reflexivity].
Qed.

(** C5. When the ABI has no function entry named [method], [call], [send]
    and [estimateGas] throw [Error("Method " + method + " not found in
    ABI")] and leave the history of RPC requests as it was: none is
    issued.  When it has no event entry named [eventName],
    [getPastEvents] does the same with
    [Error("Event " + eventName + " not found in ABI")]. *)
Theorem C5_name_not_found :
  (forall (this : Instance) method,
     Forall (fun item => f_type item = KFunction -> f_name item <> Some method)
            (abi this) ->
     forall args options history,
       call this method args options history
       = (Throw (Error ("Method " +:+ method +:+ " not found in ABI")), history)
       /\ (forall wallet,
             send this wallet method args options history
             = (Throw (Error ("Method " +:+ method +:+ " not found in ABI")),
                history))
       /\ estimateGas this method args options history
          = (Throw (Error ("Method " +:+ method +:+ " not found in ABI")),
             history))
  /\ (forall (this : Instance) eventName,
        Forall (fun item => f_type item = KEvent -> f_name item <> Some eventName)
               (abi this) ->
        forall options history,
          getPastEvents this eventName options history
          = (Throw (Error ("Event " +:+ eventName +:+ " not found in ABI")),
             history)).
Proof.
  split.
  - intros this method H args options history.
    pose proof (find_entry_absent KFunction (abi this) method H) as E.
    unfold call, send, estimateGas. rewrite E. repeat split.
  - intros this eventName H options history.
    pose proof (find_entry_absent KEvent (abi this) eventName H) as E.
    unfold getPastEvents. now rewrite E.
Qed.

Lemma C5_name_not_found_witness :
  call (erc20 silent_client) "mint" [VBigInt 1] no_options []
  = (Throw (Error "Method mint not found in ABI"), [])
  /\ getPastEvents (erc20 silent_client) "Approval" no_filter []
     = (Throw (Error "Event Approval not found in ABI"), []).
Proof.
  split.
  - apply (proj1 C5_name_not_found (erc20 silent_client) "mint").
    repeat constructor; discriminate.
  - apply (proj2 C5_name_not_found (erc20 silent_client) "Approval").
    repeat constructor; discriminate.
Defined.

(** A name the ABI has reaches the node: one [eth_call] is issued. *)
Example call_found_issues_request :
  snd (call (erc20 silent_client) "transfer"
         [VString "0x5aaeb6053f3e94c9b9a09f33669435e7ef1beaed"; VBigInt 100]
         no_options [])
  = [ EthCall "0x00000000000000000000000000000000000000aa"
        ("0xa9059cbb"
           +:+ "0000000000000000000000005aaeb6053f3e94c9b9a09f33669435e7ef1beaed"
           +:+ "0000000000000000000000000000000000000000000000000000000000000064")
        None None ].
Proof. vm_compute. reflexivity. Qed.

End Lookup.

(** ** RLP numbers (C8) *)

Section RlpNumbers.
Import Js Utils.

Lemma toRlpNumber_toBytes value :
  Wallet.toRlpNumber value
  = let* num := BigInt value in Normal (Rlp.toBytes num).
Proof.
  unfold Wallet.toRlpNumber, Rlp.toBytes, Rlp.numberToHex.
  assert (match value with
          | VString s => if startsWith s "0x" then BigInt value else BigInt value
          | _ => BigInt value
          end = BigInt value) as ->.
  { destruct value as [| | | | |s]; try reflexivity.
    now destruct (startsWith s "0x"). }
  destruct (BigInt value) as [num| |]; cbn [bindC]; try reflexivity.
  destruct (num =? 0); [reflexivity |].
  now destruct (len (toString num 16) mod 2 =? 0).
Qed.

Lemma be_value_cons b bytes :
  be_value (b :: bytes)
  = byte_val b * 256 ^ Z.of_nat (length bytes) + be_value bytes.
Proof.
  unfold be_value at 1. cbn [fold_left]. rewrite be_value_acc. lia.
Qed.

Lemma be_value_bound bytes :
  0 <= be_value bytes < 256 ^ Z.of_nat (length bytes).
Proof.
  induction bytes as [|b bytes IH]; [cbn; lia |].
  rewrite be_value_cons. pose proof (byte_val_bound b).
  cbn [length]. rewrite Nat2Z.inj_succ, Z.pow_succ_r by lia. nia.
Qed.

(** The hex digits [toBytes] reads: an even number of them, spelling [n],
    at most one of them a padding zero. *)
Lemma numberToHex_numeral n :
  0 < n ->
  let hex := Rlp.numberToHex n in
  len hex mod 2 = 0 /\ all_digits 16 hex 0 = Some n
  /\ 16 ^ (len hex - 2) <= n.
Proof.
  intros Hn. cbv zeta. unfold Rlp.numberToHex.
  destruct (toString_numeral 16 n ltac:(lia) ltac:(lia))
    as [Hv Hne _ Hlo].
  specialize (Hlo Hn).
  assert (Hmono : forall a b, 0 <= a <= b -> 16 ^ a <= 16 ^ b)
    by (intros; apply Z.pow_le_mono_r; lia).
  destruct (Z.eqb_spec (len (toString n 16) mod 2) 0) as [E|E].
  - split; [exact E |]. split; [rewrite Hv; f_equal; lia |].
    destruct (Z.eq_dec (len (toString n 16)) 1) as [E1|E1].
    + rewrite E1 in E. discriminate E.
    + specialize (Hmono (len (toString n 16) - 2) (len (toString n 16) - 1)).
      lia.
  - change ("0" +:+ toString n 16) with (String "0" (toString n 16)).
    rewrite len_String. split; [| split].
    + pose proof (Z.mod_pos_bound (len (toString n 16)) 2 ltac:(lia)).
      assert (Hodd : len (toString n 16) mod 2 = 1) by lia.
      now rewrite Z.add_mod, Hodd by lia.
    + change (String "0" (toString n 16))
        with (replicate 1 "0" +:+ toString n 16).
      rewrite all_digits_zeros by lia. rewrite Hv; f_equal; lia.
    + replace (1 + len (toString n 16) - 2) with (len (toString n 16) - 1)
        by lia.
      exact Hlo.
Qed.

(** [toBytes] gives the shortest big-endian bytes of a positive number. *)
Lemma toBytes_minimal n :
  0 < n ->
  let bytes := Rlp.toBytes n in
  be_value bytes = n
  /\ 256 ^ (Z.of_nat (length bytes) - 1) <= n
  /\ hd x00 bytes <> x00.
Proof.
  intros Hn. cbv zeta. unfold Rlp.toBytes.
  destruct (Z.eqb_spec n 0); [lia |].
  destruct (numberToHex_numeral n Hn) as (Heven & Hv & Hlo).
  set (hex := Rlp.numberToHex n) in *.
  rewrite hexToBytes_cells
    by (eapply digits_not_0x, all_digits_digits_only, Hv).
  destruct (hex_cells_value hex Heven 0 n Hv) as [Hlen Hval].
  assert (Hbe : be_value (hex_cells hex) = n) by lia.
  assert (Hk : len hex = 2 * Z.of_nat (length (hex_cells hex))).
  { rewrite Hlen. pose proof (Z.div_mod (len hex) 2 ltac:(lia)). lia. }
  assert (Hpos : (0 < length (hex_cells hex))%nat).
  { destruct (hex_cells hex); [cbn in Hbe; lia | cbn; lia]. }
  assert (Hlow : 256 ^ (Z.of_nat (length (hex_cells hex)) - 1) <= n).
  { change 256 with (16 ^ 2). rewrite <- Z.pow_mul_r by lia.
    replace (2 * (Z.of_nat (length (hex_cells hex)) - 1)) with (len hex - 2)
      by lia.
    exact Hlo. }
  split; [exact Hbe |]. split; [exact Hlow |].
  destruct (hex_cells hex) as [|b bytes]; [cbn in Hpos; lia |].
  cbn [hd]. intros ->. rewrite be_value_cons in Hbe.
  change (byte_val x00) with 0 in Hbe.
  pose proof (be_value_bound bytes) as Hb.
  cbn [length] in Hlow.
  replace (Z.of_nat (S (length bytes)) - 1) with (Z.of_nat (length bytes))
    in Hlow by lia.
  lia.
Qed.

Lemma digit_not_sign radix c d x :
  digit_in radix c = Some d -> digit_value x = None -> Ascii.eqb c x = false.
Proof.
  intros Hc Hx. destruct (Ascii.eqb_spec c x) as [->|]; [| reflexivity].
  unfold digit_in in Hc. now rewrite Hx in Hc.
Qed.

Lemma digits_no_radix_prefix c r x :
  digits_only 10 (String c r) = true -> digit_in 10 x = None ->
  String.prefix (String "0" (String x EmptyString)) (String c r) = false.
Proof.
  intros H Hx. rewrite prefix_cons.
  destruct (ascii_dec "0" c); [| reflexivity].
  destruct r as [|c2 r]; [reflexivity |].
  rewrite prefix_cons. destruct (ascii_dec x c2) as [<-|]; [| reflexivity].
  cbn in H. destruct (digit_in 10 c); [| discriminate].
  now rewrite Hx in H.
Qed.

(** [BigInt] of a decimal numeral and of a [0x] hex numeral. *)
Lemma BigInt_decimal s v :
  digits_value 10 s = Some v -> BigInt (VString s) = Normal v.
Proof.
  intros Hv. unfold digits_value in Hv.
  destruct s as [|c r]; [discriminate |].
  pose proof (all_digits_digits_only _ _ _ _ Hv) as Hd.
  cbn [BigInt]. unfold StringToBigInt.
  rewrite trim_no_space by (eapply digits_only_no_space, Hd).
  assert (exists d, digit_in 10 c = Some d) as [d Hc].
  { cbn in Hd. destruct (digit_in 10 c); [eauto | discriminate]. }
  rewrite (digit_not_sign 10 c d "-" Hc), (digit_not_sign 10 c d "+" Hc)
    by reflexivity.
  rewrite !(digits_no_radix_prefix c r) by (exact Hd || reflexivity).
  cbn [orb]. unfold digits_value. now rewrite Hv.
Qed.

Lemma BigInt_hex w v :
  digits_value 16 w = Some v -> BigInt (VString ("0x" +:+ w)) = Normal v.
Proof.
  intros Hv. unfold digits_value in Hv.
  destruct w as [|c r] eqn:E; [discriminate |].
  apply BigInt_of_word_value; [discriminate | exact Hv].
Qed.

(** C8. [toRlpNumber] maps a Number, a BigInt, a decimal string or a [0x]
    hex string of value 0 to the empty byte string, and one of positive
    value to its shortest big-endian bytes, with no leading zero byte. *)
Theorem C8_toRlpNumber :
  (forall value num,
     BigInt value = Normal num -> 0 <= num ->
     exists bytes,
       Wallet.toRlpNumber value = Normal bytes
       /\ be_value bytes = num
       /\ (num = 0 -> bytes = [])
       /\ (0 < num ->
           256 ^ (Z.of_nat (length bytes) - 1) <= num
           /\ hd x00 bytes <> x00))
  /\ (forall num decimal hex,
        digits_value 10 decimal = Some num ->
        digits_value 16 hex = Some num ->
        BigInt (VNumber num) = Normal num
        /\ BigInt (VBigInt num) = Normal num
        /\ BigInt (VString decimal) = Normal num
        /\ BigInt (VString ("0x" +:+ hex)) = Normal num).
Proof.
  split.
  - intros value num Hvalue Hnum. exists (Rlp.toBytes num).
    rewrite toRlpNumber_toBytes, Hvalue. split; [reflexivity |].
    destruct (Z.eq_dec num 0) as [->|Hnz].
    + repeat split; try reflexivity; lia.
    + destruct (toBytes_minimal num ltac:(lia)) as (Hbe & Hlow & Hhd).
      repeat split; try assumption; lia.
  - intros num decimal hex Hdec Hhex. repeat split.
    + now apply BigInt_decimal.
    + now apply BigInt_hex.
Qed.

(** The default gas price, a decimal gas limit and the value zero. *)
Lemma C8_toRlpNumber_witness :
  (exists bytes,
     Wallet.toRlpNumber (VString "0x3B9ACA00") = Normal bytes
     /\ be_value bytes = 1000000000
     /\ (1000000000 = 0 -> bytes = [])
     /\ (0 < 1000000000 ->
         256 ^ (Z.of_nat (length bytes) - 1) <= 1000000000
         /\ hd x00 bytes <> x00))
  /\ BigInt (VString "21000") = Normal 21000.
Proof.
  split.
  - apply (proj1 C8_toRlpNumber (VString "0x3B9ACA00") 1000000000);
      [reflexivity | lia].
  - apply (proj2 C8_toRlpNumber 21000 "21000" "5208"); reflexivity.
Defined.

Example toRlpNumber_default_gas_price :
  Wallet.toRlpNumber (VString "0x3B9ACA00")
  = Normal [byte_of_Z 0x3b; byte_of_Z 0x9a; byte_of_Z 0xca; byte_of_Z 0x00].
Proof. vm_compute. reflexivity. Qed.

Example toRlpNumber_zero : Wallet.toRlpNumber (VNumber 0) = Normal [].
Proof. reflexivity. Qed.

End RlpNumbers.

(** ** Personal signatures (C7) *)

Section Signatures.
Import Js Utils.

Lemma hex_cells_hex_byte b rest :
  hex_cells (padStart (toString (byte_val b) 16) 2 "0" +:+ rest)
  = b :: hex_cells rest.
Proof. destruct b; reflexivity. Qed.

Lemma hex_of_bytes_not_0x bytes : startsWith (hex_of_bytes bytes) "0x" = false.
Proof.
  destruct bytes as [|b bytes]; [reflexivity |].
  cbn [hex_of_bytes]. generalize (hex_of_bytes bytes). intros rest.
  destruct b; reflexivity.
Qed.

(** Reading back the hex of a byte string gives the bytes. *)
Lemma hexToBytes_hex_of_bytes bytes : hexToBytes (hex_of_bytes bytes) = bytes.
Proof.
  rewrite hexToBytes_cells by apply hex_of_bytes_not_0x.
  induction bytes as [|b bytes IH]; [reflexivity |].
  cbn [hex_of_bytes]. now rewrite hex_cells_hex_byte, IH.
Qed.

Lemma digest_of_hash message :
  hexToBytes (Keccak.keccak256_bytes message) = Keccak.digest message.
Proof. apply hexToBytes_hex_of_bytes. Qed.

Lemma utf8_encode_append a b :
  utf8_encode (a +:+ b) = utf8_encode a ++ utf8_encode b.
Proof.
  induction a as [|c a IH]; [reflexivity |].
  rewrite append_cons. cbn [utf8_encode]. rewrite IH.
  now destruct (code c <? 128).
Qed.

Lemma hex_of_one_byte z :
  0 <= z < 256 ->
  padStart (toString z 16) 2 "0" = hex_of_bytes [byte_of_Z z].
Proof.
  intros Hz. cbn [hex_of_bytes].
  now rewrite append_empty_r, byte_val_of_Z, Z.mod_small by lia.
Qed.

(** C7. [sign(m)] hashes with Keccak-256 the bytes of the prefix
    ["\x19Ethereum Signed Message:\n"] (the byte 0x19, the 24 characters
    of the text and the byte 0x0a), of the decimal byte length of [m] and
    of [m]; signs the hash; and returns the hex of the 65 bytes [r]
    (32 bytes), [s] (32 bytes) and [recoveryId + 27] (one byte). *)
Theorem C7_sign :
  forall (ecdsaSign : list byte -> list byte -> Completion (list byte * Z))
         (this : WalletData) (message : Wallet.Message) signature recid,
    let messageBytes :=
      match message with
      | Wallet.Text s => utf8_encode s
      | Wallet.Raw bytes => bytes
      end in
    let prefixBytes :=
      map byte_of_Z
        [ 25; 69; 116; 104; 101; 114; 101; 117; 109; 32; 83; 105; 103; 110;
          101; 100; 32; 77; 101; 115; 115; 97; 103; 101; 58; 10 ] in
    let hash :=
      Keccak.digest
        (prefixBytes
           ++ utf8_encode (toString (Z.of_nat (length messageBytes)) 10)
           ++ messageBytes) in
    ecdsaSign hash (hexToBytes (slice_from (wallet_privateKey this) (Int 2)))
    = Normal (signature, recid) ->
    length signature = 64%nat -> 0 <= recid <= 3 ->
    Wallet.sign ecdsaSign this message
    = Normal (bytesToHex (signature_bytes signature recid))
    /\ length (signature_bytes signature recid) = 65%nat
    /\ firstn 32 signature ++ skipn 32 signature = signature
    /\ prefixBytes
       = [byte_of_Z 0x19]
           ++ map (fun c => byte_of_Z (code c))
                (list_ascii_of_string "Ethereum Signed Message:")
           ++ [byte_of_Z 0x0a].
Proof.
  intros ecdsaSign this message signature recid messageBytes prefixBytes hash
    Hsign Hlen Hrecid.
  split; [| split; [| split]].
  - unfold Wallet.sign. fold messageBytes.
    rewrite digest_of_hash, utf8_encode_append, <- app_assoc.
    assert (Hprefix : utf8_encode Wallet.message_prefix = prefixBytes)
      by (vm_compute; reflexivity).
    rewrite Hprefix. fold hash.
    rewrite Hsign. cbn [bindC].
    unfold bytesToHex. rewrite slice_from_0x.
    rewrite hex_of_one_byte by lia.
    assert (firstn 32 (skipn 32 signature) = skipn 32 signature) as ->
      by (apply firstn_all2; rewrite length_skipn; lia).
    unfold signature_bytes. rewrite !hex_of_bytes_app.
    now rewrite append_assoc.
  - unfold signature_bytes.
    rewrite !length_app, length_firstn, length_skipn, Hlen. reflexivity.
  - apply firstn_skipn.
  - vm_compute. reflexivity.
Qed.

Lemma C7_sign_witness :
  Wallet.sign fixed_signer test_wallet (Wallet.Text "hello")
  = Normal
      (bytesToHex
         (signature_bytes
            (repeat (byte_of_Z 0x11) 32 ++ repeat (byte_of_Z 0x22) 32) 1)).
Proof.
  apply (C7_sign fixed_signer test_wallet (Wallet.Text "hello")
           (repeat (byte_of_Z 0x11) 32 ++ repeat (byte_of_Z 0x22) 32) 1);
    [reflexivity | reflexivity | lia].
Defined.

Example sign_hello :
  Wallet.sign fixed_signer test_wallet (Wallet.Text "hello")
  = Normal ("0x" +:+ replicate 64 "1" +:+ replicate 64 "2" +:+ "1c").
Proof. vm_compute. reflexivity. Qed.

End Signatures.

(** ** Signed transactions (C2) *)

Section Transactions.
Import Js Utils.











Example rlp_fixtures :
  Rlp.encode (Rlp.Bytes []) = Normal [byte_of_Z 0x80]
  /\ Rlp.encode (Rlp.List []) = Normal [byte_of_Z 0xc0].
Proof. split; vm_compute; reflexivity. Qed.

End Transactions.

(** * Further properties of the SDK *)

(** ** Decimal amounts: [toWei], [fromWei], [parseAmount], [formatAmount] *)

Section Amounts.
Import Js Utils.

Lemma digit_in_bound radix c d : digit_in radix c = Some d -> 0 <= d < radix.
Proof.
  unfold digit_in, digit_value.
  destruct ((48 <=? code c) && (code c <=? 57)) eqn:H1;
    [| destruct ((97 <=? code c) && (code c <=? 122)) eqn:H2;
       [| destruct ((65 <=? code c) && (code c <=? 90)) eqn:H3; [| discriminate]]].
  all: match goal with
       | |- (if ?b then _ else _) = _ -> _ =>
           destruct (Z.ltb_spec (code c - 48) radix);
           destruct (Z.ltb_spec (code c - 87) radix);
           destruct (Z.ltb_spec (code c - 55) radix)
       end; intros [= <-]; lia.
Qed.

Lemma all_digits_value radix s :
  1 <= radix ->
  forall acc v,
    all_digits radix s acc = Some v ->
    exists u,
      0 <= u < radix ^ len s /\ v = acc * radix ^ len s + u
      /\ forall acc', all_digits radix s acc' = Some (acc' * radix ^ len s + u).
Proof.
  intros Hr. induction s as [| c s IH]; intros acc v H.
  - cbn in H. injection H as <-. exists 0. change (len EmptyString) with 0.
    rewrite Z.pow_0_r. repeat split; try lia. intros acc'. cbn. f_equal. lia.
  - cbn [all_digits] in *. destruct (digit_in radix c) as [d |] eqn:Hd; [| discriminate].
    apply digit_in_bound in Hd.
    destruct (IH _ _ H) as (u & Hu & Hv & Hall).
    pose proof (len_nonneg s) as Hl.
    assert (Hp : radix ^ len (String c s) = radix * radix ^ len s).
    { rewrite len_String, Z.pow_add_r, Z.pow_1_r by lia. reflexivity. }
    exists (d * radix ^ len s + u). rewrite Hp. repeat split.
    + nia.
    + nia.
    + lia.
    + intros acc'. rewrite Hall. f_equal. ring.
Qed.

Lemma all_digits_replicate_zero radix k acc :
  1 <= radix ->
  all_digits radix (replicate k "0") acc = Some (acc * radix ^ Z.of_nat k).
Proof.
  intros Hr. revert acc. induction k as [| k IH]; intros acc.
  - cbn. f_equal. lia.
  - cbn [replicate all_digits]. unfold digit_in.
    change (digit_value "0") with (Some 0). cbv beta iota.
    destruct (Z.ltb_spec 0 radix); [| lia].
    rewrite IH, Nat2Z.inj_succ, Z.pow_succ_r by lia. f_equal. ring.
Qed.

Lemma digits_only_all_digits radix s :
  digits_only radix s = true -> forall acc, exists v, all_digits radix s acc = Some v.
Proof.
  induction s as [| c s IH]; intros H acc; cbn in *.
  - eauto.
  - destruct (digit_in radix c); [apply IH, H | discriminate].
Qed.

Lemma split_digits radix a : digits_only radix a = true -> split "." a = [a].
Proof.
  induction a as [| c a IH]; intros H; cbn [split digits_only] in *; [reflexivity |].
  destruct (digit_in radix c) as [d |] eqn:Hd; [| discriminate].
  rewrite (digit_not_sign radix c d "." Hd eq_refl), (IH H). reflexivity.
Qed.

Lemma split_point radix a b :
  digits_only radix a = true ->
  split "." (a +:+ String "." b) = a :: split "." b.
Proof.
  induction a as [| c a IH]; intros H; cbn [digits_only] in *.
  - rewrite append_nil_l. reflexivity.
  - rewrite append_cons. cbn [split].
    destruct (digit_in radix c) as [d |] eqn:Hd; [| discriminate].
    rewrite (digit_not_sign radix c d "." Hd eq_refl), (IH H). reflexivity.
Qed.

Lemma strip_trailing_zeros_spec s :
  exists k, s = strip_trailing_zeros s +:+ replicate k "0".
Proof.
  induction s as [| c s [k IH]].
  - exists O. reflexivity.
  - cbn [strip_trailing_zeros].
    destruct (strip_trailing_zeros s) as [| d t] eqn:Ht.
    + rewrite append_nil_l in IH.
      destruct (Ascii.eqb_spec c "0") as [-> | _].
      * exists (S k). rewrite append_nil_l, IH. reflexivity.
      * exists k. rewrite append_cons, append_nil_l, IH. reflexivity.
    + exists k. rewrite append_cons, <- IH. reflexivity.
Qed.

Lemma len_padEnd s n c : len (padEnd s n c) = Z.max n (len s).
Proof.
  unfold padEnd. rewrite len_append, len_replicate.
  pose proof (len_nonneg s). lia.
Qed.

Lemma take_drop n s : take n s +:+ drop n s = s.
Proof.
  revert s. induction n as [| n IH]; intros [| c s]; cbn [take drop];
    rewrite ?append_nil_l, ?append_cons, ?IH; reflexivity.
Qed.

Lemma length_take n s : (n <= String.length s)%nat -> String.length (take n s) = n.
Proof.
  revert s. induction n as [| n IH]; intros [| c s] H; cbn in *; try lia.
  rewrite IH; lia.
Qed.

Lemma slice_take s n :
  0 <= n <= len s -> slice s (Int 0) (Int n) = take (Z.to_nat n) s.
Proof.
  intros H. unfold slice, rel_index.
  destruct (Z.ltb_spec 0 0); [lia |].
  destruct (Z.ltb_spec n 0); [lia |].
  rewrite (Z.min_l 0), (Z.min_l n) by lia.
  change (Z.to_nat 0) with O. rewrite drop_zero, Z.sub_0_r. reflexivity.
Qed.

(** The amount a decimal numeral [a.b] stands for at [dec] places: the
    digits of [b] beyond the [dec]-th are dropped. *)
Lemma decimal_units dec a b A B :
  1 <= dec ->
  all_digits 10 a 0 = Some A -> all_digits 10 b 0 = Some B ->
  digits_value 10 (a +:+ slice (padEnd b dec "0") (Int 0) (Int dec))
  = Some (A * 10 ^ dec
          + (if len b <=? dec then B * 10 ^ (dec - len b)
             else B / 10 ^ (len b - dec))).
Proof.
  intros Hdec HA HB.
  pose proof (len_nonneg b) as Hlb.
  assert (Hne : forall x, 1 <= len x -> digits_value 10 (a +:+ x) = all_digits 10 (a +:+ x) 0).
  { intros x Hx. destruct a; [destruct x; [change (len EmptyString) with 0 in Hx; lia | reflexivity] | reflexivity]. }
  destruct (all_digits_value 10 a ltac:(lia) _ _ HA) as (ua & _ & HuA & HallA).
  destruct (all_digits_value 10 b ltac:(lia) _ _ HB) as (ub & Hub & HuB & HallB).
  assert (ua = A) by lia. subst ua. assert (ub = B) by lia. subst ub.
  destruct (Z.leb_spec (len b) dec) as [Hle | Hgt].
  - assert (Hlen : len (padEnd b dec "0") = dec).
    { unfold padEnd. rewrite len_append, len_replicate. lia. }
    rewrite slice_whole by lia. rewrite Hne by lia.
    unfold padEnd. rewrite all_digits_append, HA, all_digits_append, HallB.
    rewrite all_digits_replicate_zero by lia. f_equal.
    rewrite Z2Nat.id by lia.
    replace dec with (len b + (dec - len b)) at 2 by lia.
    rewrite Z.pow_add_r by lia. cbn. ring.
  - assert (Hpad : padEnd b dec "0" = b).
    { unfold padEnd. replace (Z.to_nat (dec - len b)) with O by lia.
      apply append_empty_r. }
    rewrite Hpad, slice_take by lia.
    assert (Hlt : len (take (Z.to_nat dec) b) = dec).
    { unfold len. rewrite length_take; unfold len in *; lia. }
    rewrite Hne by lia.
    pose proof (take_drop (Z.to_nat dec) b) as Hsplit.
    rewrite <- Hsplit in HB. rewrite all_digits_append in HB.
    destruct (all_digits 10 (take (Z.to_nat dec) b) 0) as [B1 |] eqn:H1;
      [| discriminate].
    rewrite all_digits_append, HA.
    destruct (all_digits_value 10 _ ltac:(lia) _ _ H1) as (u1 & Hu1 & Hv1 & Hall1).
    assert (u1 = B1) by lia. subst u1.
    rewrite Hall1, Hlt.
    destruct (all_digits_value 10 _ ltac:(lia) _ _ HB) as (u2 & Hu2 & Hv2 & _).
    assert (Hld : len (drop (Z.to_nat dec) b) = len b - dec).
    { pose proof (f_equal len Hsplit) as Hl. rewrite len_append in Hl. lia. }
    rewrite Hld in *. f_equal. f_equal.
    apply (Z.div_unique_pos _ _ _ u2); lia.
Qed.

Lemma BigInt_negative s v :
  digits_value 10 s = Some v -> BigInt (VString (String "-" s)) = Normal (- v).
Proof.
  intros H. unfold BigInt, StringToBigInt.
  assert (Hs : no_space (String "-" s) = true).
  { destruct s as [| c s]; [discriminate |]. unfold digits_value in H.
    apply all_digits_digits_only, digits_only_no_space in H.
    cbn [no_space] in *. rewrite H. reflexivity. }
  rewrite (trim_no_space _ Hs). change (Ascii.eqb "-" "-") with true.
  cbv beta iota. rewrite H. reflexivity.
Qed.

(** The text [a.b], cut at its dots and read at [dec] places. *)
Lemma units_of_point dec a b A B rest :
  1 <= dec ->
  all_digits 10 a 0 = Some A -> all_digits 10 b 0 = Some B ->
  split "." b = b :: rest ->
  let parts := split "." (a +:+ "." +:+ b) in
  digits_value 10
    (hd EmptyString parts
       +:+ slice (padEnd (nth 1 parts EmptyString) dec "0") (Int 0) (Int dec))
  = Some (A * 10 ^ dec
          + (if len b <=? dec then B * 10 ^ (dec - len b)
             else B / 10 ^ (len b - dec))).
Proof.
  intros Hdec HA HB Hb parts. subst parts.
  change ("." +:+ b) with (String "." b).
  rewrite (split_point 10) by (eapply all_digits_digits_only, HA).
  rewrite Hb. cbn [hd nth]. apply decimal_units; assumption.
Qed.

Lemma units_of_whole dec a A :
  1 <= dec -> all_digits 10 a 0 = Some A ->
  let parts := split "." a in
  digits_value 10
    (hd EmptyString parts
       +:+ slice (padEnd (nth 1 parts EmptyString) dec "0") (Int 0) (Int dec))
  = Some (A * 10 ^ dec).
Proof.
  intros Hdec HA parts. subst parts.
  rewrite (split_digits 10) by (eapply all_digits_digits_only, HA).
  cbn [hd nth].
  rewrite (decimal_units dec a EmptyString A 0 Hdec HA eq_refl).
  change (len EmptyString) with 0.
  destruct (Z.leb_spec 0 dec); [| lia]. f_equal. lia.
Qed.

(** What [fromWei] and [formatAmount] print for [w] at [dec] places reads
    back as [w]. *)
Lemma printed_units dec w :
  1 <= dec -> 0 <= w ->
  let whole := Z.quot w (10 ^ dec) in
  let fraction := Z.rem w (10 ^ dec) in
  let text :=
    if fraction =? 0 then toString whole 10
    else toString whole 10 +:+ "."
           +:+ strip_trailing_zeros (padStart (toString fraction 10) dec "0") in
  let parts := split "." text in
  digits_value 10
    (hd EmptyString parts
       +:+ slice (padEnd (nth 1 parts EmptyString) dec "0") (Int 0) (Int dec))
  = Some w.
Proof.
  intros Hdec Hw whole fraction text.
  assert (Hpos : 0 < 10 ^ dec) by (apply Z.pow_pos_nonneg; lia).
  assert (Hq : whole = w / 10 ^ dec) by (apply Z.quot_div_nonneg; lia).
  assert (Hr : fraction = w mod 10 ^ dec) by (apply Z.rem_mod_nonneg; lia).
  pose proof (Z.div_mod w (10 ^ dec) ltac:(lia)) as Hdm.
  pose proof (Z.mod_pos_bound w (10 ^ dec) Hpos) as Hrb.
  assert (0 <= whole) by (rewrite Hq; apply Z.div_pos; lia).
  destruct (toString_numeral 10 whole ltac:(lia) ltac:(lia)) as [Hwv _ _ _].
  specialize (Hwv 0). rewrite Z.mul_0_l, Z.add_0_l in Hwv.
  subst text. destruct (Z.eqb_spec fraction 0) as [Hz | Hnz].
  - intros parts. subst parts. rewrite (units_of_whole dec _ _ Hdec Hwv).
    f_equal. lia.
  - set (fractionStr := padStart (toString fraction 10) dec "0").
    destruct (strip_trailing_zeros_spec fractionStr) as [k Hk].
    set (trimmed := strip_trailing_zeros fractionStr) in *.
    destruct (toString_numeral 10 fraction ltac:(lia) ltac:(lia)) as [Hfv _ _ _].
    assert (Hfs : all_digits 10 fractionStr 0 = Some fraction).
    { unfold fractionStr, padStart. rewrite all_digits_zeros by lia.
      rewrite Hfv. reflexivity. }
    assert (Hfl : len fractionStr = dec).
    { unfold fractionStr. rewrite len_padStart.
      pose proof (toString_len 10 fraction dec ltac:(lia) ltac:(lia) Hdec). lia. }
    rewrite Hk, all_digits_append in Hfs.
    destruct (all_digits 10 trimmed 0) as [T |] eqn:HT; [| discriminate].
    rewrite all_digits_replicate_zero in Hfs by lia. injection Hfs as Hfs.
    rewrite Hk, len_append, len_replicate in Hfl.
    pose proof (len_nonneg trimmed).
    assert (Hsp : split "." trimmed = [trimmed]).
    { apply (split_digits 10). eapply all_digits_digits_only, HT. }
    intros parts. subst parts.
    rewrite (units_of_point dec _ _ _ _ _ Hdec Hwv HT Hsp).
    destruct (Z.leb_spec (len trimmed) dec); [| lia].
    replace (dec - len trimmed) with (Z.of_nat k) by lia.
    f_equal. lia.
Qed.

(** X1. [toWei] reads a decimal numeral [a.b] as [a] units and the first
    18 digits of [b] as the fraction: digits past the 18th are dropped, not
    rounded; a leading minus sign negates the whole amount; a numeral
    without a dot is a whole number of units; and what follows a second dot
    is ignored. *)
Theorem toWei_decimal a b A B :
  all_digits 10 a 0 = Some A -> all_digits 10 b 0 = Some B ->
  toWei (VString (a +:+ "." +:+ b))
  = Normal (A * 10 ^ 18
            + (if len b <=? 18 then B * 10 ^ (18 - len b)
               else B / 10 ^ (len b - 18)))
  /\ toWei (VString ("-" +:+ a +:+ "." +:+ b))
     = Normal (- (A * 10 ^ 18
                  + (if len b <=? 18 then B * 10 ^ (18 - len b)
                     else B / 10 ^ (len b - 18))))
  /\ toWei (VString a) = Normal (A * 10 ^ 18)
  /\ forall c, toWei (VString (a +:+ "." +:+ b +:+ "." +:+ c))
               = toWei (VString (a +:+ "." +:+ b)).
Proof.
  intros HA HB.
  assert (Hda : digits_only 10 a = true) by (eapply all_digits_digits_only, HA).
  assert (Hdb : digits_only 10 b = true) by (eapply all_digits_digits_only, HB).
  pose proof (units_of_point 18 a b A B [] ltac:(lia) HA HB
                (split_digits 10 b Hdb)) as Hpoint.
  cbv zeta in Hpoint.
  repeat split.
  - unfold toWei, ToString. cbn [bindC]. apply BigInt_decimal, Hpoint.
  - unfold toWei, ToString. cbn [bindC].
    change ("-" +:+ a +:+ "." +:+ b) with (String "-" (a +:+ String "." b)).
    change ("." +:+ b) with (String "." b) in Hpoint.
    cbn [split]. change (Ascii.eqb "-" ".") with false. cbv beta iota.
    rewrite (split_point 10 a b Hda) in *.
    cbn [hd nth] in *. rewrite append_cons.
    apply BigInt_negative, Hpoint.
  - unfold toWei, ToString. cbn [bindC].
    apply BigInt_decimal, (units_of_whole 18 a A); [lia | exact HA].
  - intros c. unfold toWei, ToString. cbn [bindC].
    change ("." +:+ b +:+ "." +:+ c) with (String "." (b +:+ String "." c)).
    change ("." +:+ b) with (String "." b).
    rewrite !(split_point 10 a) by exact Hda.
    rewrite (split_point 10 b c Hdb), (split_digits 10 b Hdb). reflexivity.
Qed.

Lemma toWei_decimal_witness :
  toWei (VString "1.5") = Normal 1500000000000000000
  /\ toWei (VString "0.0000000000000000019") = Normal 1.
Proof.
  split.
  - apply (toWei_decimal "1" "5" 1 5); reflexivity.
  - apply (toWei_decimal "0" "0000000000000000019" 0 19); reflexivity.
Defined.

(** X2. [toWei(fromWei(wei))] is [wei] for every amount that is not
    negative, whatever form [wei] is given in. *)
Theorem fromWei_toWei wei w :
  BigInt wei = Normal w -> 0 <= w ->
  exists text, fromWei wei = Normal text /\ toWei (VString text) = Normal w.
Proof.
  intros Hwei Hw. unfold fromWei. rewrite Hwei. cbn [bindC].
  change WEI_PER_NPY with (10 ^ 18).
  pose proof (printed_units 18 w ltac:(lia) Hw) as Hprint. cbv zeta in Hprint.
  destruct (Z.rem w (10 ^ 18) =? 0); eexists; (split; [reflexivity |]);
    unfold toWei, ToString; cbn [bindC]; apply BigInt_decimal, Hprint.
Qed.

Lemma fromWei_toWei_witness :
  exists text,
    fromWei (VString "0x14d1120d7b160000") = Normal text
    /\ toWei (VString text) = Normal 1500000000000000000.
Proof. apply fromWei_toWei; [reflexivity | lia]. Defined.

Example fromWei_fraction :
  fromWei (VBigInt 1500000000000000000) = Normal "1.5"
  /\ fromWei (VBigInt 1) = Normal "0.000000000000000001"
  /\ fromWei (VBigInt 2000000000000000000) = Normal "2".
Proof. repeat split; vm_compute; reflexivity. Qed.

(** X3. The token helper: [parseAmount(formatAmount(amount, decimals),
    decimals)] is [amount] for every amount that is not negative, at any
    number of decimals from 1 to 22; a [decimals] of 0 counts as absent. *)
Theorem formatAmount_parseAmount (this : ERC20.t) decimals amount :
  1 <= ERC20.decimals_or_default this decimals <= 22 -> 0 <= amount ->
  (exists text,
     ERC20.formatAmount this amount decimals = Normal text
     /\ ERC20.parseAmount this (VString text) decimals = Normal amount)
  /\ ERC20.formatAmount this amount (Some 0)
     = ERC20.formatAmount this amount None
  /\ forall text,
       ERC20.parseAmount this (VString text) (Some 0)
       = ERC20.parseAmount this (VString text) None.
Proof.
  intros Hdec Hamount. split; [| split; [reflexivity | reflexivity]].
  unfold ERC20.formatAmount, ERC20.parseAmount, string_receiver.
  set (dec := ERC20.decimals_or_default this decimals) in *.
  destruct (Z.ltb_spec dec 0); [lia |].
  destruct (Z.ltb_spec 22 dec); [lia |].
  pose proof (printed_units dec amount ltac:(lia) Hamount) as Hprint.
  cbv zeta in Hprint.
  destruct (Z.rem amount (10 ^ dec) =? 0); eexists; (split; [reflexivity |]);
    cbn [bindC]; apply BigInt_decimal, Hprint.
Qed.

Lemma formatAmount_parseAmount_witness :
  exists text,
    ERC20.formatAmount (ERC20.new "0x00000000000000000000000000000000000000aa"
                          silent_client) 1500000 (Some 6)
    = Normal text
    /\ ERC20.parseAmount (ERC20.new "0x00000000000000000000000000000000000000aa"
                            silent_client) (VString text) (Some 6)
       = Normal 1500000.
Proof.
  apply (formatAmount_parseAmount
           (ERC20.new "0x00000000000000000000000000000000000000aa" silent_client)
           (Some 6) 1500000); [vm_compute; split; discriminate | lia].
Defined.

Lemma split_digits_then radix a rest :
  digits_only radix a = true ->
  split "." (a +:+ rest)
  = match split "." rest with
    | part :: parts => (a +:+ part) :: parts
    | [] => [a]
    end.
Proof.
  induction a as [| c a IH]; intros H; cbn [digits_only] in *.
  - rewrite append_nil_l. destruct (split "." rest) as [| part parts] eqn:E.
    + destruct rest; cbn [split] in E; [discriminate |].
      destruct (Ascii.eqb a "."); [discriminate |].
      destruct (split "." rest); discriminate.
    + rewrite append_nil_l. reflexivity.
  - rewrite append_cons. cbn [split].
    destruct (digit_in radix c) as [d |] eqn:Hd; [| discriminate].
    rewrite (digit_not_sign radix c d "." Hd eq_refl), (IH H).
    destruct (split "." rest); rewrite ?append_cons; reflexivity.
Qed.

Lemma split_signed radix a b :
  digits_only radix a = true -> digits_only radix b = true ->
  split "." (a +:+ String "-" b) = [a +:+ String "-" b].
Proof.
  intros Ha Hb. rewrite (split_digits_then radix) by exact Ha.
  cbn [split]. change (Ascii.eqb "-" ".") with false. cbv beta iota.
  rewrite (split_digits radix b Hb). reflexivity.
Qed.

Lemma strip_trailing_zeros_keeps a c b :
  c <> "0"%char ->
  strip_trailing_zeros (a +:+ String c b)
  = a +:+ String c (strip_trailing_zeros b).
Proof.
  intros Hc. induction a as [| x a IH].
  - rewrite !append_nil_l. cbn [strip_trailing_zeros].
    destruct (strip_trailing_zeros b); [| reflexivity].
    destruct (Ascii.eqb_spec c "0"); [contradiction | reflexivity].
  - rewrite !append_cons. cbn [strip_trailing_zeros]. rewrite IH.
    destruct a; reflexivity.
Qed.

Lemma digits_only_strip radix s :
  digits_only radix s = true -> digits_only radix (strip_trailing_zeros s) = true.
Proof.
  induction s as [| c s IH]; intros H; [reflexivity |].
  cbn [digits_only strip_trailing_zeros] in *.
  destruct (digit_in radix c) eqn:Hc; [| discriminate].
  specialize (IH H). destruct (strip_trailing_zeros s) as [| d t].
  - destruct (Ascii.eqb c "0"); [reflexivity |]. cbn [digits_only].
    rewrite Hc. reflexivity.
  - cbn [digits_only] in *. rewrite Hc. exact IH.
Qed.

Lemma digits_only_zeros radix k :
  1 <= radix -> digits_only radix (replicate k "0") = true.
Proof.
  intros Hr. induction k as [| k IH]; [reflexivity |].
  cbn [replicate digits_only]. unfold digit_in.
  change (digit_value "0") with (Some 0). cbv beta iota.
  destruct (Z.ltb_spec 0 radix); [exact IH | lia].
Qed.

Lemma all_digits_invalid_take radix c b :
  1 <= radix -> digit_in radix c = None ->
  forall k m acc,
    (k < m)%nat ->
    all_digits radix (take m (replicate k "0" +:+ String c b)) acc = None.
Proof.
  intros Hr Hc. induction k as [| k IH]; intros m acc Hm;
    (destruct m as [| m]; [lia |]).
  - rewrite append_nil_l. cbn [take all_digits]. rewrite Hc. reflexivity.
  - cbn [replicate]. rewrite append_cons. cbn [take all_digits].
    unfold digit_in. change (digit_value "0") with (Some 0). cbv beta iota.
    destruct (Z.ltb_spec 0 radix); [| lia]. apply IH. lia.
Qed.

Lemma no_space_take n s : no_space s = true -> no_space (take n s) = true.
Proof.
  revert s. induction n as [| n IH]; intros [| c s] H; try reflexivity.
  cbn [take no_space] in *. apply andb_prop in H as [-> H]. apply IH, H.
Qed.

Lemma toString_negative n radix :
  n < 0 -> toString n radix = String "-" (toString (- n) radix).
Proof.
  intros H. unfold toString.
  destruct (Z.ltb_spec n 0); [| lia]. destruct (Z.ltb_spec (- n) 0); [lia |].
  rewrite Z.abs_opp. reflexivity.
Qed.

Lemma toString_digits radix n :
  2 <= radix <= 36 -> 0 <= n ->
  digits_value radix (toString n radix) = Some n
  /\ digits_only radix (toString n radix) = true.
Proof.
  intros Hr Hn. destruct (toString_numeral radix n Hr Hn) as [Hv Hne _ _].
  specialize (Hv 0). rewrite Z.mul_0_l, Z.add_0_l in Hv. split.
  - destruct (toString n radix); [change (len EmptyString) with 0 in Hne; lia |].
    exact Hv.
  - eapply all_digits_digits_only, Hv.
Qed.

(** A decimal text with a minus sign after its first character is no
    BigInt. *)
Lemma BigInt_inner_sign c a k b :
  (c = "-"%char \/ exists d, digit_in 10 c = Some d) ->
  digits_only 10 a = true -> no_space b = true ->
  BigInt (VString (String c (a +:+ replicate k "0" +:+ String "-" b)))
  = Throw SyntaxError.
Proof.
  intros Hc Ha Hb.
  set (rest := a +:+ replicate k "0" +:+ String "-" b).
  assert (Hrest : forall acc, all_digits 10 rest acc = None).
  { intros acc. unfold rest. rewrite all_digits_append.
    destruct (all_digits 10 a acc) as [v |]; [| reflexivity].
    rewrite all_digits_append, all_digits_replicate_zero by lia. reflexivity. }
  assert (Hsr : no_space rest = true).
  { unfold rest. rewrite !no_space_append.
    rewrite (digits_only_no_space _ _ Ha).
    rewrite (digits_only_no_space _ _ (digits_only_zeros 10 k ltac:(lia))).
    cbn [no_space andb]. exact Hb. }
  assert (Hnone : digits_value 10 rest = None).
  { unfold digits_value. destruct rest; [reflexivity | apply Hrest]. }
  unfold BigInt, StringToBigInt. destruct Hc as [-> | [d Hd]].
  - rewrite trim_no_space by (cbn [no_space]; rewrite Hsr; reflexivity).
    change (Ascii.eqb "-" "-") with true. cbv beta iota.
    rewrite Hnone. reflexivity.
  - rewrite trim_no_space
      by (cbn [no_space]; rewrite Hsr, (digit_value_no_space c d);
          [reflexivity | unfold digit_in in Hd; destruct (digit_value c);
                           [destruct (_ <? 10); congruence | discriminate]]).
    rewrite (digit_not_sign 10 c d "-" Hd), (digit_not_sign 10 c d "+" Hd)
      by reflexivity.
    assert (Hp : forall x, digit_in 10 x = None -> x <> "-"%char ->
                 String.prefix (String "0" (String x EmptyString)) (String c rest)
                 = false).
    { intros x Hx Hminus. rewrite prefix_cons.
      destruct (ascii_dec "0" c); [| reflexivity].
      unfold rest. destruct a as [| y a].
      - rewrite append_nil_l. destruct k as [| k].
        + rewrite append_nil_l, prefix_cons.
          destruct (ascii_dec x "-"); [contradiction | reflexivity].
        + cbn [replicate]. rewrite append_cons, prefix_cons.
          destruct (ascii_dec x "0") as [-> |]; [discriminate Hx | reflexivity].
      - rewrite append_cons, prefix_cons. cbn [digits_only] in Ha.
        destruct (digit_in 10 y) eqn:Hy; [| discriminate].
        destruct (ascii_dec x y) as [-> |]; [congruence | reflexivity]. }
    rewrite !Hp by (reflexivity || discriminate). cbn [orb].
    unfold digits_value. cbn [all_digits]. rewrite Hd, Hrest. reflexivity.
Qed.

Lemma take_past a b m :
  take (String.length a + m) (a +:+ b) = a +:+ take m b.
Proof.
  induction a as [| c a IH]; [rewrite !append_nil_l; reflexivity |].
  rewrite !append_cons. cbn [String.length Nat.add take]. rewrite IH. reflexivity.
Qed.

(** X21. Negative amounts: [fromWei] prints a negative whole number of
    units so that [toWei] reads it back, but of a negative amount with a
    fraction it prints the minus sign inside the fraction as well, a text
    that [toWei] refuses with a SyntaxError. *)
Theorem fromWei_negative wei w :
  BigInt wei = Normal w -> w < 0 ->
  exists text,
    fromWei wei = Normal text
    /\ (Z.rem w (10 ^ 18) = 0 -> toWei (VString text) = Normal w)
    /\ (Z.rem w (10 ^ 18) <> 0 -> toWei (VString text) = Throw SyntaxError).
Proof.
  intros Hwei Hw. unfold fromWei. rewrite Hwei. cbn [bindC].
  change WEI_PER_NPY with (10 ^ 18).
  assert (Hpos : 0 < 10 ^ 18) by reflexivity.
  pose proof (Z.quot_rem' w (10 ^ 18)) as Hqr.
  pose proof (Z.rem_bound_pos_neg w (10 ^ 18) ltac:(lia) ltac:(lia)) as Hrb.
  assert (Hq0 : Z.quot w (10 ^ 18) <= 0).
  { apply Z.quot_le_upper_bound; lia. }
  set (q := Z.quot w (10 ^ 18)) in *. set (r := Z.rem w (10 ^ 18)) in *.
  assert (Hwhole : exists c a,
            toString q 10 = String c a
            /\ (c = "-"%char \/ exists d, digit_in 10 c = Some d)
            /\ digits_only 10 a = true
            /\ (q < 0 -> c = "-"%char /\ a = toString (- q) 10)).
  { destruct (Z.eq_dec q 0) as [-> | Hnz].
    - exists "0"%char, EmptyString. repeat split; [right; eexists; reflexivity | lia | lia].
    - rewrite (toString_negative q 10) by lia.
      exists "-"%char, (toString (- q) 10).
      repeat split; [left; reflexivity |].
      apply (toString_digits 10 (- q)); lia. }
  destruct Hwhole as (c & a & Hq & Hc & Ha & Hneg).
  destruct (Z.eqb_spec r 0) as [Hz | Hnz].
  - eexists. split; [reflexivity |]. split; [intros _ | intros H; contradiction].
    destruct (Hneg ltac:(lia)) as [-> ->]. rewrite Hq.
    unfold toWei, ToString. cbn [bindC split].
    change (Ascii.eqb "-" ".") with false. cbv beta iota.
    rewrite (split_digits 10) by exact Ha. cbn [hd nth].
    rewrite append_cons.
    destruct (toString_digits 10 (- q) ltac:(lia) ltac:(lia)) as [Hv _].
    assert (Hall : all_digits 10 (toString (- q) 10) 0 = Some (- q)).
    { unfold digits_value in Hv. destruct (toString (- q) 10); [discriminate | exact Hv]. }
    rewrite (BigInt_negative _ _
               (decimal_units 18 _ EmptyString (- q) 0 ltac:(lia) Hall eq_refl)).
    f_equal. change (len EmptyString) with 0. change (0 <=? 18) with true.
    cbv beta iota. nia.
  - eexists. split; [reflexivity |]. split; [intros H; contradiction | intros _].
    rewrite Hq. rewrite (toString_negative r 10) by lia.
    destruct (toString_digits 10 (- r) ltac:(lia) ltac:(lia)) as [_ Hdr].
    pose proof (toString_len 10 (- r) 18 ltac:(lia) ltac:(lia) ltac:(lia)) as Hlr.
    destruct (toString_numeral 10 (- r) ltac:(lia) ltac:(lia)) as [_ Hne _ _].
    set (dr := toString (- r) 10) in *.
    unfold padStart at 1. rewrite len_String.
    set (k := Z.to_nat (18 - (1 + len dr))).
    rewrite strip_trailing_zeros_keeps by discriminate.
    set (sr := strip_trailing_zeros dr).
    assert (Hsr : digits_only 10 sr = true) by (apply digits_only_strip, Hdr).
    unfold toWei, ToString. cbn [bindC].
    rewrite append_cons. cbn [split].
    assert (Hcd : Ascii.eqb c "." = false).
    { destruct Hc as [-> | [d Hd]]; [reflexivity |].
      apply (digit_not_sign 10 c d "." Hd eq_refl). }
    rewrite Hcd. change ("." +:+ ?x) with (String "." x).
    rewrite (split_point 10) by exact Ha.
    rewrite (split_signed 10) by (apply digits_only_zeros; lia) || exact Hsr.
    cbn [hd nth].
    set (trimmed := replicate k "0" +:+ String "-" sr).
    assert (Hlp : 18 <= len (padEnd trimmed 18 "0"))
      by (rewrite len_padEnd; lia).
    rewrite slice_take by lia. change (Z.to_nat 18) with 18%nat.
    unfold padEnd, trimmed. rewrite append_assoc, append_cons.
    replace 18%nat with (String.length (replicate k "0") + (18 - k))%nat
      by (rewrite length_replicate; lia).
    rewrite take_past.
    replace (18 - k)%nat with (S (17 - k)) by lia. cbn [take].
    rewrite append_cons. apply BigInt_inner_sign; [exact Hc | exact Ha |].
    apply no_space_take. rewrite no_space_append.
    rewrite (digits_only_no_space _ _ Hsr).
    rewrite (digits_only_no_space _ _ (digits_only_zeros 10 _ ltac:(lia))).
    reflexivity.
Qed.

Lemma fromWei_negative_witness :
  exists text,
    fromWei (VBigInt (-1)) = Normal text
    /\ (Z.rem (-1) (10 ^ 18) = 0 -> toWei (VString text) = Normal (-1))
    /\ (Z.rem (-1) (10 ^ 18) <> 0 -> toWei (VString text) = Throw SyntaxError).
Proof. apply fromWei_negative; [reflexivity | lia]. Defined.

Example fromWei_minus_one :
  fromWei (VBigInt (-1)) = Normal "0.0000000000000000-1"
  /\ toWei (VString "0.0000000000000000-1") = Throw SyntaxError.
Proof. split; vm_compute; reflexivity. Qed.

End Amounts.

(** ** Hex text: [hexToBytes], [bytesToHex], [hexToBigInt], [padHex],
    [stringToHex], [hexToString], [keccak] *)

Section HexText.
Import Js Utils.

Lemma lower_digit c d : digit_in 16 c = Some d -> lower_char c = digit_char d.
Proof.
  destruct c as [[] [] [] [] [] [] [] []]; vm_compute;
    first [discriminate | intros [= <-]; reflexivity].
Qed.

Lemma sixteen (P : Z -> Prop) :
  P 0 -> P 1 -> P 2 -> P 3 -> P 4 -> P 5 -> P 6 -> P 7 -> P 8 -> P 9 ->
  P 10 -> P 11 -> P 12 -> P 13 -> P 14 -> P 15 ->
  forall d, 0 <= d < 16 -> P d.
Proof.
  intros. assert (d = 0 \/ d = 1 \/ d = 2 \/ d = 3 \/ d = 4 \/ d = 5 \/ d = 6
                  \/ d = 7 \/ d = 8 \/ d = 9 \/ d = 10 \/ d = 11 \/ d = 12
                  \/ d = 13 \/ d = 14 \/ d = 15) as Hd by lia.
  repeat (destruct Hd as [-> | Hd]; [assumption |]). subst. assumption.
Qed.

Lemma hex_pair_digits da db :
  0 <= da < 16 -> 0 <= db < 16 ->
  padStart (toString (da * 16 + db) 16) 2 "0"
  = String (digit_char da) (String (digit_char db) EmptyString).
Proof.
  intros Ha Hb. revert db Hb. pattern da. revert da Ha.
  apply sixteen; apply sixteen; vm_compute; reflexivity.
Qed.

Lemma hex_pair a b da db :
  digit_in 16 a = Some da -> digit_in 16 b = Some db ->
  padStart (toString (da * 16 + db) 16) 2 "0"
  = String (lower_char a) (String (lower_char b) EmptyString).
Proof.
  intros Ha Hb. rewrite (lower_digit _ _ Ha), (lower_digit _ _ Hb).
  apply hex_pair_digits; eapply digit_in_bound; eassumption.
Qed.

Lemma hex_of_cells h :
  digits_only 16 h = true -> len h mod 2 = 0 ->
  hex_of_bytes (hex_cells h) = toLowerCase h.
Proof.
  induction h as [| c | a b r IH] using string_ind2; intros Hd Hl.
  - reflexivity.
  - discriminate Hl.
  - cbn [digits_only] in Hd.
    destruct (digit_in 16 a) as [da |] eqn:Ha; [| discriminate].
    destruct (digit_in 16 b) as [db |] eqn:Hb; [| discriminate].
    cbn [hex_cells hex_of_bytes toLowerCase].
    rewrite (parseInt_cell a b da db Ha Hb).
    pose proof (digit_in_bound _ _ _ Ha). pose proof (digit_in_bound _ _ _ Hb).
    unfold to_uint8. rewrite byte_val_of_Z, Z.mod_small by lia.
    rewrite (hex_pair a b da db Ha Hb), !append_cons, append_nil_l.
    rewrite IH; [reflexivity | exact Hd |].
    rewrite !len_String in Hl.
    replace (1 + (1 + len r)) with (len r + 1 * 2) in Hl by lia.
    rewrite Z.mod_add in Hl by lia. exact Hl.
Qed.

Lemma hexToBytes_prefixed h :
  startsWith h "0x" = false -> hexToBytes ("0x" +:+ h) = hexToBytes h.
Proof.
  intros H. unfold hexToBytes. rewrite H. unfold startsWith.
  rewrite prefix_append, slice_from_0x. reflexivity.
Qed.

(** X4. Bytes and hex text: [hexToBytes] undoes [bytesToHex]; on an even
    number of hex digits [bytesToHex] undoes [hexToBytes] up to the case of
    the letters, and the [0x] prefix is optional; [hexToBytes] never fails
    and yields one byte for every full pair of characters. *)
Theorem hex_bytes_round_trip :
  (forall bytes, hexToBytes (bytesToHex bytes) = bytes)
  /\ (forall h, digits_only 16 h = true -> len h mod 2 = 0 ->
        bytesToHex (hexToBytes h) = "0x" +:+ toLowerCase h
        /\ hexToBytes ("0x" +:+ h) = hexToBytes h)
  /\ (forall hex, Z.of_nat (length (hexToBytes hex)) = len (strip_0x hex) / 2).
Proof.
  repeat split.
  - intros bytes. unfold bytesToHex.
    rewrite hexToBytes_prefixed by apply hex_of_bytes_not_0x.
    apply hexToBytes_hex_of_bytes.
  - unfold bytesToHex. rewrite hexToBytes_cells by (apply digits_not_0x; assumption).
    rewrite hex_of_cells by assumption. reflexivity.
  - apply hexToBytes_prefixed, digits_not_0x. assumption.
  - intros hex. unfold hexToBytes, strip_0x.
    rewrite length_map, length_seq, Z2Nat.id; [reflexivity |].
    apply Z.div_pos; [apply len_nonneg | lia].
Qed.

Lemma hex_bytes_round_trip_witness :
  bytesToHex (hexToBytes "DeadBeef") = "0x" +:+ toLowerCase "DeadBeef"
  /\ hexToBytes ("0x" +:+ "DeadBeef") = hexToBytes "DeadBeef".
Proof. apply hex_bytes_round_trip; reflexivity. Defined.

Lemma read_digits_all radix s :
  forall seen acc v,
    all_digits radix s acc = Some v ->
    read_digits radix s seen acc
    = (match s with EmptyString => seen | _ => true end, v).
Proof.
  induction s as [| c s IH]; intros seen acc v H; cbn [all_digits read_digits] in *.
  - congruence.
  - destruct (digit_in radix c); [| discriminate].
    rewrite (IH _ _ _ H). destruct s; reflexivity.
Qed.

Lemma hex_digit_not c d x :
  digit_in 16 c = Some d -> digit_in 16 x = None -> c <> x.
Proof. intros H Hx ->. congruence. Qed.

Lemma parseInt_0x s :
  parseInt ("0x" +:+ s) 16
  = match read_digits 16 s false 0 with
    | (true, v) => Int (1 * v)
    | (false, _) => NaN
    end.
Proof.
  unfold parseInt.
  change (trimStart ("0x" +:+ s)) with (String "0" (String "x" s)).
  cbv beta iota.
  change (Ascii.eqb "0" "-") with false.
  change (Ascii.eqb "0" "+") with false.
  change (negb (16 =? 0) && ((16 <? 2) || (36 <? 16))) with false.
  change ((16 =? 0) || (16 =? 16)) with true.
  cbv beta iota. rewrite !prefix_cons.
  destruct (ascii_dec "0" "0"); [| congruence].
  destruct (ascii_dec "x" "x"); [| congruence].
  assert (Hs : String.prefix EmptyString s = true) by (destruct s; reflexivity).
  rewrite Hs. reflexivity.
Qed.

Lemma parseInt_hex_digits s v :
  digits_value 16 s = Some v -> parseInt s 16 = Int v /\ parseInt ("0x" +:+ s) 16 = Int v.
Proof.
  intros H. destruct s as [| c s]; [discriminate |]. unfold digits_value in H.
  pose proof (all_digits_digits_only _ _ _ _ H) as Hd.
  pose proof (digits_only_no_space _ _ Hd) as Hs.
  pose proof (read_digits_all 16 (String c s) false 0 v H) as Hread.
  split.
  - unfold parseInt.
    assert (Ht : trimStart (String c s) = String c s).
    { cbn [no_space] in Hs. cbn [trimStart].
      destruct (is_space c); [discriminate | reflexivity]. }
    rewrite Ht.
    cbn [digits_only] in Hd. destruct (digit_in 16 c) as [d |] eqn:Hc; [| discriminate].
    rewrite (digit_not_sign 16 c d "-" Hc eq_refl),
            (digit_not_sign 16 c d "+" Hc eq_refl).
    change (negb (16 =? 0) && ((16 <? 2) || (36 <? 16))) with false.
    change ((16 =? 0) || (16 =? 16)) with true.
    change (if 16 =? 0 then 10 else 16) with 16.
    cbv beta iota.
    assert (Hx : String.prefix "0x" (String c s) = false
                 /\ String.prefix "0X" (String c s) = false).
    { destruct s as [| c' s]; [split; rewrite prefix_cons; destruct (ascii_dec "0" c); reflexivity |].
      cbn [digits_only] in Hd.
      destruct (digit_in 16 c') as [d' |] eqn:Hc'; [| discriminate].
      split; rewrite !prefix_cons; destruct (ascii_dec "0" c); try reflexivity;
        match goal with
        | |- context [ascii_dec ?x c'] =>
            destruct (ascii_dec x c') as [E |]; [| reflexivity];
            exfalso; revert E; apply not_eq_sym;
            apply (hex_digit_not c' d' x Hc' eq_refl)
        end. }
    destruct Hx as [-> ->]. cbn [orb andb]. rewrite Hread.
    f_equal. lia.
  - rewrite parseInt_0x, Hread. f_equal. lia.
Qed.

Lemma BigInt_hex_invalid c r :
  digit_in 16 c = None -> no_space (String c r) = true ->
  BigInt (VString ("0x" +:+ String c r)) = Throw SyntaxError.
Proof.
  intros Hc Hs. unfold BigInt, StringToBigInt.
  rewrite trim_no_space by exact Hs.
  change ("0x" +:+ String c r) with (String "0" (String "x" (String c r))).
  cbv beta iota.
  change (Ascii.eqb "0" "-") with false. change (Ascii.eqb "0" "+") with false.
  cbv beta iota. rewrite !prefix_cons.
  destruct (ascii_dec "0" "0"); [| congruence].
  destruct (ascii_dec "x" "x"); [| congruence].
  change (String.prefix EmptyString (String c r)) with true.
  cbn [orb drop digits_value all_digits]. rewrite Hc. reflexivity.
Qed.

(** X5. Numbers and hex text: [hexToBigInt] undoes [numberToHex] on every
    number that is not negative, with or without the [0x] prefix, and
    [hexToNumber] does on the safe integers; of a negative number
    [numberToHex] makes [0x-...], which [hexToBigInt] refuses with a
    SyntaxError and [hexToNumber] reads as NaN. *)
Theorem hex_number_round_trip :
  (forall n, 0 <= n ->
     hexToBigInt (numberToHex n) = Normal n
     /\ hexToBigInt (toString n 16) = Normal n)
  /\ (forall n, 0 <= n < 2 ^ 53 ->
        hexToNumber (numberToHex n) = Normal (Int n)
        /\ hexToNumber (toString n 16) = Normal (Int n))
  /\ (forall n, n < 0 ->
        hexToBigInt (numberToHex n) = Throw SyntaxError
        /\ hexToNumber (numberToHex n) = Normal NaN).
Proof.
  split; [| split].
  - intros n Hn. destruct (toString_digits 16 n ltac:(lia) Hn) as [Hv Hd].
    unfold hexToBigInt, numberToHex, startsWith.
    rewrite prefix_append.
    pose proof (digits_not_0x _ Hd) as Hx. unfold startsWith in Hx. rewrite Hx.
    split; apply BigInt_hex, Hv.
  - intros n Hn. destruct (toString_digits 16 n ltac:(lia) ltac:(lia)) as [Hv _].
    unfold hexToNumber, numberToHex.
    destruct (parseInt_hex_digits _ _ Hv) as [-> ->].
    assert (Hsafe : safe_integer n = true).
    { unfold safe_integer. destruct (Z.ltb_spec (- 2 ^ 53) n); [| lia].
      destruct (Z.ltb_spec n (2 ^ 53)); [reflexivity | lia]. }
    rewrite Hsafe. split; reflexivity.
  - intros n Hn. unfold hexToBigInt, hexToNumber, numberToHex, startsWith.
    rewrite prefix_append, (toString_negative n 16 Hn).
    destruct (toString_digits 16 (- n) ltac:(lia) ltac:(lia)) as [_ Hd].
    split.
    + apply BigInt_hex_invalid; [reflexivity |].
      cbn [no_space]. rewrite (digits_only_no_space _ _ Hd). reflexivity.
    + rewrite parseInt_0x. reflexivity.
Qed.

Lemma hex_number_round_trip_witness :
  (hexToBigInt (numberToHex 1000000000) = Normal 1000000000
   /\ hexToBigInt (toString 1000000000 16) = Normal 1000000000)
  /\ (hexToNumber (numberToHex 21000) = Normal (Int 21000)
      /\ hexToNumber (toString 21000 16) = Normal (Int 21000))
  /\ (hexToBigInt (numberToHex (-255)) = Throw SyntaxError
      /\ hexToNumber (numberToHex (-255)) = Normal NaN).
Proof.
  split; [| split].
  - apply hex_number_round_trip. lia.
  - apply hex_number_round_trip. lia.
  - apply hex_number_round_trip. lia.
Defined.

(** X6. [padHex] pads on the left with zeros to [bytes] bytes and never
    cuts; the [0x] prefix of its argument is optional; the padded text has
    the value of the digits it was given; and the word
    [Contract.encodeParameter] makes of an unsigned integer is
    [padHex(numberToHex(n), 32)]. *)
Theorem padHex_pads :
  (forall hex bytes,
     len (padHex hex bytes) = 2 + Z.max (bytes * 2) (len (strip_0x hex))
     /\ exists k, padHex hex bytes = "0x" +:+ replicate k "0" +:+ strip_0x hex)
  /\ (forall h bytes, startsWith h "0x" = false ->
        padHex ("0x" +:+ h) bytes = padHex h bytes)
  /\ (forall h v bytes, digits_value 16 h = Some v ->
        hexToBigInt (padHex h bytes) = Normal v)
  /\ (forall type n, startsWith type "uint" = true ->
        Contract.encodeParameter type (VBigInt n)
        = Normal (padHex (numberToHex n) 32)).
Proof.
  split; [| split; [| split]].
  - intros hex bytes. unfold padHex, strip_0x. split.
    + change ("0x" +:+ ?x) with (String "0" (String "x" x)).
      rewrite !len_String, len_padStart. lia.
    + eexists. reflexivity.
  - intros h bytes H. unfold padHex. rewrite H. unfold startsWith.
    rewrite prefix_append, slice_from_0x. reflexivity.
  - intros h v bytes Hv. unfold padHex, hexToBigInt, startsWith.
    rewrite prefix_append.
    pose proof Hv as Hv'. unfold digits_value in Hv'.
    destruct h as [| c r] eqn:E; [discriminate |]. rewrite <- E in *.
    assert (Hd : digits_only 16 h = true) by (eapply all_digits_digits_only, Hv').
    pose proof (digits_not_0x _ Hd) as Hx. unfold startsWith in Hx. rewrite Hx.
    apply BigInt_hex. unfold padStart.
    assert (Hne : forall k, digits_value 16 (replicate k "0" +:+ h)
                            = all_digits 16 (replicate k "0" +:+ h) 0).
    { intros [| k]; [rewrite append_nil_l, E; reflexivity | reflexivity]. }
    rewrite Hne, all_digits_zeros by lia. subst h. exact Hv'.
  - intros type n H. rewrite encodeParameter_uint by exact H.
    cbn [BigInt bindC]. unfold padHex, numberToHex, startsWith, word_of.
    rewrite prefix_append, slice_from_0x. reflexivity.
Qed.

Lemma padHex_pads_witness :
  padHex "0x1f" 4 = padHex "1f" 4
  /\ hexToBigInt (padHex "1f" 4) = Normal 31
  /\ Contract.encodeParameter "uint256" (VBigInt 31)
     = Normal (padHex (numberToHex 31) 32).
Proof.
  split; [| split].
  - apply (proj1 (proj2 padHex_pads)). reflexivity.
  - apply (proj1 (proj2 (proj2 padHex_pads))). reflexivity.
  - apply (proj2 (proj2 (proj2 padHex_pads))). reflexivity.
Defined.

Lemma hex_char_cell c :
  padStart (toString (code c) 16) 2 "0"
  = String (digit_char (code c / 16))
      (String (digit_char (code c mod 16)) EmptyString).
Proof. destruct c as [[] [] [] [] [] [] [] []]; vm_compute; reflexivity. Qed.

Lemma parse_char_cell c :
  parseInt (String (digit_char (code c / 16))
              (String (digit_char (code c mod 16)) EmptyString)) 16
  = Int (code c).
Proof. destruct c as [[] [] [] [] [] [] [] []]; vm_compute; reflexivity. Qed.

Lemma chr_code c : chr (code c) = c.
Proof. unfold chr, code. rewrite N2Z.id. apply ascii_N_embedding. Qed.

Lemma code_nonneg c : 0 <= code c.
Proof. unfold code. lia. Qed.

Lemma hexToString_from_stringToHex s :
  hexToString_from (stringToHex_from s) = Normal (until_nul s).
Proof.
  induction s as [| c s IH]; [reflexivity |].
  cbn [stringToHex_from until_nul].
  rewrite hex_char_cell, !append_cons, append_nil_l.
  cbn [hexToString_from]. rewrite parse_char_cell, IH.
  pose proof (code_nonneg c) as Hc. pose proof (chr_code c) as Hchr.
  destruct (code c) as [| p | p] eqn:E; [reflexivity | | lia].
  cbn [bindC]. rewrite Hchr. reflexivity.
Qed.

Lemma len_stringToHex_from s : len (stringToHex_from s) = 2 * len s.
Proof.
  induction s as [| c s IH]; [reflexivity |].
  cbn [stringToHex_from]. rewrite hex_char_cell, !append_cons, append_nil_l.
  rewrite !len_String, IH. lia.
Qed.

Lemma until_nul_all s :
  Forall (fun c => code c <> 0) (list_ascii_of_string s) -> until_nul s = s.
Proof.
  induction s as [| c s IH]; intros H; [reflexivity |].
  cbn [list_ascii_of_string until_nul] in *. inversion H as [| ? ? Hc Hs]; subst.
  destruct (Z.eqb_spec (code c) 0); [contradiction |]. rewrite IH by exact Hs.
  reflexivity.
Qed.

(** X7. Text and hex: [stringToHex] writes two hex digits for every
    character, and [hexToString] reads them back up to the first character
    of code 0, where it stops: a string without that character comes back
    whole. *)
Theorem stringToHex_hexToString :
  (forall s,
     hexToString (stringToHex s) = Normal (until_nul s)
     /\ len (stringToHex s) = 2 + 2 * len s)
  /\ (forall s,
        Forall (fun c => code c <> 0) (list_ascii_of_string s) ->
        hexToString (stringToHex s) = Normal s)
  /\ (forall a b,
        hexToString (stringToHex (a +:+ String (chr 0) b))
        = hexToString (stringToHex a)).
Proof.
  assert (Hgen : forall s, hexToString (stringToHex s) = Normal (until_nul s)).
  { intros s. unfold hexToString, stringToHex, startsWith.
    rewrite prefix_append, slice_from_0x. apply hexToString_from_stringToHex. }
  split; [| split].
  - intros s. split; [apply Hgen |].
    unfold stringToHex. change ("0x" +:+ ?x) with (String "0" (String "x" x)).
    rewrite !len_String, len_stringToHex_from. lia.
  - intros s H. rewrite Hgen, until_nul_all by exact H. reflexivity.
  - intros a b. rewrite !Hgen. f_equal.
    induction a as [| c a IH]; [reflexivity |].
    rewrite append_cons. cbn [until_nul]. rewrite IH. reflexivity.
Qed.

Lemma stringToHex_hexToString_witness :
  hexToString (stringToHex "NanoPy") = Normal "NanoPy".
Proof.
  apply (proj1 (proj2 stringToHex_hexToString)).
  repeat constructor; discriminate.
Defined.

(** X8. [keccak] hashes the bytes a hex string spells, not its
    characters: on [bytesToHex(bytes)], with or without the [0x] prefix, it
    gives what it gives on [bytes], a [0x] and the 64 hex digits of the
    32-byte digest. *)
Theorem keccak_of_hex bytes :
  keccak (inl (bytesToHex bytes)) = keccak (inr bytes)
  /\ keccak (inl (hex_of_bytes bytes)) = keccak (inr bytes)
  /\ keccak (inr bytes) = bytesToHex (Keccak.digest bytes)
  /\ len (keccak (inr bytes)) = 66.
Proof.
  unfold keccak, bytesToHex, startsWith.
  rewrite prefix_append, slice_from_0x.
  pose proof (hex_of_bytes_not_0x bytes) as Hx. unfold startsWith in Hx.
  rewrite Hx, hexToBytes_hex_of_bytes.
  repeat split.
  change ("0x" +:+ ?x) with (String "0" (String "x" x)).
  rewrite !len_String. unfold Keccak.keccak256_bytes.
  rewrite len_hex_of_bytes, length_digest. reflexivity.
Qed.

End HexText.

(** ** Addresses: [isAddress], [toChecksumAddress], [isChecksumAddress] *)

Section Addresses.
Import Js Utils.

Lemma hex_digits_digits_only s : hex_digits s = digits_only 16 s.
Proof.
  induction s as [| c s IH]; [reflexivity |]. cbn [hex_digits digits_only].
  rewrite IH. reflexivity.
Qed.

Lemma isAddress_prefixed h :
  isAddress ("0x" +:+ h) = (len h =? 40) && digits_only 16 h.
Proof.
  unfold isAddress, startsWith. rewrite prefix_append.
  change ("0x" +:+ h) with (String "0" (String "x" h)).
  rewrite !len_String. cbn [drop andb]. rewrite hex_digits_digits_only.
  f_equal. destruct (Z.eqb_spec (len h) 40), (Z.eqb_spec (1 + (1 + len h)) 42);
    try reflexivity; lia.
Qed.

Lemma isAddress_inv a :
  isAddress a = true ->
  exists h, a = "0x" +:+ h /\ len h = 40 /\ digits_only 16 h = true.
Proof.
  intros H. assert (Hp : String.prefix "0x" a = true).
  { unfold isAddress, startsWith in H.
    destruct (String.prefix "0x" a); [reflexivity | discriminate]. }
  apply prefix_split in Hp. exists (drop 2 a). rewrite Hp in H.
  change (String.length "0x") with 2%nat in *. split; [exact Hp |].
  rewrite isAddress_prefixed in H. apply andb_prop in H as [Hl Hd].
  split; [apply Z.eqb_eq, Hl | exact Hd].
Qed.

Lemma lower_hex_char c :
  lower_hex (String c EmptyString) = true ->
  match upper_char c with
  | Some (String u EmptyString) =>
      lower_char u = c /\ digits_only 16 (String u EmptyString) = true
  | _ => False
  end
  /\ lower_char c = c /\ digits_only 16 (String c EmptyString) = true.
Proof.
  destruct c as [[] [] [] [] [] [] [] []]; vm_compute; intros H;
    first [discriminate H | repeat split].
Qed.

Lemma hex_char_lowered c d :
  digit_in 16 c = Some d -> lower_hex (String (lower_char c) EmptyString) = true.
Proof.
  destruct c as [[] [] [] [] [] [] [] []]; vm_compute; intros H;
    first [discriminate H | reflexivity].
Qed.

Lemma lower_hex_lowered h :
  digits_only 16 h = true -> lower_hex (toLowerCase h) = true.
Proof.
  induction h as [| c h IH]; intros H; [reflexivity |].
  cbn [digits_only toLowerCase] in *.
  destruct (digit_in 16 c) as [d |] eqn:Hc; [| discriminate].
  pose proof (hex_char_lowered c d Hc) as Hl. cbn [lower_hex] in *.
  rewrite andb_true_r in Hl. rewrite Hl, (IH H). reflexivity.
Qed.

Lemma lower_hex_drop i s : lower_hex s = true -> lower_hex (drop i s) = true.
Proof.
  revert s. induction i as [| i IH]; intros [| c s] H; cbn [drop]; try assumption.
  cbn [lower_hex] in H. apply andb_prop in H as [_ H]. apply IH, H.
Qed.

Lemma char_at_drop s i :
  (i < String.length s)%nat ->
  exists c, char_at s i = Some c /\ drop i s = String c (drop (S i) s).
Proof.
  revert i. induction s as [| c s IH]; intros i H; [cbn in H; lia |].
  destruct i as [| i].
  - exists c. split; reflexivity.
  - cbn [String.length] in H. destruct (IH i ltac:(lia)) as (d & Hd & Hdrop).
    exists d. split; [exact Hd | exact Hdrop].
Qed.

Lemma digits_only_append radix a b :
  digits_only radix (a +:+ b) = digits_only radix a && digits_only radix b.
Proof.
  induction a as [| c a IH]; [rewrite append_nil_l; reflexivity |].
  rewrite append_cons. cbn [digits_only].
  destruct (digit_in radix c); [exact IH | reflexivity].
Qed.

(** The loop of [toChecksumAddress] changes the case of its characters and
    nothing else. *)
Lemma checksum_from_cased addr hash :
  lower_hex addr = true ->
  forall n i result,
    (i + n <= String.length addr)%nat ->
    exists cased,
      checksum_from addr hash i n result = Normal (result +:+ cased)
      /\ toLowerCase cased = take n (drop i addr)
      /\ digits_only 16 cased = true.
Proof.
  intros Hlow. induction n as [| n IH]; intros i result Hin.
  - exists EmptyString. cbn [checksum_from take].
    rewrite append_empty_r. repeat split.
  - destruct (char_at_drop addr i ltac:(lia)) as (c & Hc & Hdrop).
    pose proof (lower_hex_drop i addr Hlow) as Hlc. rewrite Hdrop in Hlc.
    cbn [lower_hex] in Hlc. apply andb_prop in Hlc as [Hlc _].
    assert (Hchar : lower_hex (String c EmptyString) = true).
    { cbn [lower_hex]. rewrite Hlc. reflexivity. }
    destruct (lower_hex_char c Hchar) as (Hup & Hlo & Hdig).
    cbn [checksum_from]. rewrite Hc, Hdrop. cbn [take].
    match goal with
    | |- context [if ?b then _ else _] => destruct b
    end.
    + destruct (upper_char c) as [[| u [|]] |]; try contradiction.
      destruct Hup as [Hlu Hdu].
      destruct (IH (S i) (result +:+ String u EmptyString) ltac:(lia))
        as (cased & Hrun & Hcase & Hdigits).
      exists (String u cased). rewrite Hrun, append_assoc, append_cons, append_nil_l.
      repeat split.
      * cbn [toLowerCase]. rewrite Hlu, Hcase. reflexivity.
      * change (String u cased) with (String u EmptyString +:+ cased).
        rewrite digits_only_append, Hdu, Hdigits. reflexivity.
    + destruct (IH (S i) (result +:+ String c EmptyString) ltac:(lia))
        as (cased & Hrun & Hcase & Hdigits).
      exists (String c cased). rewrite Hrun, append_assoc, append_cons, append_nil_l.
      repeat split.
      * cbn [toLowerCase]. rewrite Hlo, Hcase. reflexivity.
      * change (String c cased) with (String c EmptyString +:+ cased).
        rewrite digits_only_append, Hdig, Hdigits. reflexivity.
Qed.

Lemma toLowerCase_prefixed h :
  toLowerCase ("0x" +:+ h) = "0x" +:+ toLowerCase h.
Proof. reflexivity. Qed.

Lemma toChecksumAddress_cased h :
  len h = 40 -> digits_only 16 h = true ->
  exists cased,
    toChecksumAddress ("0x" +:+ h) = Normal ("0x" +:+ cased)
    /\ toLowerCase cased = toLowerCase h
    /\ len cased = 40 /\ digits_only 16 cased = true.
Proof.
  intros Hl Hd. unfold toChecksumAddress.
  rewrite isAddress_prefixed, Hd.
  destruct (Z.eqb_spec (len h) 40); [| contradiction]. cbn [andb negb].
  rewrite toLowerCase_prefixed, slice_from_0x.
  pose proof (length_toLowerCase h) as Hll.
  destruct (checksum_from_cased (toLowerCase h) (Keccak.keccak256 (toLowerCase h))
              (lower_hex_lowered h Hd) 40 0 "0x")
    as (cased & Hrun & Hcase & Hdig).
  { unfold len in Hl. lia. }
  exists cased. rewrite drop_zero, take_all in Hcase by (unfold len in Hl; lia).
  repeat split; try assumption.
  pose proof (length_toLowerCase cased) as Hlc. rewrite Hcase, Hll in Hlc.
  unfold len in *. lia.
Qed.

Lemma toChecksumAddress_case a b :
  isAddress a = true -> isAddress b = true ->
  toLowerCase a = toLowerCase b ->
  toChecksumAddress a = toChecksumAddress b.
Proof.
  intros Ha Hb Hab. unfold toChecksumAddress. rewrite Ha, Hb, Hab. reflexivity.
Qed.

Lemma toChecksumAddress_fixed a :
  isAddress a = true ->
  exists r,
    toChecksumAddress a = Normal r
    /\ isAddress r = true
    /\ toLowerCase r = toLowerCase a
    /\ toChecksumAddress r = Normal r
    /\ isChecksumAddress r = Normal true.
Proof.
  intros Ha. destruct (isAddress_inv a Ha) as (h & -> & Hl & Hd).
  destruct (toChecksumAddress_cased h Hl Hd) as (cased & Hrun & Hlow & Hlc & Hdc).
  assert (Hr : isAddress ("0x" +:+ cased) = true).
  { rewrite isAddress_prefixed, Hdc. destruct (Z.eqb_spec (len cased) 40);
      [reflexivity | contradiction]. }
  assert (Hagain : toChecksumAddress ("0x" +:+ cased) = Normal ("0x" +:+ cased)).
  { rewrite <- Hrun. apply toChecksumAddress_case; [exact Hr | exact Ha |].
    rewrite !toLowerCase_prefixed, Hlow. reflexivity. }
  exists ("0x" +:+ cased). repeat split; try assumption.
  - rewrite !toLowerCase_prefixed, Hlow. reflexivity.
  - unfold isChecksumAddress. rewrite Hr, Hagain. cbn [negb].
    rewrite String.eqb_refl. reflexivity.
Qed.

(** X9. [toChecksumAddress] throws `Invalid address` exactly when
    [isAddress] fails; otherwise it returns an address that differs from
    its argument in the case of the letters only, that depends on the
    argument up to case only, and that it leaves alone when applied again.
    [isChecksumAddress] accepts exactly the addresses [toChecksumAddress]
    leaves unchanged. *)
Theorem toChecksumAddress_spec :
  (forall a, isAddress a = false ->
     toChecksumAddress a = Throw (Error "Invalid address")
     /\ isChecksumAddress a = Normal false)
  /\ (forall a, isAddress a = true ->
        exists r,
          toChecksumAddress a = Normal r
          /\ isAddress r = true
          /\ toLowerCase r = toLowerCase a
          /\ toChecksumAddress r = Normal r
          /\ isChecksumAddress r = Normal true)
  /\ (forall a b, isAddress a = true -> isAddress b = true ->
        toLowerCase a = toLowerCase b ->
        toChecksumAddress a = toChecksumAddress b)
  /\ (forall a, isChecksumAddress a = Normal true
                <-> toChecksumAddress a = Normal a).
Proof.
  split; [| split; [| split]].
  - intros a Ha. unfold isChecksumAddress, toChecksumAddress. rewrite Ha.
    split; reflexivity.
  - exact toChecksumAddress_fixed.
  - exact toChecksumAddress_case.
  - intros a. unfold isChecksumAddress. split.
    + destruct (isAddress a) eqn:Ha; cbn [negb]; [| discriminate].
      destruct (toChecksumAddress a) as [r | e |]; try discriminate.
      intros [= H]. apply String.eqb_eq in H. congruence.
    + intros H. destruct (isAddress a) eqn:Ha; cbn [negb].
      * rewrite H, String.eqb_refl. reflexivity.
      * unfold toChecksumAddress in H. rewrite Ha in H. discriminate.
Qed.

Lemma toChecksumAddress_spec_witness :
  (toChecksumAddress "0x123" = Throw (Error "Invalid address")
   /\ isChecksumAddress "0x123" = Normal false)
  /\ (exists r,
        toChecksumAddress "0x5aaeb6053f3e94c9b9a09f33669435e7ef1beaed" = Normal r
        /\ isAddress r = true
        /\ toLowerCase r
           = toLowerCase "0x5aaeb6053f3e94c9b9a09f33669435e7ef1beaed"
        /\ toChecksumAddress r = Normal r
        /\ isChecksumAddress r = Normal true).
Proof.
  split.
  - apply toChecksumAddress_spec. reflexivity.
  - apply toChecksumAddress_spec. reflexivity.
Defined.

Example eip55_vectors :
  toChecksumAddress "0x5aaeb6053f3e94c9b9a09f33669435e7ef1beaed"
  = Normal "0x5aAeb6053F3E94C9b9A09f33669435E7Ef1BeAed"
  /\ toChecksumAddress "0xFB6916095CA1DF60BB79CE92CE3EA74C37C5D359"
     = Normal "0xfB6916095ca1df60bB79Ce92cE3Ea74c37c5d359"
  /\ isChecksumAddress "0xfB6916095ca1df60bB79Ce92cE3Ea74c37c5d359" = Normal true
  /\ isChecksumAddress "0xfb6916095ca1df60bb79ce92ce3ea74c37c5d359" = Normal false.
Proof. repeat split; vm_compute; reflexivity. Qed.

Lemma lower_hex_append a b :
  lower_hex (a +:+ b) = lower_hex a && lower_hex b.
Proof.
  induction a as [| c a IH]; [rewrite append_nil_l; reflexivity |].
  rewrite append_cons. cbn [lower_hex]. rewrite IH, andb_assoc. reflexivity.
Qed.

Lemma lower_hex_byte b :
  lower_hex (padStart (toString (byte_val b) 16) 2 "0") = true.
Proof. destruct b; vm_compute; reflexivity. Qed.

Lemma lower_hex_hex_of_bytes bytes : lower_hex (hex_of_bytes bytes) = true.
Proof.
  induction bytes as [| b bytes IH]; [reflexivity |].
  cbn [hex_of_bytes]. rewrite lower_hex_append, lower_hex_byte, IH. reflexivity.
Qed.

Lemma lower_hex_digits s : lower_hex s = true -> digits_only 16 s = true.
Proof.
  induction s as [| c s IH]; intros H; [reflexivity |].
  cbn [lower_hex] in H. apply andb_prop in H as [Hc Hs].
  assert (Hchar : lower_hex (String c EmptyString) = true).
  { cbn [lower_hex]. rewrite Hc. reflexivity. }
  destruct (lower_hex_char c Hchar) as (_ & _ & Hd).
  change (String c s) with (String c EmptyString +:+ s).
  rewrite digits_only_append, Hd, (IH Hs). reflexivity.
Qed.

Lemma length_drop n s :
  String.length (drop n s) = (String.length s - n)%nat.
Proof.
  revert s. induction n as [| n IH]; intros [| c s]; cbn [drop String.length];
    rewrite ?IH; lia.
Qed.

Lemma drop_drop a b s : drop b (drop a s) = drop (a + b) s.
Proof.
  revert s. induction a as [| a IH]; intros s; [reflexivity |].
  destruct s as [| c s]; [destruct b; reflexivity |]. cbn [drop Nat.add]. apply IH.
Qed.

Lemma hex_of_bytes_skipn n bytes :
  drop (2 * n) (hex_of_bytes bytes) = hex_of_bytes (skipn n bytes).
Proof.
  revert bytes. induction n as [| n IH]; intros bytes; [reflexivity |].
  destruct bytes as [| b bytes]; [reflexivity |].
  cbn [skipn hex_of_bytes]. replace (2 * S n)%nat with (2 + 2 * n)%nat by lia.
  rewrite <- drop_drop.
  pose proof (len_hex_byte b) as Hl. unfold len in Hl.
  replace 2%nat with (String.length (padStart (toString (byte_val b) 16) 2 "0"))
    at 2 by lia.
  rewrite drop_append. apply IH.
Qed.

Lemma slice_last_40 s :
  len s = 64 -> slice_from s (Int (-40)) = drop 24 s.
Proof.
  intros H. unfold slice_from, slice, rel_index. rewrite H.
  change (-40 <? 0) with true. change (64 <? 0) with false. cbv beta iota.
  change (Z.to_nat (Z.max (64 + -40) 0)) with 24%nat.
  change (Z.to_nat (Z.min 64 64 - Z.max (64 + -40) 0)) with 40%nat.
  apply take_all. rewrite length_drop. unfold len in H. lia.
Qed.

End Addresses.

(** ** Wallet keys: [new Wallet], [derivePublicKey], [deriveAddress] *)

Section WalletKeys.
Import Js Utils.

Variable publicKeyCreate : list byte -> Completion (list byte).

Lemma deriveAddress_checksummed publicKey :
  exists a,
    Wallet.deriveAddress publicKey = Normal a
    /\ isChecksumAddress a = Normal true
    /\ toLowerCase a
       = bytesToHex
           (skipn 12 (Keccak.digest (hexToBytes (strip_0x publicKey)))).
Proof.
  unfold Wallet.deriveAddress. fold (strip_0x publicKey).
  set (bytes := hexToBytes (strip_0x publicKey)).
  unfold Keccak.keccak256_bytes.
  assert (Hlen : len (hex_of_bytes (Keccak.digest bytes)) = 64).
  { rewrite len_hex_of_bytes, length_digest. reflexivity. }
  rewrite (slice_last_40 _ Hlen).
  change 24%nat with (2 * 12)%nat. rewrite hex_of_bytes_skipn.
  set (tail := skipn 12 (Keccak.digest bytes)).
  assert (Ha : isAddress ("0x" +:+ hex_of_bytes tail) = true).
  { rewrite isAddress_prefixed, len_hex_of_bytes.
    rewrite (lower_hex_digits _ (lower_hex_hex_of_bytes tail)).
    unfold tail. rewrite length_skipn, length_digest. reflexivity. }
  destruct (toChecksumAddress_fixed _ Ha) as (r & Hrun & _ & Hlow & _ & Hcheck).
  exists r. repeat split; try assumption.
  rewrite Hlow, toLowerCase_prefixed.
  rewrite (toLowerCase_lower_hex _ (lower_hex_hex_of_bytes tail)). reflexivity.
Qed.

(** X10. The address of a wallet is the EIP-55 form of the last 20 bytes of
    the Keccak-256 digest of its public key, and passes
    [isChecksumAddress]; [deriveAddress] never throws.  A wallet loaded
    from a key stores the key with one [0x] in front, whether or not it was
    given with one, and loading the stored key again gives the same
    wallet. *)
Theorem wallet_keys :
  (forall publicKey,
     exists a,
       Wallet.deriveAddress publicKey = Normal a
       /\ isChecksumAddress a = Normal true
       /\ toLowerCase a
          = bytesToHex
              (skipn 12 (Keccak.digest (hexToBytes (strip_0x publicKey)))))
  /\ (forall key w,
        Wallet.new publicKeyCreate (Some key) = Normal w ->
        isChecksumAddress (wallet_address w) = Normal true
        /\ Wallet.deriveAddress (wallet_publicKey w) = Normal (wallet_address w)
        /\ wallet_privateKey w = "0x" +:+ strip_0x key
        /\ Wallet.new publicKeyCreate (Some (wallet_privateKey w)) = Normal w)
  /\ (forall key, key <> EmptyString -> startsWith key "0x" = false ->
        Wallet.new publicKeyCreate (Some ("0x" +:+ key))
        = Wallet.new publicKeyCreate (Some key)).
Proof.
  split; [exact deriveAddress_checksummed | split].
  - intros key w. unfold Wallet.new. fold (strip_0x key).
    destruct (String.eqb key "") eqn:Hk; [discriminate |].
    destruct (Wallet.derivePublicKey publicKeyCreate (strip_0x key))
      as [publicKey | |] eqn:Hpk; try discriminate.
    cbn [bindC].
    destruct (deriveAddress_checksummed publicKey) as (a & Ha & Hcheck & _).
    rewrite Ha. cbn [bindC]. intros [= <-].
    cbn [wallet_address wallet_publicKey wallet_privateKey].
    repeat split; try assumption.
    change (String.eqb ("0x" +:+ strip_0x key) "") with false. cbv beta iota.
    unfold startsWith. rewrite prefix_append, slice_from_0x, Hpk. cbn [bindC].
    rewrite Ha. reflexivity.
  - intros key Hne Hx. unfold Wallet.new.
    change (String.eqb ("0x" +:+ key) "") with false. cbv beta iota.
    assert (Hk : String.eqb key "" = false) by (apply String.eqb_neq, Hne).
    rewrite Hk, Hx. unfold startsWith. rewrite prefix_append, slice_from_0x.
    reflexivity.
Qed.

End WalletKeys.

Lemma wallet_keys_witness :
  Utils.isChecksumAddress "0x183671Cd69C7f9a760F9f1c59393Df69e893e557"
  = Normal true
  /\ Wallet.new fixed_public_key (Some "0x01")
     = Wallet.new fixed_public_key (Some "01").
Proof.
  pose proof (wallet_keys fixed_public_key) as (_ & Hnew & Hprefix).
  split.
  - apply (Hnew "0x01"
             {| wallet_address := "0x183671Cd69C7f9a760F9f1c59393Df69e893e557";
                wallet_privateKey := "0x01";
                wallet_publicKey :=
                  Utils.bytesToHex (repeat (byte_of_Z 0x33) 64) |}).
    vm_compute. reflexivity.
  - apply (Hprefix "01"); [discriminate | reflexivity].
Defined.

(** ** Argument lists: [encodeArguments], [decodeArguments], [encodeCall] *)

Section ArgumentLists.
Import Js Utils Contract.

Lemma remove_first_found p s :
  String.prefix p s = true -> remove_first p s = drop (String.length p) s.
Proof. intros H. destruct s; cbn [remove_first]; rewrite H; reflexivity. Qed.

Lemma remove_first_prefix p s : remove_first p (p +:+ s) = s.
Proof. rewrite remove_first_found by apply prefix_append. apply drop_append. Qed.

(** A value of [static_value] is encoded as one word of hex digits, which
    decodes to the value. *)
Lemma static_word type v :
  static_value type v ->
  exists w,
    encodeParameter type v = Normal ("0x" +:+ w)
    /\ len w = 64 /\ digits_only 16 w = true
    /\ decodeParameter type w 0 = Normal (v, 64).
Proof.
  intros Hs.
  assert (Hgen : forall w,
            encodeParameter type v = Normal ("0x" +:+ w) ->
            round_trip type v = Normal (v, 64) ->
            decodeParameter type w 0 = Normal (v, 64)).
  { intros w Henc Hrt. unfold round_trip in Hrt. rewrite Henc in Hrt.
    cbn [bindC] in Hrt. rewrite slice_from_0x in Hrt. exact Hrt. }
  assert (Hzeros : forall k, digits_only 16 (replicate k "0") = true).
  { intros k. induction k as [| k IH]; [reflexivity | exact IH]. }
  destruct Hs as [h Hl Hlow | type v Ht Hv | type bits v Ht Hb Hbits Hv | b
                 | h Hl Hd].
  - assert (Henc : encodeParameter "address" (VString ("0x" +:+ h))
                   = Normal ("0x" +:+ padStart (toLowerCase h) 64 "0")).
    { unfold encodeParameter. change (String.eqb "address" "address") with true.
      cbv beta iota. cbn [string_receiver bindC].
      rewrite toLowerCase_prefixed, remove_first_prefix. reflexivity. }
    eexists. split; [exact Henc | split; [| split]].
    + rewrite len_padStart. pose proof (length_toLowerCase h). unfold len in *. lia.
    + unfold padStart. rewrite digits_only_append, Hzeros.
      rewrite toLowerCase_lower_hex by exact Hlow.
      apply lower_hex_digits, Hlow.
    + apply Hgen; [exact Henc | apply round_trip_address; assumption].
  - exists (word_of v). split; [| split; [| split]].
    + rewrite encodeParameter_uint by exact Ht. reflexivity.
    + apply word_of_len, Hv.
    + eapply all_digits_digits_only, word_of_value. lia.
    + apply Hgen; [| apply round_trip_uint; assumption].
      rewrite encodeParameter_uint by exact Ht. reflexivity.
  - assert (Hpow : 2 ^ (bits - 1) <= 2 ^ 255) by (apply Z.pow_le_mono_r; lia).
    exists (word_of (if v <? 0 then 2 ^ 256 + v else v)). split; [| split; [| split]].
    + rewrite encodeParameter_int by exact Ht. reflexivity.
    + apply word_of_len. destruct (Z.ltb_spec v 0); lia.
    + eapply all_digits_digits_only, word_of_value.
      destruct (Z.ltb_spec v 0); lia.
    + apply Hgen; [| eapply round_trip_int; eassumption].
      rewrite encodeParameter_int by exact Ht. reflexivity.
  - eexists. split; [| split; [| split]].
    + reflexivity.
    + rewrite len_padStart. destruct (truthy (VBool b)); reflexivity.
    + destruct b; reflexivity.
    + apply Hgen; [reflexivity | apply round_trip_bool].
  - assert (Henc : encodeParameter "bytes32" (VString ("0x" +:+ h))
                   = Normal ("0x" +:+ padEnd h 64 "0")).
    { unfold encodeParameter. change (String.eqb "bytes32" "address") with false.
      change (startsWith "bytes32" "uint") with false.
      change (startsWith "bytes32" "int") with false.
      change (String.eqb "bytes32" "bool") with false.
      change (String.eqb "bytes32" "bytes32") with true.
      cbv beta iota. cbn [string_receiver bindC]. unfold startsWith.
      rewrite prefix_append, slice_from_0x. reflexivity. }
    eexists. split; [exact Henc | split; [| split]].
    + rewrite len_padEnd. lia.
    + unfold padEnd. rewrite digits_only_append, Hd, Hzeros. reflexivity.
    + apply Hgen; [exact Henc | apply round_trip_bytes32; assumption].
Qed.

Lemma slice_middle pre w post :
  slice (pre +:+ w +:+ post) (Int (len pre)) (Int (len pre + len w)) = w.
Proof.
  unfold slice, rel_index. rewrite !len_append.
  pose proof (len_nonneg pre). pose proof (len_nonneg w).
  pose proof (len_nonneg post).
  destruct (Z.ltb_spec (len pre) 0); [lia |].
  destruct (Z.ltb_spec (len pre + len w) 0); [lia |].
  rewrite !Z.min_l by lia.
  replace (Z.to_nat (len pre)) with (String.length pre) by (unfold len; lia).
  replace (Z.to_nat (len pre + len w - len pre)) with (String.length w)
    by (unfold len; lia).
  rewrite drop_append. apply take_append.
Qed.

Lemma static_not_string type v :
  static_value type v -> String.eqb type "string" = false.
Proof.
  intros [h _ _ | t n Ht _ | t bits n Ht _ _ _ | b | h _ _]; try reflexivity;
    (destruct (String.eqb_spec t "string") as [-> |]; [discriminate Ht | reflexivity]).
Qed.

(** A one-word type is decoded from the word at the offset alone. *)
Lemma decodeParameter_at type pre w post :
  len w = 64 -> String.eqb type "string" = false ->
  decodeParameter type (pre +:+ w +:+ post) (len pre)
  = match decodeParameter type w 0 with
    | Normal (v, _) => Normal (v, len pre + 64)
    | Throw e => Throw e
    | Unmodelled => Unmodelled
    end.
Proof.
  intros Hw Hs. unfold decodeParameter.
  assert (Hchunk : slice (pre +:+ w +:+ post) (Int (len pre)) (Int (len pre + 64))
                   = w) by (rewrite <- Hw; apply slice_middle).
  rewrite Hchunk, (slice_whole w (0 + 64)) by lia. rewrite Hs.
  destruct (String.eqb type "address"); [reflexivity |].
  destruct (startsWith type "uint").
  { destruct (BigInt_of_word w); reflexivity. }
  destruct (startsWith type "int").
  { destruct (BigInt_of_word w); cbn [bindC]; [| reflexivity | reflexivity].
    destruct (int_bits type); [reflexivity |].
    destruct (shift_limit <? z); reflexivity. }
  destruct (String.eqb type "bool"); [reflexivity |].
  destruct (String.eqb type "bytes32"); reflexivity.
Qed.

Lemma static_arguments inputs args :
  Forall2 (fun input arg => static_value (p_type input) arg) inputs args ->
  exists words,
    encodeArguments inputs args = Normal words
    /\ len words = 64 * Z.of_nat (length inputs)
    /\ digits_only 16 words = true
    /\ forall pre post,
         decode_from inputs (pre +:+ words +:+ post) (len pre) = Normal args.
Proof.
  induction 1 as [| input arg inputs args Hs _ (words & Henc & Hlen & Hdig & Hdec)].
  - exists EmptyString. repeat split.
  - destruct (static_word _ _ Hs) as (w & Hw & Hwl & Hwg & Hwd).
    exists (w +:+ words). cbn [encodeArguments hd tl].
    rewrite Hw, Henc. cbn [bindC]. rewrite slice_from_0x.
    split; [reflexivity | split; [| split]].
    + rewrite len_append, Hwl, Hlen. cbn [length]. lia.
    + rewrite digits_only_append, Hwg, Hdig. reflexivity.
    + intros pre post. cbn [decode_from].
      rewrite append_assoc.
      rewrite (decodeParameter_at _ pre w (words +:+ post) Hwl
                 (static_not_string _ _ Hs)), Hwd.
      cbn [bindC].
      replace (len pre + 64) with (len (pre +:+ w)) by (rewrite len_append; lia).
      rewrite <- (append_assoc pre w), Hdec. reflexivity.
Qed.

Lemma len_functionSelector abiItem : len (functionSelector abiItem) = 10.
Proof.
  unfold functionSelector. rewrite selector_first_four_bytes.
  unfold bytesToHex. change ("0x" +:+ ?x) with (String "0" (String "x" x)).
  rewrite !len_String, len_hex_of_bytes, length_firstn, length_digest.
  reflexivity.
Qed.

(** X11. A list of arguments that are [static_value]s of their types
    (an address in lower case, a [uintN] below [2^256], an [intN] that is
    not negative and below [2^(N-1)] or a negative [int256], a boolean, a
    [bytes32] of 64 hex digits) is encoded as one 64-digit word each, in
    order; [decodeArguments] reads the arguments back from the words, with
    or without the [0x] in front; and the calldata of [encodeCall] is the
    10 characters of the selector followed by the words, so that the
    arguments are read back from character 10 on.  Negative values of an
    [intN] with [N < 256] and addresses with capital letters are outside
    the statement. *)
Theorem arguments_round_trip inputs args :
  Forall2 (fun input arg => static_value (p_type input) arg) inputs args ->
  exists words,
    encodeArguments inputs args = Normal words
    /\ len words = 64 * Z.of_nat (length inputs)
    /\ decodeArguments inputs words = Normal args
    /\ decodeArguments inputs ("0x" +:+ words) = Normal args
    /\ forall abiItem,
         f_inputs abiItem = Some inputs ->
         encodeCall abiItem args = Normal (functionSelector abiItem +:+ words)
         /\ len (functionSelector abiItem +:+ words)
            = 10 + 64 * Z.of_nat (length inputs)
         /\ decodeArguments inputs
              (slice_from (functionSelector abiItem +:+ words) (Int 10))
            = Normal args.
Proof.
  intros H.
  destruct (static_arguments inputs args H) as (words & Henc & Hlen & Hdig & Hdec).
  assert (Hclean : decode_from inputs words 0 = Normal args).
  { specialize (Hdec EmptyString EmptyString).
    rewrite append_nil_l, append_empty_r in Hdec. exact Hdec. }
  assert (Hplain : decodeArguments inputs words = Normal args).
  { unfold decodeArguments. rewrite (digits_not_0x _ Hdig). exact Hclean. }
  exists words. split; [exact Henc | split; [exact Hlen | split; [exact Hplain | split]]].
  - unfold decodeArguments, startsWith. rewrite prefix_append, slice_from_0x.
    exact Hclean.
  - intros abiItem Hin. unfold encodeCall. rewrite Hin.
    change (default [] (Some inputs)) with inputs.
    rewrite Henc. cbn [bindC]. split; [reflexivity | split].
    + rewrite len_append, len_functionSelector, Hlen. reflexivity.
    + rewrite <- (len_functionSelector abiItem), slice_from_append.
      exact Hplain.
Qed.

Lemma arguments_round_trip_witness :
  exists words,
    encodeArguments (default [] (f_inputs transfer_function))
      [VString "0x5aaeb6053f3e94c9b9a09f33669435e7ef1beaed"; VBigInt 100]
    = Normal words
    /\ len words = 64 * Z.of_nat 2
    /\ decodeArguments (default [] (f_inputs transfer_function)) words
       = Normal [VString "0x5aaeb6053f3e94c9b9a09f33669435e7ef1beaed";
                 VBigInt 100]
    /\ decodeArguments (default [] (f_inputs transfer_function)) ("0x" +:+ words)
       = Normal [VString "0x5aaeb6053f3e94c9b9a09f33669435e7ef1beaed";
                 VBigInt 100]
    /\ forall abiItem,
         f_inputs abiItem = f_inputs transfer_function ->
         encodeCall abiItem
           [VString "0x5aaeb6053f3e94c9b9a09f33669435e7ef1beaed"; VBigInt 100]
         = Normal (functionSelector abiItem +:+ words)
         /\ len (functionSelector abiItem +:+ words) = 10 + 64 * Z.of_nat 2
         /\ decodeArguments (default [] (f_inputs transfer_function))
              (slice_from (functionSelector abiItem +:+ words) (Int 10))
            = Normal [VString "0x5aaeb6053f3e94c9b9a09f33669435e7ef1beaed";
                      VBigInt 100].
Proof.
  apply (arguments_round_trip
           (default [] (f_inputs transfer_function))
           [VString "0x5aaeb6053f3e94c9b9a09f33669435e7ef1beaed"; VBigInt 100]).
  apply List.Forall2_cons; [| apply List.Forall2_cons; [| apply List.Forall2_nil]].
  - apply (static_address "5aaeb6053f3e94c9b9a09f33669435e7ef1beaed"); reflexivity.
  - apply static_uint; [reflexivity | lia].
Defined.

(** X12. The argument list and the inputs need not have the same length:
    arguments beyond the inputs are ignored, and a missing argument counts
    as [undefined], which is a TypeError for an [address], [uintN], [intN]
    or [bytes32] input, but encodes as [false] for a [bool] and as the
    empty string for a [string]. *)
Theorem encodeArguments_arity :
  (forall inputs args extra,
     (length inputs <= length args)%nat ->
     encodeArguments inputs (args ++ extra) = encodeArguments inputs args)
  /\ (forall inputs args k,
        encodeArguments inputs (args ++ repeat VUndefined k)
        = encodeArguments inputs args)
  /\ (forall type,
        type = "address" \/ startsWith type "uint" = true
        \/ startsWith type "int" = true \/ type = "bytes32" ->
        encodeParameter type VUndefined = Throw TypeError)
  /\ encodeParameter "bool" VUndefined = encodeParameter "bool" (VBool false)
  /\ encodeParameter "string" VUndefined
     = encodeParameter "string" (VString EmptyString).
Proof.
  split; [| split; [| split; [| split; reflexivity]]].
  - induction inputs as [| input inputs IH]; intros args extra H; [reflexivity |].
    destruct args as [| arg args]; [cbn in H; lia |].
    cbn [encodeArguments hd tl app]. rewrite IH by (cbn in H; lia). reflexivity.
  - induction inputs as [| input inputs IH]; intros args k; [reflexivity |].
    cbn [encodeArguments]. destruct args as [| arg args].
    + destruct k as [| k]; [reflexivity |]. cbn [app repeat hd tl].
      rewrite <- (IH [] k). reflexivity.
    + cbn [app hd tl]. rewrite IH. reflexivity.
  - intros type [-> | [H | [H | ->]]].
    + reflexivity.
    + rewrite encodeParameter_uint by exact H. reflexivity.
    + rewrite encodeParameter_int by exact H. reflexivity.
    + reflexivity.
Qed.

Lemma encodeArguments_arity_witness :
  encodeArguments (default [] (f_inputs transfer_function))
    ([VString "0x5aaeb6053f3e94c9b9a09f33669435e7ef1beaed"; VBigInt 100]
       ++ [VBool true])
  = encodeArguments (default [] (f_inputs transfer_function))
      [VString "0x5aaeb6053f3e94c9b9a09f33669435e7ef1beaed"; VBigInt 100]
  /\ encodeParameter "uint8" VUndefined = Throw TypeError.
Proof.
  split.
  - apply encodeArguments_arity. cbn. lia.
  - apply encodeArguments_arity. right. left. reflexivity.
Defined.

(** X13. Empty return data, the answer of a node for an address that
    holds no code: [decodeResult] throws a SyntaxError when the single
    output is a [uintN] or an [intN], and returns without an error the
    address [0x], [false], the bytes [0x] or the empty string for the
    other types. *)
Theorem decodeResult_empty_data abiItem output :
  f_outputs abiItem = Some [output] ->
  (startsWith (p_type output) "uint" = true
   \/ startsWith (p_type output) "int" = true ->
   decodeResult abiItem "0x" = Throw SyntaxError)
  /\ (p_type output = "address" ->
      decodeResult abiItem "0x" = Normal (RValue (VString "0x")))
  /\ (p_type output = "bool" ->
      decodeResult abiItem "0x" = Normal (RValue (VBool false)))
  /\ (p_type output = "bytes32" ->
      decodeResult abiItem "0x" = Normal (RValue (VString "0x")))
  /\ (p_type output = "string" ->
      decodeResult abiItem "0x" = Normal (RValue (VString EmptyString))).
Proof.
  intros Hout.
  assert (Hres : decodeResult abiItem "0x"
                 = let* (value, _) := decodeParameter (p_type output) EmptyString 0 in
                   Normal (RValue value)).
  { unfold decodeResult. rewrite Hout. unfold decodeArguments.
    change (startsWith "0x" "0x") with true. cbv beta iota.
    change (slice_from "0x" (Int 2)) with EmptyString. cbn [decode_from].
    destruct (decodeParameter (p_type output) EmptyString 0) as [[v o] | |];
      reflexivity. }
  rewrite Hres. repeat split.
  - intros [H | H].
    + rewrite decodeParameter_uint by exact H. reflexivity.
    + rewrite decodeParameter_int by exact H. reflexivity.
  - intros ->. reflexivity.
  - intros ->. reflexivity.
  - intros ->. reflexivity.
  - intros ->. vm_compute. reflexivity.
Qed.

Lemma decodeResult_empty_data_witness :
  decodeResult
    {| f_type := KFunction; f_name := Some "balanceOf"; f_inputs := None;
       f_outputs :=
         Some [ {| p_name := ""; p_type := "uint256"; p_indexed := None |} ] |}
    "0x"
  = Throw SyntaxError.
Proof.
  apply (decodeResult_empty_data
           {| f_type := KFunction; f_name := Some "balanceOf"; f_inputs := None;
              f_outputs :=
                Some [ {| p_name := ""; p_type := "uint256";
                          p_indexed := None |} ] |}
           {| p_name := ""; p_type := "uint256"; p_indexed := None |} eq_refl).
  left. reflexivity.
Defined.

Lemma BigInt_of_word_invalid w :
  no_space w = true -> all_digits 16 w 0 = None ->
  BigInt_of_word w = Throw SyntaxError.
Proof.
  intros Hs Hw. destruct w as [| c r]; [discriminate |].
  unfold BigInt_of_word, BigInt, StringToBigInt.
  change ("0x" +:+ String c r) with (String "0" (String "x" (String c r))).
  rewrite trim_no_space by exact Hs.
  cbv beta iota.
  change (Ascii.eqb "0" "-") with false. change (Ascii.eqb "0" "+") with false.
  cbv beta iota. rewrite !prefix_cons.
  destruct (ascii_dec "0" "0"); [| congruence].
  destruct (ascii_dec "x" "x"); [| congruence].
  change (String.prefix EmptyString (String c r)) with true.
  cbn [orb drop digits_value]. rewrite Hw. reflexivity.
Qed.

(** X14. [encodeParameter] checks no range for a [uintN]: a negative
    number is written with its minus sign, and the word is one
    [decodeParameter] refuses with a SyntaxError; a number from [2^256] on
    is written with more than 64 digits, of which [decodeParameter] reads
    the first 64, a different number. *)
Theorem uint_out_of_range type v :
  startsWith type "uint" = true ->
  (v < 0 ->
   encodeParameter type (VBigInt v)
   = Normal ("0x" +:+ padStart ("-" +:+ toString (- v) 16) 64 "0")
   /\ round_trip type (VBigInt v) = Throw SyntaxError)
  /\ (2 ^ 256 <= v ->
      encodeParameter type (VBigInt v) = Normal ("0x" +:+ toString v 16)
      /\ 64 < len (toString v 16)
      /\ round_trip type (VBigInt v)
         = Normal (VBigInt (v / 16 ^ (len (toString v 16) - 64)), 64)
      /\ v / 16 ^ (len (toString v 16) - 64) < v).
Proof.
  intros Ht. split.
  - intros Hv.
    assert (Henc : encodeParameter type (VBigInt v)
                   = Normal ("0x" +:+ padStart ("-" +:+ toString (- v) 16) 64 "0")).
    { rewrite encodeParameter_uint by exact Ht. cbn [BigInt bindC].
      unfold word_of. rewrite (toString_negative v 16 Hv). reflexivity. }
    split; [exact Henc |].
    unfold round_trip. rewrite Henc. cbn [bindC].
    rewrite slice_from_0x, decodeParameter_uint by exact Ht.
    set (word := padStart ("-" +:+ toString (- v) 16) 64 "0").
    assert (Hl : 64 <= len word) by (unfold word; rewrite len_padStart; lia).
    rewrite slice_take by lia.
    destruct (toString_digits 16 (- v) ltac:(lia) ltac:(lia)) as [_ Hd].
    rewrite BigInt_of_word_invalid; [reflexivity | |].
    + apply no_space_take. unfold word, padStart.
      rewrite no_space_append.
      change ("-" +:+ toString (- v) 16) with (String "-" (toString (- v) 16)).
      cbn [no_space]. rewrite (digits_only_no_space _ _ Hd).
      assert (Hz : forall k, no_space (replicate k "0") = true)
        by (induction k as [| k IH]; [reflexivity | exact IH]).
      rewrite Hz. reflexivity.
    + unfold word, padStart.
      change ("-" +:+ toString (- v) 16) with (String "-" (toString (- v) 16)).
      apply all_digits_invalid_take; [lia | reflexivity |].
      rewrite len_String. pose proof (len_nonneg (toString (- v) 16)). lia.
  - intros Hv.
    destruct (toString_numeral 16 v ltac:(lia) ltac:(lia)) as [Hval Hne Hup Hlo].
    set (d := toString v 16) in *.
    assert (Hlen : 64 < len d).
    { destruct (Z_lt_le_dec 64 (len d)) as [| Hle]; [assumption | exfalso].
      assert (16 ^ len d <= 16 ^ 64) by (apply Z.pow_le_mono_r; lia).
      change (16 ^ 64) with (2 ^ 256) in *. lia. }
    assert (Henc : encodeParameter type (VBigInt v) = Normal ("0x" +:+ d)).
    { rewrite encodeParameter_uint by exact Ht. cbn [BigInt bindC].
      unfold word_of, padStart. fold d.
      replace (Z.to_nat (64 - len d)) with O by lia. reflexivity. }
    specialize (Hval 0). rewrite Z.mul_0_l, Z.add_0_l in Hval.
    pose proof (take_drop 64 d) as Hsplit.
    assert (Hlt : len (take 64 d) = 64).
    { unfold len. rewrite length_take; unfold len in Hlen; lia. }
    assert (Hld : len (drop 64 d) = len d - 64).
    { pose proof (f_equal len Hsplit) as Hl. rewrite len_append in Hl. lia. }
    rewrite <- Hsplit, all_digits_append in Hval.
    destruct (all_digits 16 (take 64 d) 0) as [V1 |] eqn:H1; [| discriminate].
    destruct (all_digits_value 16 _ ltac:(lia) _ _ H1) as (u1 & Hu1 & Hv1 & _).
    destruct (all_digits_value 16 _ ltac:(lia) _ _ Hval) as (u2 & Hu2 & Hv2 & _).
    rewrite Hld in *.
    assert (Hq : v / 16 ^ (len d - 64) = V1).
    { symmetry. apply (Z.div_unique_pos _ _ _ u2); lia. }
    split; [exact Henc | split; [exact Hlen | split]].
    + unfold round_trip. rewrite Henc. cbn [bindC].
      rewrite slice_from_0x, decodeParameter_uint by exact Ht.
      change (0 + 64) with 64. rewrite slice_take by lia.
      change (Z.to_nat 64) with 64%nat.
      rewrite (BigInt_of_word_value _ V1); [rewrite Hq; reflexivity | | exact H1].
      intros E. rewrite E in Hlt. discriminate Hlt.
    + rewrite Hq.
      assert (16 <= 16 ^ (len d - 64)).
      { change 16 with (16 ^ 1) at 1. apply Z.pow_le_mono_r; lia. }
      nia.
Qed.

Lemma uint_out_of_range_witness :
  (encodeParameter "uint256" (VBigInt (-1))
   = Normal ("0x" +:+ padStart ("-" +:+ toString (- -1) 16) 64 "0")
   /\ round_trip "uint256" (VBigInt (-1)) = Throw SyntaxError)
  /\ round_trip "uint256" (VBigInt (2 ^ 256))
     = Normal (VBigInt (2 ^ 256 / 16 ^ (len (toString (2 ^ 256) 16) - 64)), 64).
Proof.
  split.
  - apply (proj1 (uint_out_of_range "uint256" (-1) eq_refl)). lia.
  - apply (proj2 (uint_out_of_range "uint256" (2 ^ 256) eq_refl)). lia.
Defined.

Lemma utf8_decode_char c s :
  utf8_decode (utf8_encode (String c s))
  = option_map (String c) (utf8_decode (utf8_encode s)).
Proof.
  pose proof (code_nonneg c) as H0.
  assert (H256 : code c < 256).
  { unfold code. pose proof (N_ascii_bounded c). lia. }
  cbn [utf8_encode]. destruct (Z.ltb_spec (code c) 128) as [Hlt | Hge].
  - cbn [utf8_decode]. rewrite byte_val_of_Z, Z.mod_small by lia.
    destruct (Z.ltb_spec (code c) 128); [| lia]. rewrite chr_code. reflexivity.
  - assert (Hq : code c / 64 = 2 \/ code c / 64 = 3).
    { assert (2 <= code c / 64) by (apply Z.div_le_lower_bound; lia).
      assert (code c / 64 < 4) by (apply Z.div_lt_upper_bound; lia). lia. }
    pose proof (Z.mod_pos_bound (code c) 64 ltac:(lia)) as Hm.
    pose proof (Z.div_mod (code c) 64 ltac:(lia)) as Hdm.
    cbn [utf8_decode]. rewrite !byte_val_of_Z, !Z.mod_small by lia.
    destruct (Z.ltb_spec (192 + code c / 64) 128); [lia |].
    replace ((192 + code c / 64 =? 194) || (192 + code c / 64 =? 195)) with true
      by (destruct Hq as [-> | ->]; reflexivity).
    destruct (Z.leb_spec 128 (128 + code c mod 64)); [| lia].
    destruct (Z.ltb_spec (128 + code c mod 64) 192); [| lia].
    cbn [andb].
    replace ((192 + code c / 64 - 192) * 64 + (128 + code c mod 64 - 128))
      with (code c) by lia.
    rewrite chr_code. reflexivity.
Qed.

Lemma utf8_decode_encode s : utf8_decode (utf8_encode s) = Some s.
Proof.
  induction s as [| c s IH]; [reflexivity |].
  rewrite utf8_decode_char, IH. reflexivity.
Qed.

Lemma length_utf8_encode s :
  Z.of_nat (length (utf8_encode s)) <= 2 * len s.
Proof.
  induction s as [| c s IH]; [change (0 <= 2 * 0); lia |].
  cbn [utf8_encode]. rewrite len_String.
  destruct (code c <? 128); cbn [length]; lia.
Qed.

(** X15. A string is encoded as the tail of its ABI encoding: the word of
    its length in bytes, then its UTF-8 bytes padded with zeros to whole
    words.  [decodeParameter] reads the head, a word that holds the offset
    of the tail: with the offset word [0x20] in front, it returns the
    string. *)
Theorem string_tail s :
  len s < 2 ^ 52 ->
  let bytes := utf8_encode s in
  exists padding,
    encodeParameter "string" (VString s)
    = Normal ("0x" +:+ word_of (Z.of_nat (length bytes))
                +:+ hex_of_bytes bytes +:+ replicate padding "0")
    /\ (padding < 64)%nat
    /\ (2 * Z.of_nat (length bytes) + Z.of_nat padding) mod 64 = 0
    /\ decodeParameter "string"
         (word_of 32 +:+ word_of (Z.of_nat (length bytes))
            +:+ hex_of_bytes bytes +:+ replicate padding "0") 0
       = Normal (VString s, 64).
Proof.
  intros Hs bytes.
  set (n := Z.of_nat (length bytes)).
  assert (Hn : 0 <= n < 2 ^ 53).
  { pose proof (length_utf8_encode s). unfold n, bytes. lia. }
  exists (Z.to_nat ((64 - len (hex_of_bytes bytes) mod 64) mod 64)).
  pose proof (len_hex_of_bytes bytes) as Hlh. fold n in Hlh.
  split; [| split; [| split]].
  - unfold encodeParameter.
    change (String.eqb "string" "address") with false.
    change (startsWith "string" "uint") with false.
    change (startsWith "string" "int") with false.
    change (String.eqb "string" "bool") with false.
    change (String.eqb "string" "bytes32") with false.
    change (String.eqb "string" "string") with true.
    cbv beta iota. cbn [encoder_input bindC]. unfold bytesToHex, pad_to_word.
    rewrite slice_from_0x. reflexivity.
  - pose proof (Z.mod_pos_bound (64 - len (hex_of_bytes bytes) mod 64) 64). lia.
  - rewrite Hlh, Z2Nat.id by (apply Z.mod_pos_bound; lia).
    rewrite Z.add_mod_idemp_r by lia.
    rewrite <- Zplus_mod_idemp_l.
    replace (2 * n mod 64 + (64 - 2 * n mod 64)) with 64 by lia. reflexivity.
  - set (padding := Z.to_nat ((64 - len (hex_of_bytes bytes) mod 64) mod 64)).
    assert (Hw : len (word_of n) = 64) by (apply word_of_len; lia).
    assert (H32 : len (word_of 32) = 64) by reflexivity.
    set (data := word_of 32 +:+ word_of n +:+ hex_of_bytes bytes
                   +:+ replicate padding "0").
    assert (Hhead : slice data (Int 0) (Int (0 + 64)) = word_of 32).
    { rewrite <- H32. apply slice_prefix. }
    assert (Hlength : slice data (Int 64) (Int (64 + 64)) = word_of n).
    { pose proof (slice_middle (word_of 32) (word_of n)
                    (hex_of_bytes bytes +:+ replicate padding "0")) as H.
      rewrite Hw, H32 in H. exact H. }
    assert (Hstr : slice data (Int (64 + 64)) (Int (64 + 64 + n * 2))
                   = hex_of_bytes bytes).
    { pose proof (slice_middle (word_of 32 +:+ word_of n) (hex_of_bytes bytes)
                    (replicate padding "0")) as H.
      rewrite len_append, Hw, H32, Hlh, append_assoc in H.
      replace (n * 2) with (2 * n) by lia. exact H. }
    assert (Hlenword : parseInt (word_of n) 16 = Int n).
    { apply parseInt_hex_digits. pose proof (word_of_value n ltac:(lia)) as Hv.
      unfold digits_value. destruct (word_of n); [discriminate Hw | exact Hv]. }
    unfold decodeParameter.
    change (String.eqb "string" "address") with false.
    change (startsWith "string" "uint") with false.
    change (startsWith "string" "int") with false.
    change (String.eqb "string" "bool") with false.
    change (String.eqb "string" "bytes32") with false.
    change (String.eqb "string" "string") with true.
    cbv beta iota. rewrite Hhead.
    change (parseInt (word_of 32) 16) with (Int 32).
    cbn [num_mul num_add]. change (32 * 2) with 64.
    rewrite Hlength, Hlenword. cbn [num_mul num_add].
    rewrite Hstr, hexToBytes_hex_of_bytes.
    unfold bytes. rewrite utf8_decode_encode. reflexivity.
Qed.

Lemma string_tail_witness :
  exists padding,
    encodeParameter "string" (VString "abc")
    = Normal ("0x" +:+ word_of (Z.of_nat (length (utf8_encode "abc")))
                +:+ hex_of_bytes (utf8_encode "abc") +:+ replicate padding "0")
    /\ (padding < 64)%nat
    /\ (2 * Z.of_nat (length (utf8_encode "abc")) + Z.of_nat padding) mod 64 = 0
    /\ decodeParameter "string"
         (word_of 32 +:+ word_of (Z.of_nat (length (utf8_encode "abc")))
            +:+ hex_of_bytes (utf8_encode "abc") +:+ replicate padding "0") 0
       = Normal (VString "abc", 64).
Proof. apply (string_tail "abc"). reflexivity. Defined.

End ArgumentLists.

(** ** Decoded logs: the keys of [args] *)

Section DecodedArgs.
Import Js Utils Contract.

Lemma set_property_keys (o : gmap string Value) name v k :
  is_Some (set_property o name v !! k) ->
  is_Some (o !! k) \/ (k = name /\ k <> "__proto__").
Proof.
  unfold set_property. destruct (String.eqb_spec name "__proto__") as [-> | Hn].
  - intros H. left. exact H.
  - destruct (decide (name = k)) as [<- | Hk].
    + intros _. right. split; [reflexivity | exact Hn].
    + rewrite lookup_insert_ne by exact Hk. intros H. left. exact H.
Qed.

Lemma decode_indexed_keys indexedInputs topics :
  forall topicIndex args args',
    EventDecoder.decode_indexed indexedInputs topics topicIndex args
    = Normal args' ->
    forall k,
      is_Some (args' !! k) ->
      is_Some (args !! k)
      \/ (k <> "__proto__"
          /\ exists input, In input indexedInputs /\ p_name input = k).
Proof.
  induction indexedInputs as [| input rest IH]; intros topicIndex args args' H k Hk.
  - cbn in H. injection H as <-. left. exact Hk.
  - cbn [EventDecoder.decode_indexed] in H.
    destruct (topics !! topicIndex) as [topic |].
    + destruct (decodeParameter (p_type input) (slice_from topic (Int 2)) 0)
        as [[value o] | |]; try discriminate. cbn [bindC] in H.
      destruct (IH _ _ _ H k Hk) as [Hset | (Hp & i & Hi & Hn)].
      * destruct (set_property_keys _ _ _ _ Hset) as [Ho | [-> Hp]];
          [left; exact Ho | right].
        split; [exact Hp | exists input; split; [left; reflexivity | reflexivity]].
      * right. split; [exact Hp | exists i; split; [right; exact Hi | exact Hn]].
    + destruct (IH _ _ _ H k Hk) as [Ho | (Hp & i & Hi & Hn)];
        [left; exact Ho | right].
      split; [exact Hp | exists i; split; [right; exact Hi | exact Hn]].
Qed.

Lemma assign_decoded_keys nonIndexedInputs :
  forall decoded args k,
    is_Some (EventDecoder.assign_decoded nonIndexedInputs decoded args !! k) ->
    is_Some (args !! k)
    \/ (k <> "__proto__"
        /\ exists input, In input nonIndexedInputs /\ p_name input = k).
Proof.
  induction nonIndexedInputs as [| input rest IH]; intros decoded args k Hk.
  - left. exact Hk.
  - cbn [EventDecoder.assign_decoded] in Hk.
    destruct (IH _ _ _ Hk) as [Hset | (Hp & i & Hi & Hn)].
    + destruct (set_property_keys _ _ _ _ Hset) as [Ho | [-> Hp]];
        [left; exact Ho | right].
      split; [exact Hp | exists input; split; [left; reflexivity | reflexivity]].
    + right. split; [exact Hp | exists i; split; [right; exact Hi | exact Hn]].
Qed.

Lemma assign_decoded_absent nonIndexedInputs :
  forall decoded args k,
    args !! k = None ->
    (forall input, In input nonIndexedInputs -> p_name input <> k) ->
    EventDecoder.assign_decoded nonIndexedInputs decoded args !! k = None.
Proof.
  induction nonIndexedInputs as [| input rest IH]; intros decoded args k Hk Hn.
  - exact Hk.
  - cbn [EventDecoder.assign_decoded]. apply IH.
    + unfold set_property. destruct (String.eqb (p_name input) "__proto__");
        [exact Hk |].
      rewrite lookup_insert_ne; [exact Hk |]. apply Hn. left. reflexivity.
    + intros i Hi. apply Hn. right. exact Hi.
Qed.

(** X16. The [args] of a decoded log hold nothing but parameters of the
    event: every key is the name of an input, and [__proto__] is never a
    key.  For a log that carries the signature topic alone the missing
    topics are no error: the indexed inputs are skipped, so that [decode]
    is the decoding of the data for the other inputs, fails only when that
    fails, and always succeeds with empty [args] when every input is
    indexed; on success [args] has no entry for a name that only indexed
    inputs bear. *)
Theorem decoded_args_keys (decoder : EventDecoder.t) (l : Log) :
  let nonIndexedInputs :=
    List.filter (fun i => negb (is_indexed i)) (EventDecoder.inputs decoder) in
  (forall d,
     EventDecoder.decode decoder l = Normal d ->
     EventDecoder.event d = EventDecoder.name decoder
     /\ EventDecoder.log d = l
     /\ (forall k,
           is_Some (EventDecoder.args d !! k) ->
           k <> "__proto__"
           /\ exists input,
                In input (EventDecoder.inputs decoder) /\ p_name input = k)
     /\ ((length (log_topics l) <= 1)%nat ->
         forall k,
           (forall input,
              In input (EventDecoder.inputs decoder) -> p_name input = k ->
              is_indexed input = true) ->
           EventDecoder.args d !! k = None))
  /\ ((length (log_topics l) <= 1)%nat ->
      EventDecoder.decode decoder l
      = (let* decoded := decodeArguments nonIndexedInputs (log_data l) in
         Normal {| EventDecoder.event := EventDecoder.name decoder;
                   EventDecoder.args :=
                     EventDecoder.assign_decoded nonIndexedInputs decoded ∅;
                   EventDecoder.log := l |})
      /\ (nonIndexedInputs = [] ->
          EventDecoder.decode decoder l
          = Normal {| EventDecoder.event := EventDecoder.name decoder;
                      EventDecoder.args := ∅;
                      EventDecoder.log := l |})).
Proof.
  intros nonIndexedInputs.
  assert (Hshort : (length (log_topics l) <= 1)%nat ->
            EventDecoder.decode decoder l
            = (let* decoded := decodeArguments nonIndexedInputs (log_data l) in
               Normal {| EventDecoder.event := EventDecoder.name decoder;
                         EventDecoder.args :=
                           EventDecoder.assign_decoded nonIndexedInputs decoded ∅;
                         EventDecoder.log := l |})).
  { intros Hl. unfold EventDecoder.decode.
    rewrite decode_indexed_exhausted by exact Hl. reflexivity. }
  split.
  - unfold EventDecoder.decode. intros d H.
    destruct (EventDecoder.decode_indexed
                (List.filter is_indexed (EventDecoder.inputs decoder))
                (log_topics l) 1 ∅) as [args | |] eqn:Hidx;
      [| discriminate H | discriminate H].
    cbn [bindC] in H. fold nonIndexedInputs in H.
    destruct (decodeArguments nonIndexedInputs (log_data l))
      as [decoded | |] eqn:Hdec; [| discriminate H | discriminate H].
    cbn [bindC] in H. injection H as <-.
    cbn [EventDecoder.event EventDecoder.log EventDecoder.args].
    split; [reflexivity | split; [reflexivity | split]].
    + intros k Hk.
      destruct (assign_decoded_keys _ _ _ _ Hk) as [Ha | (Hp & i & Hi & Hn)].
      * destruct (decode_indexed_keys _ _ _ _ _ Hidx k Ha)
          as [He | (Hp & i & Hi & Hn)].
        -- rewrite lookup_empty in He. destruct He as [? He]. discriminate He.
        -- apply filter_In in Hi as [Hi _]. split; [exact Hp | eauto].
      * apply filter_In in Hi as [Hi _]. split; [exact Hp | eauto].
    + intros Hl k Hk.
      rewrite decode_indexed_exhausted in Hidx by exact Hl.
      injection Hidx as <-.
      apply assign_decoded_absent; [apply lookup_empty |].
      intros input Hi Hn. apply filter_In in Hi as [Hi Hneg].
      rewrite (Hk input Hi Hn) in Hneg. discriminate Hneg.
  - intros Hl. split; [exact (Hshort Hl) |].
    intros Hnone. rewrite (Hshort Hl), Hnone. reflexivity.
Qed.

Lemma decoded_args_keys_witness :
  "from" <> "__proto__"
  /\ exists input,
       In input (EventDecoder.inputs (EventDecoder.new transfer_event))
       /\ p_name input = "from".
Proof.
  refine (proj1 (proj2 (proj2
            (proj1 (decoded_args_keys (EventDecoder.new transfer_event)
                      transfer_log)
               {| EventDecoder.event := Some "Transfer";
                  EventDecoder.args :=
                    <["value" := VBigInt 100]>
                      (<["to" :=
                           VString "0xfb6916095ca1df60bb79ce92ce3ea74c37c5d359"]>
                         (<["from" :=
                              VString
                                "0x5aaeb6053f3e94c9b9a09f33669435e7ef1beaed"]>
                            ∅));
                  EventDecoder.log := transfer_log |} _))) "from" _).
  - apply (decode_transfer
             (Utils.eventTopic "Transfer(address,address,uint256)")
             "5aaeb6053f3e94c9b9a09f33669435e7ef1beaed"
             "fb6916095ca1df60bb79ce92ce3ea74c37c5d359" 100 transfer_log
             _ _ _ eq_refl eq_refl ltac:(lia) eq_refl eq_refl eq_refl eq_refl
             eq_refl).
  - exists (VString "0x5aaeb6053f3e94c9b9a09f33669435e7ef1beaed").
    vm_compute. reflexivity.
Defined.

(** A [Transfer] log with the signature topic alone: the decoder takes
    the empty data for the amount and throws. *)
Example decode_short_transfer_log :
  EventDecoder.decode (EventDecoder.new transfer_event)
    {| log_address := "0x00000000000000000000000000000000000000aa";
       log_topics := [Utils.eventTopic "Transfer(address,address,uint256)"];
       log_data := "0x";
       log_blockNumber := 1;
       log_transactionHash := "0x00";
       log_logIndex := 0 |}
  = Throw SyntaxError.
Proof. vm_compute. reflexivity. Qed.

End DecodedArgs.

(** ** The requests of [call], [send], [estimateGas] and [getPastEvents] *)

Section Requests.
Import Js Utils Contract.

(** X17. Each of [call], [send], [estimateGas] and [getPastEvents] sends
    at most one request, addressed to the contract, and leaves the earlier
    requests as they were; it returns a result only after its request, and
    sends nothing when the name is not in the ABI or when the arguments
    cannot be encoded. *)
Theorem one_request (this : Instance) (h : History) :
  (forall method args options,
     at_most_one_request (address this) h
       (call this method args options h) (encodes (abi this) method args))
  /\ (forall wallet method args options,
        at_most_one_request (address this) h
          (send this wallet method args options h)
          (encodes (abi this) method args))
  /\ (forall method args options,
        at_most_one_request (address this) h
          (estimateGas this method args options h)
          (encodes (abi this) method args))
  /\ (forall eventName options,
        at_most_one_request (address this) h
          (getPastEvents this eventName options h)
          (bool_decide (is_Some (find_entry KEvent (abi this) eventName)))).
Proof.
  set (sent := fun A : Type => @at_most_one_request A (address this) h).
  unfold encodes.
  assert (Hnone : forall A (c : Completion A) b,
            (forall a, c <> Normal a) -> sent A (c, h) b).
  { intros A c b Hc. exists []. cbn [fst snd]. rewrite app_nil_r.
    split; [reflexivity | split; [cbn; lia | split; [apply List.Forall_nil | split]]].
    - intros a Ha. destruct (Hc a Ha).
    - reflexivity. }
  assert (Hone : forall A (c : Completion A) r,
            request_target r = Some (address this) -> sent A (c, h ++ [r]) true).
  { intros A c r Hr. exists [r]. cbn [fst snd].
    split; [reflexivity | split; [cbn; lia | split; [| split]]].
    - apply List.Forall_cons; [exact Hr | apply List.Forall_nil].
    - reflexivity.
    - discriminate. }
  split; [| split; [| split]].
  - intros method args options. fold (sent Result). unfold call.
    destruct (find_entry KFunction (abi this) method) as [abiItem |];
      [| apply Hnone; discriminate].
    unfold bindR, ret, request.
    destruct (encodeCall abiItem args) as [data | e |];
      [| apply Hnone; discriminate | apply Hnone; discriminate].
    destruct (value_hex options None) as [value | e |].
    + destruct (rpc_ethCall (client this) h _) as [result | e |];
        apply Hone; reflexivity.
    + apply Hnone; discriminate.
    + apply Hnone; discriminate.
  - intros wallet method args options. fold (sent TransactionReceipt). unfold send.
    destruct (find_entry KFunction (abi this) method) as [abiItem |];
      [| apply Hnone; discriminate].
    unfold bindR, ret, request.
    destruct (encodeCall abiItem args) as [data | e |];
      [| apply Hnone; discriminate | apply Hnone; discriminate].
    destruct (value_hex options (Some "0x0")) as [value | e |].
    + apply Hone. reflexivity.
    + apply Hnone; discriminate.
    + apply Hnone; discriminate.
  - intros method args options. fold (sent Num). unfold estimateGas.
    destruct (find_entry KFunction (abi this) method) as [abiItem |];
      [| apply Hnone; discriminate].
    unfold bindR, ret, request.
    destruct (encodeCall abiItem args) as [data | e |];
      [| apply Hnone; discriminate | apply Hnone; discriminate].
    destruct (value_hex options None) as [value | e |].
    + destruct (rpc_estimateGas (client this) h _) as [result | e |];
        apply Hone; reflexivity.
    + apply Hnone; discriminate.
    + apply Hnone; discriminate.
  - intros eventName options. fold (sent (list EventDecoder.DecodedLog)).
    unfold getPastEvents.
    destruct (find_entry KEvent (abi this) eventName) as [eventAbi |];
      [| apply Hnone; discriminate].
    unfold bindR, ret, request.
    destruct (events_lookup (abi this) eventName) as [decoder | e |].
    + destruct (match filter options with
                | Some f =>
                    match f_inputs eventAbi with
                    | Some inputs => filter_topics (List.filter is_indexed inputs) f
                    | None => Normal []
                    end
                | None => Normal []
                end) as [filters | e |].
      * destruct (rpc_getLogs (client this) h _) as [logs | e |];
          apply Hone; reflexivity.
      * apply Hnone; discriminate.
      * apply Hnone; discriminate.
    + apply Hnone; discriminate.
    + apply Hnone; discriminate.
Qed.

End Requests.

(** ** Falsy fields of a transaction *)

Section FalsyFields.
Import Js Utils.

Variable ecdsaSign : list byte -> list byte -> Completion (list byte * Z).

(** X18. [signTransaction] cannot tell a field that holds a falsy value
    from a field that is absent: a gas price or a gas limit of 0 is
    replaced by the default, 1 gwei or 21000, and the chain id 0 by
    1337. *)
Theorem signTransaction_falsy (this : WalletData) (tx : TransactionRequest) :
  Wallet.signTransaction ecdsaSign this tx
  = Wallet.signTransaction ecdsaSign this (without_falsy tx)
  /\ (tx_gasPrice tx = Some (VNumber 0) ->
      Wallet.signTransaction ecdsaSign this tx
      = Wallet.signTransaction ecdsaSign this
          {| tx_to := tx_to tx; tx_nonce := tx_nonce tx;
             tx_value := tx_value tx; tx_data := tx_data tx;
             tx_gasLimit := tx_gasLimit tx;
             tx_gasPrice := Some (VNumber 1000000000);
             tx_chainId := tx_chainId tx |})
  /\ (tx_chainId tx = Some 0 ->
      Wallet.signTransaction ecdsaSign this tx
      = Wallet.signTransaction ecdsaSign this
          {| tx_to := tx_to tx; tx_nonce := tx_nonce tx;
             tx_value := tx_value tx; tx_data := tx_data tx;
             tx_gasLimit := tx_gasLimit tx;
             tx_gasPrice := tx_gasPrice tx;
             tx_chainId := Some 1337 |}).
Proof.
  assert (Hnum : forall x d,
            Wallet.number_or
              match x with
              | Some n => if n =? 0 then None else Some n
              | None => None
              end d
            = Wallet.number_or x d).
  { intros [n |] d; [| reflexivity]. unfold Wallet.number_or.
    destruct (n =? 0) eqn:E; [reflexivity | rewrite E; reflexivity]. }
  assert (Hval : forall x d,
            or_else
              match x with
              | Some v => if truthy v then Some v else None
              | None => None
              end d
            = or_else x d).
  { intros [v |] d; [| reflexivity]. unfold or_else.
    destruct (truthy v) eqn:E; [cbn; rewrite E; reflexivity | reflexivity]. }
  assert (Hstr : forall x,
            Wallet.bytes_or_empty
              match x with
              | Some s => if String.eqb s "" then None else Some s
              | None => None
              end
            = Wallet.bytes_or_empty x).
  { intros [s |]; [| reflexivity]. unfold Wallet.bytes_or_empty.
    destruct (String.eqb s "") eqn:E; [reflexivity | rewrite E; reflexivity]. }
  split; [| split].
  - unfold Wallet.signTransaction, without_falsy.
    cbn [tx_to tx_nonce tx_value tx_data tx_gasLimit tx_gasPrice tx_chainId].
    rewrite !Hnum, !Hval, !Hstr. reflexivity.
  - intros H. unfold Wallet.signTransaction.
    cbn [tx_to tx_nonce tx_value tx_data tx_gasLimit tx_gasPrice tx_chainId].
    rewrite H. reflexivity.
  - intros H. unfold Wallet.signTransaction.
    cbn [tx_to tx_nonce tx_value tx_data tx_gasLimit tx_gasPrice tx_chainId].
    rewrite H. reflexivity.
Qed.

End FalsyFields.

Lemma signTransaction_falsy_witness :
  Wallet.signTransaction fixed_signer test_wallet
    {| tx_to := Some "0x3535353535353535353535353535353535353535";
       tx_nonce := Some 9; tx_value := Some (VBigInt 5); tx_data := None;
       tx_gasLimit := None; tx_gasPrice := Some (VNumber 0);
       tx_chainId := Some 7770 |}
  = Wallet.signTransaction fixed_signer test_wallet
      {| tx_to := Some "0x3535353535353535353535353535353535353535";
         tx_nonce := Some 9; tx_value := Some (VBigInt 5); tx_data := None;
         tx_gasLimit := None; tx_gasPrice := Some (VNumber 1000000000);
         tx_chainId := Some 7770 |}.
Proof.
  apply (proj1 (proj2 (signTransaction_falsy fixed_signer test_wallet
                         {| tx_to := Some "0x3535353535353535353535353535353535353535";
                            tx_nonce := Some 9; tx_value := Some (VBigInt 5);
                            tx_data := None; tx_gasLimit := None;
                            tx_gasPrice := Some (VNumber 0);
                            tx_chainId := Some 7770 |}))).
  reflexivity.
Defined.

(** ** The token helper *)

Section Token.
Import Js Utils Contract.

Example decimals_calldata :
  find_entry KFunction ERC20.ERC20_ABI "decimals"
  = Some (ERC20.function "decimals" [] [ERC20.parameter "uint8" ""])
  /\ encodeCall (ERC20.function "decimals" [] [ERC20.parameter "uint8" ""]) []
     = Normal "0x313ce567".
Proof. split; vm_compute; reflexivity. Qed.

Example transfer_selector :
  find_entry KFunction ERC20.ERC20_ABI "transfer"
  = Some (ERC20.function "transfer"
            [ERC20.parameter "address" "to"; ERC20.parameter "uint256" "amount"]
            [ERC20.parameter "bool" ""])
  /\ functionSelector
       (ERC20.function "transfer"
          [ERC20.parameter "address" "to"; ERC20.parameter "uint256" "amount"]
          [ERC20.parameter "bool" ""])
     = "0xa9059cbb".
Proof. split; vm_compute; reflexivity. Qed.

(** What [decimals()] does when the cache does not answer and the node
    answers the call with the word of [d]. *)
Lemma decimals_fetched (this : ERC20.t) h d :
  match ERC20._decimals this with
  | Some n => n = 0
  | None => True
  end ->
  rpc_ethCall (ERC20.client this) h
    (EthCall (ERC20.address this) "0x313ce567" None None)
  = Normal ("0x" +:+ word_of d) ->
  0 <= d < 2 ^ 53 ->
  ERC20.decimals this h
  = (Normal d,
     {| ERC20.address := ERC20.address this; ERC20.client := ERC20.client this;
        ERC20._decimals := Some d |},
     h ++ [EthCall (ERC20.address this) "0x313ce567" None None]).
Proof.
  intros Hcache Hnode Hd. unfold ERC20.decimals.
  assert (Hc : match ERC20._decimals this with
               | Some n => negb (n =? 0)
               | None => false
               end = false).
  { destruct (ERC20._decimals this) as [n |]; [subst n |]; reflexivity. }
  rewrite Hc. unfold call. cbn [ERC20.contract abi address client].
  destruct decimals_calldata as [-> Hdata].
  unfold bindR, ret, request. rewrite Hdata.
  cbn [value_hex ERC20.default_options opt_value opt_from].
  rewrite Hnode.
  assert (Hres : decodeResult
                   (ERC20.function "decimals" [] [ERC20.parameter "uint8" ""])
                   ("0x" +:+ word_of d)
                 = Normal (RValue (VBigInt d))).
  { unfold decodeResult, decodeArguments, startsWith.
    cbn [ERC20.function f_outputs]. rewrite prefix_append, slice_from_0x.
    cbn [decode_from ERC20.parameter p_type].
    rewrite decodeParameter_uint by reflexivity.
    rewrite BigInt_of_word_of by (change (2 ^ 256) with (2 ^ 53 * 2 ^ 203); nia).
    reflexivity. }
  rewrite Hres.
  assert (Hsafe : safe_integer d = true).
  { unfold safe_integer. destruct (Z.ltb_spec (- 2 ^ 53) d); [| lia].
    destruct (Z.ltb_spec d (2 ^ 53)); [reflexivity | lia]. }
  rewrite Hsafe. reflexivity.
Qed.

Lemma transfer_calldata to units :
  encodeCall
    (ERC20.function "transfer"
       [ERC20.parameter "address" "to"; ERC20.parameter "uint256" "amount"]
       [ERC20.parameter "bool" ""])
    [VString to; VBigInt units]
  = Normal ("0xa9059cbb"
              +:+ padStart (remove_first "0x" (toLowerCase to)) 64 "0"
              +:+ word_of units).
Proof.
  unfold encodeCall. rewrite (proj2 transfer_selector).
  change (default [] (f_inputs (ERC20.function "transfer"
            [ERC20.parameter "address" "to"; ERC20.parameter "uint256" "amount"]
            [ERC20.parameter "bool" ""])))
    with [ERC20.parameter "address" "to"; ERC20.parameter "uint256" "amount"].
  cbn [encodeArguments hd tl ERC20.parameter p_type].
  rewrite (encodeParameter_uint "uint256") by reflexivity.
  unfold encodeParameter at 1. change (String.eqb "address" "address") with true.
  cbv beta iota. cbn [string_receiver BigInt bindC].
  rewrite !slice_from_0x, append_empty_r. reflexivity.
Qed.

(** X19. [transfer] of a whole number [s] of tokens: with an empty cache
    it asks the node for the decimals, then sends one transaction to the
    token whose calldata is the [transfer] selector, the recipient and the
    amount [s * 10^d].  When the node answers 0 decimals, the amount is
    [s * 10^18]: 0 counts as no answer.  The decimals are cached in the
    token. *)
Theorem transfer_whole_amount (this : ERC20.t) wallet to s n d h :
  match ERC20._decimals this with
  | Some cached => cached = 0
  | None => True
  end ->
  rpc_ethCall (ERC20.client this) h
    (EthCall (ERC20.address this) "0x313ce567" None None)
  = Normal ("0x" +:+ word_of d) ->
  0 <= d <= 255 ->
  all_digits 10 s 0 = Some n ->
  let run := ERC20.transfer wallet to (VString s) this h in
  let units := n * 10 ^ (if d =? 0 then 18 else d) in
  snd run
  = h ++ [ EthCall (ERC20.address this) "0x313ce567" None None;
           SendTransaction wallet
             {| tx_to := Some (ERC20.address this);
                tx_nonce := None;
                tx_value := Some (VString "0x0");
                tx_data :=
                  Some ("0xa9059cbb"
                          +:+ padStart (remove_first "0x" (toLowerCase to)) 64 "0"
                          +:+ word_of units);
                tx_gasLimit := Some (VString "0x100000");
                tx_gasPrice := None;
                tx_chainId := None |} ]
  /\ ERC20._decimals (snd (fst run)) = Some d.
Proof.
  intros Hcache Hnode Hd Hs run units. subst run.
  unfold ERC20.transfer, ERC20.bindM.
  rewrite (decimals_fetched this h d Hcache Hnode)
    by (change (2 ^ 53) with 9007199254740992; lia).
  set (this' := {| ERC20.address := ERC20.address this;
                   ERC20.client := ERC20.client this;
                   ERC20._decimals := Some d |}).
  unfold ERC20.pure.
  assert (Hparse : ERC20.parseAmount this' (VString s) (Some d) = Normal units).
  { unfold ERC20.parseAmount, string_receiver. cbn [bindC].
    assert (Hdec : ERC20.decimals_or_default this' (Some d)
                   = if d =? 0 then 18 else d).
    { unfold ERC20.decimals_or_default, this'. cbn [ERC20._decimals].
      destruct (d =? 0); reflexivity. }
    rewrite Hdec. apply BigInt_decimal, units_of_whole; [| exact Hs].
    destruct (Z.eqb_spec d 0); lia. }
  rewrite Hparse. unfold ERC20.lift, send.
  cbn [ERC20.contract abi address client this' ERC20.address ERC20.client].
  rewrite (proj1 transfer_selector). unfold bindR, ret, request.
  rewrite transfer_calldata.
  cbn [value_hex ERC20.default_options opt_value opt_from opt_gasLimit
       opt_gasPrice or_else option_map fst snd ERC20._decimals].
  split; [| reflexivity]. rewrite <- app_assoc. reflexivity.
Qed.

Example approve_selector :
  find_entry KFunction ERC20.ERC20_ABI "approve"
  = Some (ERC20.function "approve"
            [ERC20.parameter "address" "spender";
             ERC20.parameter "uint256" "amount"]
            [ERC20.parameter "bool" ""])
  /\ functionSelector
       (ERC20.function "approve"
          [ERC20.parameter "address" "spender";
           ERC20.parameter "uint256" "amount"]
          [ERC20.parameter "bool" ""])
     = "0x095ea7b3"
  /\ BigInt (VString
       "0xffffffffffffffffffffffffffffffffffffffffffffffffffffffffffffffff")
     = Normal (2 ^ 256 - 1)
  /\ word_of (2 ^ 256 - 1) = replicate 64 "f".
Proof. repeat split; vm_compute; reflexivity. Qed.

(** What [approve] sends once [decimals()] has returned. *)
Lemma approve_max_sent (this : ERC20.t) wallet spender h :
  snd (ERC20.lift
         (send (ERC20.contract this) wallet "approve"
            [VString spender; VBigInt (2 ^ 256 - 1)] ERC20.default_options)
         this h)
  = h ++ [ SendTransaction wallet
             {| tx_to := Some (ERC20.address this);
                tx_nonce := None;
                tx_value := Some (VString "0x0");
                tx_data :=
                  Some ("0x095ea7b3"
                          +:+ padStart (remove_first "0x" (toLowerCase spender))
                                64 "0"
                          +:+ replicate 64 "f");
                tx_gasLimit := Some (VString "0x100000");
                tx_gasPrice := None;
                tx_chainId := None |} ].
Proof.
  destruct approve_selector as (Hentry & Hselector & _ & Hword).
  unfold ERC20.lift, send.
  cbn [ERC20.contract abi address client ERC20.address ERC20.client].
  rewrite Hentry. unfold bindR, ret, request, encodeCall.
  rewrite Hselector.
  change (default [] (f_inputs (ERC20.function "approve"
            [ERC20.parameter "address" "spender";
             ERC20.parameter "uint256" "amount"]
            [ERC20.parameter "bool" ""])))
    with [ERC20.parameter "address" "spender"; ERC20.parameter "uint256" "amount"].
  cbn [encodeArguments hd tl ERC20.parameter p_type].
  rewrite (encodeParameter_uint "uint256") by reflexivity.
  unfold encodeParameter at 1. change (String.eqb "address" "address") with true.
  cbv beta iota. cbn [string_receiver BigInt bindC].
  rewrite !slice_from_0x, append_empty_r, Hword.
  cbn [value_hex ERC20.default_options opt_value opt_from opt_gasLimit
       opt_gasPrice or_else option_map fst snd].
  reflexivity.
Qed.

(** What [decimals()] does when the cache holds a number other than 0. *)
Lemma decimals_from_cache (this : ERC20.t) h cached :
  ERC20._decimals this = Some cached -> cached <> 0 ->
  ERC20.decimals this h = (Normal cached, this, h).
Proof.
  intros Hcache Hc. unfold ERC20.decimals. rewrite Hcache.
  destruct (Z.eqb_spec cached 0); [contradiction | reflexivity].
Qed.

(** X22. [approve] with the amount ['max'] approves [2^256 - 1], the
    largest [uint256]: it sends one transaction whose calldata is the
    [approve] selector, the spender and 64 digits [f].  It runs
    [decimals()] first, although that amount does not use the decimals:
    with an empty cache (or 0 in it) the transaction comes after a request
    for the decimals; with another number in the cache it is the only
    request. *)
Theorem approve_max (this : ERC20.t) wallet spender h :
  let transaction :=
    SendTransaction wallet
      {| tx_to := Some (ERC20.address this);
         tx_nonce := None;
         tx_value := Some (VString "0x0");
         tx_data :=
           Some ("0x095ea7b3"
                   +:+ padStart (remove_first "0x" (toLowerCase spender)) 64 "0"
                   +:+ replicate 64 "f");
         tx_gasLimit := Some (VString "0x100000");
         tx_gasPrice := None;
         tx_chainId := None |} in
  (forall d,
     match ERC20._decimals this with
     | Some cached => cached = 0
     | None => True
     end ->
     rpc_ethCall (ERC20.client this) h
       (EthCall (ERC20.address this) "0x313ce567" None None)
     = Normal ("0x" +:+ word_of d) ->
     0 <= d <= 255 ->
     snd (ERC20.approve wallet spender (VString "max") this h)
     = h ++ [ EthCall (ERC20.address this) "0x313ce567" None None;
              transaction ])
  /\ (forall cached,
        ERC20._decimals this = Some cached -> cached <> 0 ->
        snd (ERC20.approve wallet spender (VString "max") this h)
        = h ++ [transaction]).
Proof.
  intros transaction. split.
  - intros d Hcache Hnode Hd.
    unfold ERC20.approve, ERC20.bindM.
    rewrite (decimals_fetched this h d Hcache Hnode)
      by (change (2 ^ 53) with 9007199254740992; lia).
    unfold ERC20.pure. rewrite (proj1 (proj2 (proj2 approve_selector))).
    rewrite approve_max_sent. cbn [ERC20.address].
    rewrite <- app_assoc. reflexivity.
  - intros cached Hcache Hc.
    unfold ERC20.approve, ERC20.bindM.
    rewrite (decimals_from_cache this h cached Hcache Hc).
    unfold ERC20.pure. rewrite (proj1 (proj2 (proj2 approve_selector))).
    apply approve_max_sent.
Qed.

Lemma decimals_uncached (this : ERC20.t) h d this' h' :
  match ERC20._decimals this with
  | Some n => negb (n =? 0)
  | None => false
  end = false ->
  ERC20.decimals this h = (Normal d, this', h') ->
  this' = {| ERC20.address := ERC20.address this;
             ERC20.client := ERC20.client this;
             ERC20._decimals := Some d |}
  /\ h' = h ++ [EthCall (ERC20.address this) "0x313ce567" None None].
Proof.
  intros Hc H. unfold ERC20.decimals in H. rewrite Hc in H.
  unfold call in H. cbn [ERC20.contract abi address client] in H.
  rewrite (proj1 decimals_calldata) in H.
  unfold bindR, ret, request in H. rewrite (proj2 decimals_calldata) in H.
  cbn [value_hex ERC20.default_options opt_value opt_from] in H.
  destruct (rpc_ethCall (ERC20.client this) h
              (EthCall (ERC20.address this) "0x313ce567" None None))
    as [result | e |]; [| discriminate H | discriminate H].
  destruct (decodeResult
              (ERC20.function "decimals" [] [ERC20.parameter "uint8" ""]) result)
    as [res | e |]; [| discriminate H | discriminate H].
  destruct res as [| v | vs]; [discriminate H | | discriminate H].
  destruct v as [| | flag | num | dec | text]; try discriminate H.
  destruct (safe_integer dec); [| discriminate H].
  injection H as <- <- <-. split; reflexivity.
Qed.

(** X20. [decimals()] asks the node at most once as long as the answer is
    not 0: a successful call leaves the answer in the cache of the same
    token, and from then on a call returns it without a request. *)
Theorem decimals_cached (this : ERC20.t) h d this' h' :
  ERC20.decimals this h = (Normal d, this', h') ->
  ERC20._decimals this' = Some d
  /\ ERC20.address this' = ERC20.address this
  /\ ERC20.client this' = ERC20.client this
  /\ (h' = h \/ exists r, h' = h ++ [r]
                         /\ request_target r = Some (ERC20.address this))
  /\ (d <> 0 -> forall h2, ERC20.decimals this' h2 = (Normal d, this', h2)).
Proof.
  intros H.
  destruct (match ERC20._decimals this with
            | Some n => negb (n =? 0)
            | None => false
            end) eqn:Hc.
  - unfold ERC20.decimals in H. rewrite Hc in H.
    destruct (ERC20._decimals this) as [cached |] eqn:Hcache; [| discriminate Hc].
    change (default 0 (Some cached)) with cached in H.
    injection H as <- <- <-. rewrite Hcache.
    repeat split; [left; reflexivity |].
    intros _ h2. unfold ERC20.decimals. rewrite Hcache, Hc. reflexivity.
  - destruct (decimals_uncached this h d this' h' Hc H) as [-> ->].
    cbn [ERC20._decimals ERC20.address ERC20.client].
    repeat split.
    + right. eexists. split; reflexivity.
    + intros Hd h2. unfold ERC20.decimals. cbn [ERC20._decimals].
      destruct (Z.eqb_spec d 0); [contradiction | reflexivity].
Qed.

End Token.

Lemma transfer_whole_amount_witness :
  ERC20._decimals
    (snd (fst (ERC20.transfer test_wallet
                 "0x5aaeb6053f3e94c9b9a09f33669435e7ef1beaed" (VString "5")
                 (ERC20.new "0x00000000000000000000000000000000000000aa"
                    (token_client 0)) [])))
  = Some 0.
Proof.
  apply (transfer_whole_amount
           (ERC20.new "0x00000000000000000000000000000000000000aa"
              (token_client 0))
           test_wallet "0x5aaeb6053f3e94c9b9a09f33669435e7ef1beaed" "5" 5 0 []).
  - exact I.
  - reflexivity.
  - lia.
  - reflexivity.
Defined.

Lemma approve_max_witness :
  snd (ERC20.approve test_wallet "0x5aaeb6053f3e94c9b9a09f33669435e7ef1beaed"
         (VString "max")
         (ERC20.new "0x00000000000000000000000000000000000000aa"
            (token_client 6)) [])
  = [] ++ [ EthCall "0x00000000000000000000000000000000000000aa" "0x313ce567"
              None None;
            SendTransaction test_wallet
              {| tx_to := Some "0x00000000000000000000000000000000000000aa";
                 tx_nonce := None;
                 tx_value := Some (VString "0x0");
                 tx_data :=
                   Some ("0x095ea7b3"
                           +:+ Js.padStart
                                 (Js.remove_first "0x"
                                    (Js.toLowerCase
                                       "0x5aaeb6053f3e94c9b9a09f33669435e7ef1beaed"))
                                 64 "0"
                           +:+ Js.replicate 64 "f");
                 tx_gasLimit := Some (VString "0x100000");
                 tx_gasPrice := None;
                 tx_chainId := None |} ].
Proof.
  apply (proj1 (approve_max
                  (ERC20.new "0x00000000000000000000000000000000000000aa"
                     (token_client 6))
                  test_wallet "0x5aaeb6053f3e94c9b9a09f33669435e7ef1beaed" [])
           6).
  - exact I.
  - reflexivity.
  - lia.
Defined.

Lemma decimals_cached_witness :
  ERC20.decimals
    {| ERC20.address := "0x00000000000000000000000000000000000000aa";
       ERC20.client := token_client 6; ERC20._decimals := Some 6 |} []
  = (Normal 6,
     {| ERC20.address := "0x00000000000000000000000000000000000000aa";
        ERC20.client := token_client 6; ERC20._decimals := Some 6 |}, []).
Proof.
  refine (proj2 (proj2 (proj2 (proj2
            (decimals_cached
               (ERC20.new "0x00000000000000000000000000000000000000aa"
                  (token_client 6)) [] 6
               {| ERC20.address := "0x00000000000000000000000000000000000000aa";
                  ERC20.client := token_client 6; ERC20._decimals := Some 6 |}
               [EthCall "0x00000000000000000000000000000000000000aa"
                  "0x313ce567" None None] _)))) _ []).
  - vm_compute. reflexivity.
  - discriminate.
Defined.

(** ** The decoder [getPastEvents] uses *)

Section EventLookup.
Import Js Utils Contract.

Lemma find_entry_event entries name :
  find_entry KEvent entries name = List.find (event_named name) entries.
Proof. reflexivity. Qed.

Lemma events_fold_unique name eventAbi :
  name <> EmptyString ->
  forall entries (m : gmap string EventDecoder.t),
    (forall item, In item entries -> event_named name item = true ->
                  item = eventAbi) ->
    fold_left
      (fun m item =>
         match f_type item, f_name item with
         | KEvent, Some n =>
             if String.eqb n "" then m else <[n := EventDecoder.new item]> m
         | _, _ => m
         end)
      entries m !! name
    = if existsb (event_named name) entries
      then Some (EventDecoder.new eventAbi) else m !! name.
Proof.
  intros Hname. induction entries as [| item entries IH]; intros m Huniq; [reflexivity |].
  cbn [fold_left existsb]. rewrite IH by (intros i Hi; apply Huniq; right; exact Hi).
  destruct (existsb (event_named name) entries); [rewrite orb_true_r; reflexivity |].
  rewrite orb_false_r.
  destruct (event_named name item) eqn:Hitem.
  - rewrite <- (Huniq item (or_introl eq_refl) Hitem).
    unfold event_named in Hitem. apply andb_prop in Hitem as [Hk Hn].
    destruct (f_type item); try discriminate Hk.
    destruct (f_name item) as [n |]; [| discriminate Hn].
    apply String.eqb_eq in Hn. subst n.
    destruct (String.eqb_spec name ""); [contradiction |].
    apply lookup_insert_eq.
  - unfold event_named in Hitem.
    destruct (f_type item); try reflexivity.
    destruct (f_name item) as [n |]; [| reflexivity].
    cbn [ABIKind_eqb andb] in Hitem.
    destruct (String.eqb n ""); [reflexivity |].
    apply lookup_insert_ne. intros ->. rewrite String.eqb_refl in Hitem.
    discriminate Hitem.
Qed.

Lemma find_existsb {A : Type} (f : A -> bool) l x :
  List.find f l = Some x -> existsb f l = true /\ In x l /\ f x = true.
Proof.
  intros H. pose proof (find_some _ _ H) as [Hin Hf].
  split; [| split; assumption]. apply existsb_exists. eauto.
Qed.

(** X23. When the ABI has one event entry of the name, [getPastEvents]
    decodes the logs with the decoder of the entry it found, and without a
    filter it asks for the logs of the contract whose first topic is the
    event topic of that entry, the Keccak-256 digest of its signature.
    The name is looked up twice, once for the entry, taking the first of
    the name, and once for the decoder, taking the last. *)
Theorem getPastEvents_decoder (this : Instance) eventName eventAbi :
  find_entry KEvent (abi this) eventName = Some eventAbi ->
  eventName <> EmptyString ->
  existsb (event_named "__proto__") (abi this) = false ->
  (forall item,
     In item (abi this) -> event_named eventName item = true ->
     item = eventAbi) ->
  events_lookup (abi this) eventName = Normal (EventDecoder.new eventAbi)
  /\ forall options h,
       filter options = None ->
       let topic :=
         Utils.eventTopic
           (signature (f_name eventAbi) (Some (default [] (f_inputs eventAbi)))) in
       let query :=
         GetLogs (address this) [Some topic] (fromBlock options)
                 (toBlock options) in
       getPastEvents this eventName options h
       = (let* logs := rpc_getLogs (client this) h query in
          decode_logs (EventDecoder.new eventAbi) logs,
          h ++ [query]).
Proof.
  intros Hfind Hname Hproto Huniq.
  assert (Hlookup : events_lookup (abi this) eventName
                    = Normal (EventDecoder.new eventAbi)).
  { unfold events_lookup. fold (event_named "__proto__"). rewrite Hproto.
    unfold events. rewrite (events_fold_unique eventName eventAbi Hname _ _ Huniq).
    rewrite find_entry_event in Hfind.
    destruct (find_existsb _ _ _ Hfind) as (-> & _ & _). reflexivity. }
  split; [exact Hlookup |].
  intros options h Hfilter topic query. unfold getPastEvents.
  rewrite Hfind. unfold bindR, ret, request. rewrite Hlookup, Hfilter.
  fold query.
  change (GetLogs (address this)
            [Some (EventDecoder.topic (EventDecoder.new eventAbi))]
            (fromBlock options) (toBlock options)) with query.
  destruct (rpc_getLogs (client this) h query); reflexivity.
Qed.

Lemma getPastEvents_decoder_witness :
  events_lookup (abi (erc20 silent_client)) "Transfer"
  = Normal (EventDecoder.new transfer_event).
Proof.
  apply (getPastEvents_decoder (erc20 silent_client) "Transfer" transfer_event).
  - reflexivity.
  - discriminate.
  - reflexivity.
  - intros item [<- | [<- | []]] H; [discriminate H | reflexivity].
Defined.

Example overloaded_event_lookup :
  find_entry KEvent overloaded_events "Set" = nth_error overloaded_events 0
  /\ events_lookup overloaded_events "Set"
     = Normal (EventDecoder.new (nth 1 overloaded_events transfer_event)).
Proof. split; vm_compute; reflexivity. Qed.

End EventLookup.

(** ** The wrappers of [this.methods] *)

Section Wrappers.
Import Js Utils Contract.

Lemma find_append {A : Type} (f : A -> bool) l1 l2 :
  List.find f (l1 ++ l2)
  = match List.find f l1 with
    | Some x => Some x
    | None => List.find f l2
    end.
Proof.
  induction l1 as [| x l1 IH]; [reflexivity |]. cbn [app List.find].
  destruct (f x); [reflexivity | exact IH].
Qed.

Lemma methods_fold (this : Instance) name :
  forall entries (m : gmap string ContractMethod.t),
    fold_left
      (fun m item =>
         match f_type item, f_name item with
         | KFunction, Some n =>
             if String.eqb n "" || String.eqb n "__proto__" then m
             else <[n := ContractMethod.new this item]> m
         | _, _ => m
         end)
      entries m !! name
    = match List.find (function_named name) (rev entries) with
      | Some item =>
          if String.eqb name "" || String.eqb name "__proto__"
          then m !! name else Some (ContractMethod.new this item)
      | None => m !! name
      end.
Proof.
  induction entries as [| item entries IH]; intros m; [reflexivity |].
  cbn [fold_left rev]. rewrite IH, find_append.
  destruct (List.find (function_named name) (rev entries)) as [found |].
  - destruct (String.eqb name "" || String.eqb name "__proto__") eqn:Hn;
      [| reflexivity].
    destruct (f_type item); try reflexivity.
    destruct (f_name item) as [n |]; [| reflexivity].
    destruct (String.eqb n "" || String.eqb n "__proto__") eqn:Hm; [reflexivity |].
    apply lookup_insert_ne. intros ->. congruence.
  - cbn [List.find]. unfold function_named at 1.
    destruct (f_type item); cbn [ABIKind_eqb andb]; try reflexivity.
    destruct (f_name item) as [n |]; [| reflexivity].
    destruct (String.eqb_spec n name) as [-> | Hne].
    + destruct (String.eqb name "" || String.eqb name "__proto__");
        [reflexivity | apply lookup_insert_eq].
    + destruct (String.eqb n "" || String.eqb n "__proto__"); [reflexivity |].
      apply lookup_insert_ne. exact Hne.
Qed.

(** X24. A wrapper of [this.methods] holds a function entry of its name,
    the last one of the ABI.  Its [call] looks the name up again and takes
    the first: when the ABI has one function of the name, [call] sends the
    calldata [encodeABI] returns; when it has two, the wrapper encodes with
    the one and calls with the other. *)
Theorem method_wrapper (this : Instance) name wrapper :
  methods this !! name = Some wrapper ->
  ContractMethod.contract wrapper = this
  /\ In (ContractMethod.abiItem wrapper) (abi this)
  /\ function_named name (ContractMethod.abiItem wrapper) = true
  /\ ((forall item,
         In item (abi this) -> function_named name item = true ->
         item = ContractMethod.abiItem wrapper) ->
      forall args h,
        ContractMethod.call wrapper args h
        = call this name args ContractMethod.no_options h
        /\ forall data,
             ContractMethod.encodeABI wrapper args = Normal data ->
             snd (ContractMethod.call wrapper args h)
             = h ++ [EthCall (address this) data None None]).
Proof.
  unfold methods. rewrite methods_fold. intros H.
  destruct (List.find (function_named name) (rev (abi this))) as [item |] eqn:Hfind;
    [| rewrite lookup_empty in H; discriminate H].
  destruct (String.eqb name "" || String.eqb name "__proto__");
    [rewrite lookup_empty in H; discriminate H |].
  injection H as <-. cbn [ContractMethod.new ContractMethod.contract
                          ContractMethod.abiItem].
  apply find_some in Hfind as [Hin Hnamed]. apply in_rev in Hin.
  split; [reflexivity | split; [exact Hin | split; [exact Hnamed |]]].
  intros Huniq args h.
  assert (Hname : f_name item = Some name).
  { unfold function_named in Hnamed. apply andb_prop in Hnamed as [_ Hn].
    destruct (f_name item) as [n |]; [| discriminate Hn].
    apply String.eqb_eq in Hn. congruence. }
  assert (Hcall : ContractMethod.call (ContractMethod.new this item) args h
                  = call this name args ContractMethod.no_options h).
  { unfold ContractMethod.call.
    cbn [ContractMethod.new ContractMethod.contract ContractMethod.abiItem].
    rewrite Hname. reflexivity. }
  split; [exact Hcall |].
  intros data Hdata. rewrite Hcall. unfold call.
  assert (Hentry : find_entry KFunction (abi this) name = Some item).
  { change (find_entry KFunction (abi this) name)
      with (List.find (function_named name) (abi this)).
    destruct (List.find (function_named name) (abi this)) as [first |] eqn:Hf.
    - apply find_some in Hf as [Hfin Hfn]. rewrite (Huniq first Hfin Hfn).
      reflexivity.
    - exfalso. pose proof (find_none _ _ Hf item Hin) as Hno. congruence. }
  rewrite Hentry. unfold bindR, ret, request.
  unfold ContractMethod.encodeABI in Hdata.
  cbn [ContractMethod.new ContractMethod.abiItem] in Hdata. rewrite Hdata.
  cbn [value_hex ContractMethod.no_options opt_value opt_from].
  destruct (rpc_ethCall (client this) h _); reflexivity.
Qed.


Example overloaded_method :
  let this :=
    {| address := "0x00000000000000000000000000000000000000aa";
       abi := overloaded_functions; client := silent_client |} in
  option_map ContractMethod.abiItem (methods this !! "set")
  = nth_error overloaded_functions 1
  /\ find_entry KFunction overloaded_functions "set"
     = nth_error overloaded_functions 0.
Proof. split; vm_compute; reflexivity. Qed.

End Wrappers.

Lemma method_wrapper_witness :
  snd (Contract.ContractMethod.call
         (Contract.ContractMethod.new (erc20 silent_client) transfer_function)
         [VString "0x5aaeb6053f3e94c9b9a09f33669435e7ef1beaed"; VBigInt 100] [])
  = [] ++ [ EthCall "0x00000000000000000000000000000000000000aa"
              ("0xa9059cbb"
                 +:+ "0000000000000000000000005aaeb6053f3e94c9b9a09f33669435e7ef1beaed"
                 +:+ "0000000000000000000000000000000000000000000000000000000000000064")
              None None ].
Proof.
  refine (proj2 (proj2 (proj2 (proj2
            (method_wrapper (erc20 silent_client) "transfer"
               (Contract.ContractMethod.new (erc20 silent_client)
                  transfer_function) _))) _
            [VString "0x5aaeb6053f3e94c9b9a09f33669435e7ef1beaed"; VBigInt 100]
            []) _ _).
  - vm_compute. reflexivity.
  - intros item [<- | [<- | []]] Hn; [reflexivity | discriminate Hn].
  - vm_compute. reflexivity.
Defined.

(** ** Typed data: [signTypedData], [hashStruct], [encodeType] *)

Section TypedData.
Import Js Utils.

Variable ecdsaSign : list byte -> list byte -> Completion (list byte * Z).

Lemma hash_fields_agree fields data data' :
  Forall (fun f => Contract.inherited (Wallet.field_name f) = false) fields ->
  (forall f, In f fields -> hashed_type (Wallet.field_type f) = true ->
             data !! Wallet.field_name f = data' !! Wallet.field_name f) ->
  forall encoded,
    Wallet.hash_fields fields data encoded
    = Wallet.hash_fields fields data' encoded.
Proof.
  induction fields as [| field rest IH]; intros Hown Hsame encoded; [reflexivity |].
  inversion Hown as [| ? ? Hfield Hrest]; subst.
  assert (IH' : forall e, Wallet.hash_fields rest data e
                          = Wallet.hash_fields rest data' e).
  { apply IH; [exact Hrest |]. intros f Hf. apply Hsame. right. exact Hf. }
  cbn [Wallet.hash_fields]. unfold Contract.get_property. rewrite Hfield.
  destruct (hashed_type (Wallet.field_type field)) eqn:Hhashed.
  - rewrite <- (Hsame field (or_introl eq_refl) Hhashed).
    destruct (data !! Wallet.field_name field) as [v |]; [| apply IH'].
    destruct v; cbn [bindC];
      repeat first
        [ apply IH'
        | reflexivity
        | match goal with
          | |- (if ?b then _ else _) = _ => destruct b
          | |- bindC ?c _ = _ => destruct c; cbn [bindC]
          end ].
  - unfold hashed_type in Hhashed.
    apply orb_false_elim in Hhashed as [Hhashed Haddress].
    apply orb_false_elim in Hhashed as [Hhashed Huint].
    apply orb_false_elim in Hhashed as [Hstring Huint256].
    rewrite Hstring, Huint256, Huint, Haddress. cbn [orb].
    destruct (data !! Wallet.field_name field) as [[| | | | |] |];
      destruct (data' !! Wallet.field_name field) as [[| | | | |] |];
      cbn [bindC]; apply IH'.
Qed.

Lemma hashStruct_form typeName data types hash :
  Wallet.hashStruct typeName data types = Normal hash ->
  exists bytes, hash = bytesToHex (Keccak.digest bytes).
Proof.
  unfold Wallet.hashStruct. intros H.
  destruct (Wallet.encodeType typeName types); try discriminate H.
  cbn [bindC] in H.
  destruct (Wallet.type_fields types typeName); try discriminate H.
  cbn [bindC] in H.
  destruct (Wallet.hash_fields _ data _) as [encoded | |]; try discriminate H.
  cbn [bindC] in H. injection H as <-. eexists. reflexivity.
Qed.

Lemma length_utf8_lower_hex s :
  lower_hex s = true -> length (utf8_encode s) = String.length s.
Proof.
  induction s as [| c s IH]; intros H; [reflexivity |].
  cbn [lower_hex] in H. apply andb_prop in H as [Hc Hs].
  cbn [utf8_encode String.length].
  destruct (Z.ltb_spec (code c) 128) as [| Hge]; [cbn [length]; rewrite IH; auto |].
  exfalso. apply orb_prop in Hc as [Hc | Hc]; apply andb_prop in Hc as [_ Hc];
    apply Z.leb_le in Hc; lia.
Qed.

(** X25. [hashStruct] hashes the members of the types [string],
    [uint256], [uint] and [address] that the data holds and no others: two
    data objects that agree on those members have the same struct hash,
    whatever they hold for members of other types, such as [bool] or
    [bytes32].  The hash is the [0x] form of a 32-byte Keccak-256 digest,
    and the type string [encodeType] builds names the type and lists its
    members as [type name], comma-separated. *)
Theorem hashStruct_members typeName types fields data data' :
  Wallet.type_fields types typeName = Normal fields ->
  Forall (fun f => Contract.inherited (Wallet.field_name f) = false) fields ->
  (forall f, In f fields -> hashed_type (Wallet.field_type f) = true ->
             data !! Wallet.field_name f = data' !! Wallet.field_name f) ->
  Wallet.hashStruct typeName data types = Wallet.hashStruct typeName data' types
  /\ Wallet.encodeType typeName types
     = Normal (typeName +:+ "("
                 +:+ Contract.join ","
                       (map (fun f => Wallet.field_type f +:+ " "
                                        +:+ Wallet.field_name f) fields)
                 +:+ ")")
  /\ forall hash,
       Wallet.hashStruct typeName data types = Normal hash ->
       len hash = 66
       /\ exists bytes, hash = bytesToHex (Keccak.digest bytes).
Proof.
  intros Hfields Hown Hsame. split; [| split].
  - unfold Wallet.hashStruct, Wallet.encodeType. rewrite Hfields. cbn [bindC].
    rewrite (hash_fields_agree fields data data' Hown Hsame). reflexivity.
  - unfold Wallet.encodeType. rewrite Hfields. reflexivity.
  - intros hash H. destruct (hashStruct_form _ _ _ _ H) as [bytes ->].
    split; [| eexists; reflexivity].
    unfold bytesToHex. change ("0x" +:+ ?x) with (String "0" (String "x" x)).
    rewrite !len_String, len_hex_of_bytes, length_digest. reflexivity.
Qed.

(** X26. [signTypedData] signs the Keccak-256 digest of a text of 130
    characters, the two characters of codes 25 and 1 followed by the 64
    hex digits of the domain hash and the 64 of the message hash, and
    returns the 65 bytes [r], [s] and [recid + 27] in hex, as [sign]
    does. *)
Theorem signTypedData_signature (this : WalletData) domain types value
  domainHash messageHash signature recid :
  Wallet.hashStruct "EIP712Domain" domain Wallet.domain_types
  = Normal domainHash ->
  Wallet.hashStruct (Wallet.primary_type types) value types
  = Normal messageHash ->
  let text :=
    String (chr 25) (String (chr 1) EmptyString)
      +:+ slice_from domainHash (Int 2) +:+ slice_from messageHash (Int 2) in
  ecdsaSign (Keccak.digest (utf8_encode text))
    (hexToBytes (slice_from (wallet_privateKey this) (Int 2)))
  = Normal (signature, recid) ->
  length signature = 64%nat -> 0 <= recid <= 3 ->
  Wallet.signTypedData ecdsaSign this domain types value
  = Normal (bytesToHex (signature_bytes signature recid))
  /\ length (utf8_encode text) = 130%nat
  /\ length (signature_bytes signature recid) = 65%nat.
Proof.
  intros Hdomain Hmessage text Hsign Hlen Hrecid.
  split; [| split].
  - unfold Wallet.signTypedData. rewrite Hdomain, Hmessage. cbn [bindC].
    fold text. unfold Keccak.keccak256. rewrite digest_of_hash, Hsign.
    cbn [bindC]. unfold bytesToHex. rewrite slice_from_0x.
    rewrite hex_of_one_byte by lia.
    assert (firstn 32 (skipn 32 signature) = skipn 32 signature) as ->
      by (apply firstn_all2; rewrite length_skipn; lia).
    unfold signature_bytes. rewrite !hex_of_bytes_app.
    now rewrite append_assoc.
  - destruct (hashStruct_form _ _ _ _ Hdomain) as [bd Hd].
    destruct (hashStruct_form _ _ _ _ Hmessage) as [bm Hm].
    unfold text. rewrite Hd, Hm. unfold bytesToHex. rewrite !slice_from_0x.
    rewrite !utf8_encode_append, !length_app.
    rewrite (length_utf8_lower_hex (hex_of_bytes (Keccak.digest bd)))
      by apply lower_hex_hex_of_bytes.
    rewrite (length_utf8_lower_hex (hex_of_bytes (Keccak.digest bm)))
      by apply lower_hex_hex_of_bytes.
    pose proof (len_hex_of_bytes (Keccak.digest bd)) as H1.
    pose proof (len_hex_of_bytes (Keccak.digest bm)) as H2.
    rewrite length_digest in H1, H2. unfold len in H1, H2.
    change (length (utf8_encode (String (chr 25) (String (chr 1) EmptyString))))
      with 2%nat.
    lia.
  - unfold signature_bytes.
    rewrite !length_app, length_firstn, length_skipn, Hlen. reflexivity.
Qed.

End TypedData.

Lemma hashStruct_members_witness :
  Wallet.hashStruct "Mail"
    (<["to" := VString "0x5aaeb6053f3e94c9b9a09f33669435e7ef1beaed"]>
       (<["urgent" := VBool true]> ∅)) mail_types
  = Wallet.hashStruct "Mail"
      (<["to" := VString "0x5aaeb6053f3e94c9b9a09f33669435e7ef1beaed"]>
         (<["urgent" := VBool false]> ∅)) mail_types.
Proof.
  refine (proj1 (hashStruct_members "Mail" mail_types
                   [ {| Wallet.field_name := "to"; Wallet.field_type := "address" |};
                     {| Wallet.field_name := "urgent"; Wallet.field_type := "bool" |} ]
                   _ _ eq_refl _ _)).
  - apply List.Forall_cons; [reflexivity |].
    apply List.Forall_cons; [reflexivity | apply List.Forall_nil].
  - intros f [<- | [<- | []]] H; [vm_compute; reflexivity | discriminate H].
Defined.

Lemma signTypedData_signature_witness :
  Wallet.signTypedData fixed_signer test_wallet ∅ mail_types
    (<["to" := VString "0x5aaeb6053f3e94c9b9a09f33669435e7ef1beaed"]> ∅)
  = Normal
      (Utils.bytesToHex
         (signature_bytes
            (repeat (byte_of_Z 0x11) 32 ++ repeat (byte_of_Z 0x22) 32) 1)).
Proof.
  refine (proj1 (signTypedData_signature fixed_signer test_wallet ∅ mail_types
                   (<["to" := VString "0x5aaeb6053f3e94c9b9a09f33669435e7ef1beaed"]>
                      ∅)
                   match Wallet.hashStruct "EIP712Domain" ∅ Wallet.domain_types with
                   | Normal hash => hash
                   | _ => EmptyString
                   end
                   match
                     Wallet.hashStruct (Wallet.primary_type mail_types)
                       (<["to" :=
                            VString "0x5aaeb6053f3e94c9b9a09f33669435e7ef1beaed"]>
                          ∅) mail_types
                   with
                   | Normal hash => hash
                   | _ => EmptyString
                   end
                   (repeat (byte_of_Z 0x11) 32 ++ repeat (byte_of_Z 0x22) 32) 1
                   _ _ _ _ _)).
  - vm_compute. reflexivity.
  - vm_compute. reflexivity.
  - reflexivity.
  - reflexivity.
  - lia.
Defined.

(** ** The filter of [getPastEvents] *)

Section Filters.
Import Js Utils Contract.

Lemma filter_topics_agree indexedInputs (f f' : gmap string Value) :
  (forall input, In input indexedInputs -> f !! p_name input = f' !! p_name input) ->
  filter_topics indexedInputs f = filter_topics indexedInputs f'.
Proof.
  induction indexedInputs as [| input rest IH]; intros H; [reflexivity |].
  cbn [filter_topics]. unfold get_property.
  rewrite (H input (or_introl eq_refl)), IH; [reflexivity |].
  intros i Hi. apply H. right. exact Hi.
Qed.

Lemma filter_topics_length indexedInputs (f : gmap string Value) topics :
  filter_topics indexedInputs f = Normal topics ->
  length topics = length indexedInputs.
Proof.
  revert topics. induction indexedInputs as [| input rest IH]; intros topics H.
  - injection H as <-. reflexivity.
  - cbn [filter_topics] in H.
    destruct (get_property f (p_name input)) as [wanted | |]; try discriminate H.
    cbn [bindC] in H.
    destruct (match wanted with
              | Some v =>
                  let* word := encodeParameter (p_type input) v in
                  Normal (Some word)
              | None => Normal None
              end) as [topic | |]; try discriminate H.
    cbn [bindC] in H.
    destruct (filter_topics rest f) as [rest_topics | |]; try discriminate H.
    cbn [bindC] in H. injection H as <-. cbn [length]. rewrite (IH _ eq_refl).
    reflexivity.
Qed.

(** X27. The filter of [getPastEvents] is read at the names of the indexed
    inputs of the event and nowhere else: two filters that agree there give
    the same run, so an entry for a parameter that is not indexed, or for a
    name the event does not have, is ignored without an error.  With a
    filter the request has one topic for the event and one for every
    indexed input. *)
Theorem getPastEvents_filter (this : Instance) eventName eventAbi
  (f f' : gmap string Value) from to h :
  find_entry KEvent (abi this) eventName = Some eventAbi ->
  (forall input,
     In input (default [] (f_inputs eventAbi)) -> is_indexed input = true ->
     f !! p_name input = f' !! p_name input) ->
  getPastEvents this eventName
    {| fromBlock := from; toBlock := to; filter := Some f |} h
  = getPastEvents this eventName
      {| fromBlock := from; toBlock := to; filter := Some f' |} h
  /\ forall target topics first last,
       snd (getPastEvents this eventName
              {| fromBlock := from; toBlock := to; filter := Some f |} h)
       = h ++ [GetLogs target topics first last] ->
       length topics
       = S (length (List.filter is_indexed (default [] (f_inputs eventAbi)))).
Proof.
  intros Hfind Hsame.
  assert (Hfilters :
            match f_inputs eventAbi with
            | Some inputs => filter_topics (List.filter is_indexed inputs) f
            | None => Normal []
            end
            = match f_inputs eventAbi with
              | Some inputs => filter_topics (List.filter is_indexed inputs) f'
              | None => Normal []
              end).
  { destruct (f_inputs eventAbi) as [inputs |]; [| reflexivity].
    apply filter_topics_agree. intros input Hin.
    apply filter_In in Hin as [Hin Hidx]. apply Hsame; assumption. }
  split.
  - unfold getPastEvents. rewrite Hfind. unfold bindR, ret, request.
    cbn [filter fromBlock toBlock]. rewrite Hfilters. reflexivity.
  - intros target topics first last.
    unfold getPastEvents. rewrite Hfind. unfold bindR, ret, request.
    cbn [filter fromBlock toBlock].
    destruct (events_lookup (abi this) eventName) as [decoder | |];
      cbn [snd]; try (intros H; apply (f_equal (@length _)) in H;
                      rewrite length_app in H; cbn in H; lia).
    destruct (match f_inputs eventAbi with
              | Some inputs => filter_topics (List.filter is_indexed inputs) f
              | None => Normal []
              end) as [filters | |] eqn:Hf;
      cbn [snd]; try (intros H; apply (f_equal (@length _)) in H;
                      rewrite length_app in H; cbn in H; lia).
    assert (Hlen : length filters
                   = length (List.filter is_indexed (default [] (f_inputs eventAbi)))).
    { destruct (f_inputs eventAbi) as [inputs |].
      - apply (filter_topics_length _ _ _ Hf).
      - injection Hf as <-. reflexivity. }
    destruct (rpc_getLogs (client this) h _); cbn [snd];
      intros H; apply app_inv_head in H; injection H as _ <- _ _;
      cbn [length]; rewrite Hlen; reflexivity.
Qed.

End Filters.

Lemma getPastEvents_filter_witness :
  Contract.getPastEvents (erc20 silent_client) "Transfer"
    {| Contract.fromBlock := None; Contract.toBlock := None;
       Contract.filter :=
         Some (<["from" := VString "0x5aaeb6053f3e94c9b9a09f33669435e7ef1beaed"]>
                 (<["value" := VBigInt 5]> ∅)) |} []
  = Contract.getPastEvents (erc20 silent_client) "Transfer"
      {| Contract.fromBlock := None; Contract.toBlock := None;
         Contract.filter :=
           Some (<["from" :=
                     VString "0x5aaeb6053f3e94c9b9a09f33669435e7ef1beaed"]> ∅) |}
      [].
Proof.
  refine (proj1 (getPastEvents_filter (erc20 silent_client) "Transfer"
                   transfer_event _ _ None None [] eq_refl _)).
  intros input [<- | [<- | [<- | []]]] H;
    [vm_compute; reflexivity | vm_compute; reflexivity | discriminate H].
Defined.

(** ** [shortenAddress] *)

Section Shorten.
Import Js Utils.

(** X28. [shortenAddress] of a 42-character address keeps its first
    [chars + 2] and its last [chars] characters around three dots, for
    [chars] from 1 to 20; with [chars = 0] the last part is the whole
    address, so that the result is longer than the address. *)
Theorem shortenAddress_parts address chars :
  len address = 42 ->
  (1 <= chars <= 20 ->
   shortenAddress address chars
   = take (Z.to_nat (chars + 2)) address +:+ "..."
       +:+ drop (Z.to_nat (42 - chars)) address
   /\ len (shortenAddress address chars) = 2 * chars + 5)
  /\ shortenAddress address 0 = take 2 address +:+ "..." +:+ address.
Proof.
  intros Hl.
  assert (Hne : String.eqb address "" = false).
  { destruct address; [discriminate Hl | reflexivity]. }
  split.
  - intros Hc. unfold shortenAddress. rewrite Hne.
    rewrite slice_take by lia.
    assert (Hlast : slice_from address (Int (- chars))
                    = drop (Z.to_nat (42 - chars)) address).
    { unfold slice_from, slice, rel_index. rewrite Hl.
      destruct (Z.ltb_spec (- chars) 0); [| lia].
      change (42 <? 0) with false. cbv beta iota.
      rewrite Z.max_l, Z.min_l by lia.
      replace (42 + - chars) with (42 - chars) by lia.
      apply take_all. rewrite length_drop. unfold len in Hl. lia. }
    rewrite Hlast. split; [reflexivity |].
    rewrite !len_append. unfold len.
    rewrite length_take, length_drop by (unfold len in Hl; lia).
    change (String.length "...") with 3%nat. unfold len in Hl. lia.
  - unfold shortenAddress. rewrite Hne.
    change (0 + 2) with 2. rewrite slice_take by lia.
    change (- 0) with 0. unfold slice_from. rewrite slice_whole by lia.
    reflexivity.
Qed.

Lemma shortenAddress_parts_witness :
  shortenAddress "0x5aAeb6053F3E94C9b9A09f33669435E7Ef1BeAed" 4
  = take (Z.to_nat (4 + 2)) "0x5aAeb6053F3E94C9b9A09f33669435E7Ef1BeAed"
      +:+ "..."
      +:+ drop (Z.to_nat (42 - 4)) "0x5aAeb6053F3E94C9b9A09f33669435E7Ef1BeAed"
  /\ len (shortenAddress "0x5aAeb6053F3E94C9b9A09f33669435E7Ef1BeAed" 4)
     = 2 * 4 + 5.
Proof.
  apply (proj1 (shortenAddress_parts
                  "0x5aAeb6053F3E94C9b9A09f33669435E7Ef1BeAed" 4 eq_refl)).
  lia.
Defined.

Example shortenAddress_default :
  shortenAddress "0x5aAeb6053F3E94C9b9A09f33669435E7Ef1BeAed" 4 = "0x5aAe...eAed".
Proof. reflexivity. Qed.

End Shorten.

(** ** The results of [call] and [estimateGas] *)

Section Results.
Import Js Utils Contract.

(** X29. [call] returns what the answer of the node encodes: when the
    answer is the [0x] form of the words of [static_value]s of the output
    types (lower-case addresses, [uintN] below [2^256], [intN] that are
    not negative and below [2^(N-1)] or negative [int256], booleans,
    [bytes32] of 64 hex digits), the result is [null] for no output, the
    value for one output and the array of the values for more, after one
    request that carries the calldata of [encodeCall]. *)
Theorem call_result (this : Instance) method abiItem args data outputs values
  words h :
  find_entry KFunction (abi this) method = Some abiItem ->
  encodeCall abiItem args = Normal data ->
  f_outputs abiItem = Some outputs ->
  Forall2 (fun output value => static_value (p_type output) value)
          outputs values ->
  encodeArguments outputs values = Normal words ->
  rpc_ethCall (client this) h (EthCall (address this) data None None)
  = Normal ("0x" +:+ words) ->
  call this method args ContractMethod.no_options h
  = (Normal (result_of values),
     h ++ [EthCall (address this) data None None]).
Proof.
  intros Hfind Hdata Hout Hstatic Hwords Hnode.
  unfold call. rewrite Hfind. unfold bindR, ret, request. rewrite Hdata.
  cbn [value_hex ContractMethod.no_options opt_value opt_from]. rewrite Hnode.
  destruct (static_arguments outputs values Hstatic)
    as (words' & Henc & _ & _ & Hdec).
  assert (words' = words) by congruence. subst words'.
  assert (Hdecode : decodeArguments outputs ("0x" +:+ words) = Normal values).
  { unfold decodeArguments, startsWith. rewrite prefix_append, slice_from_0x.
    specialize (Hdec EmptyString EmptyString).
    rewrite append_nil_l, append_empty_r in Hdec. exact Hdec. }
  unfold decodeResult. rewrite Hout.
  inversion Hstatic as [| output value outputs' values' Hs Hrest]; subst;
    [reflexivity |].
  rewrite Hdecode. cbn [bindC].
  inversion Hrest; subst; reflexivity.
Qed.

Lemma call_result_witness :
  call (token_contract (token_client 5)) "balanceOf"
    [VString "0x5aaeb6053f3e94c9b9a09f33669435e7ef1beaed"]
    ContractMethod.no_options []
  = (Normal (result_of [VBigInt 5]),
     [] ++ [ EthCall "0x00000000000000000000000000000000000000aa"
               ("0x70a08231"
                  +:+ "0000000000000000000000005aaeb6053f3e94c9b9a09f33669435e7ef1beaed")
               None None ]).
Proof.
  apply (call_result (token_contract (token_client 5)) "balanceOf"
           balanceOf_function
           [VString "0x5aaeb6053f3e94c9b9a09f33669435e7ef1beaed"]
           ("0x70a08231"
              +:+ "0000000000000000000000005aaeb6053f3e94c9b9a09f33669435e7ef1beaed")
           [ {| p_name := ""; p_type := "uint256"; p_indexed := None |} ]
           [VBigInt 5] (word_of 5) []).
  - reflexivity.
  - vm_compute. reflexivity.
  - reflexivity.
  - apply List.Forall2_cons; [| apply List.Forall2_nil].
    apply static_uint; [reflexivity | lia].
  - vm_compute. reflexivity.
  - reflexivity.
Defined.

(** X30. [estimateGas] returns the number the node answers in hex, for
    the safe integers; an answer that holds no hex digit, such as [0x], is
    no error: the result is NaN. *)
Theorem estimateGas_result (this : Instance) method abiItem args data h :
  find_entry KFunction (abi this) method = Some abiItem ->
  encodeCall abiItem args = Normal data ->
  (forall gas,
     0 <= gas < 2 ^ 53 ->
     rpc_estimateGas (client this) h (EstimateGas (address this) data None None)
     = Normal (numberToHex gas) ->
     estimateGas this method args ContractMethod.no_options h
     = (Normal (Int gas), h ++ [EstimateGas (address this) data None None]))
  /\ (forall answer,
        answer = "0x" \/ answer = EmptyString ->
        rpc_estimateGas (client this) h
          (EstimateGas (address this) data None None)
        = Normal answer ->
        estimateGas this method args ContractMethod.no_options h
        = (Normal NaN, h ++ [EstimateGas (address this) data None None])).
Proof.
  intros Hfind Hdata. split.
  - intros gas Hgas Hnode. unfold estimateGas. rewrite Hfind.
    unfold bindR, ret, request. rewrite Hdata.
    cbn [value_hex ContractMethod.no_options opt_value opt_from]. rewrite Hnode.
    destruct (toString_digits 16 gas ltac:(lia) ltac:(lia)) as [Hv _].
    unfold hexToNumber, numberToHex.
    rewrite (proj2 (parseInt_hex_digits _ _ Hv)).
    assert (Hsafe : safe_integer gas = true).
    { unfold safe_integer. destruct (Z.ltb_spec (- 2 ^ 53) gas); [| lia].
      destruct (Z.ltb_spec gas (2 ^ 53)); [reflexivity | lia]. }
    rewrite Hsafe. reflexivity.
  - intros answer Hanswer Hnode. unfold estimateGas. rewrite Hfind.
    unfold bindR, ret, request. rewrite Hdata.
    cbn [value_hex ContractMethod.no_options opt_value opt_from]. rewrite Hnode.
    destruct Hanswer as [-> | ->]; reflexivity.
Qed.

Lemma estimateGas_result_witness :
  estimateGas (token_contract silent_client) "balanceOf"
    [VString "0x5aaeb6053f3e94c9b9a09f33669435e7ef1beaed"]
    ContractMethod.no_options []
  = (Normal (Int 21000),
     [] ++ [ EstimateGas "0x00000000000000000000000000000000000000aa"
               ("0x70a08231"
                  +:+ "0000000000000000000000005aaeb6053f3e94c9b9a09f33669435e7ef1beaed")
               None None ]).
Proof.
  refine (proj1 (estimateGas_result (token_contract silent_client) "balanceOf"
                   balanceOf_function
                   [VString "0x5aaeb6053f3e94c9b9a09f33669435e7ef1beaed"]
                   ("0x70a08231"
                      +:+ "0000000000000000000000005aaeb6053f3e94c9b9a09f33669435e7ef1beaed")
                   [] _ _) 21000 _ _).
  - reflexivity.
  - vm_compute. reflexivity.
  - lia.
  - reflexivity.
Defined.

End Results.
